(** * Horusec: the Docker service (internal/services/docker/docker_api.go)

    A shallow embedding of the [API] type of package [docker] and of the
    library functions it calls, followed by the properties of the image
    check, the image pull, the container life cycle, the run-scoped cleanup
    and the translation of the mount source.

    Go strings are byte sequences: they are modelled by [string], whose
    characters are the 256 values of [ascii]. *)

From Stdlib Require Import String Ascii List NArith ZArith Lia Bool Arith.
From Stdlib Require Import DecimalString.
Import ListNotations.
Open Scope string_scope.
Open Scope list_scope.

(** ** Byte sequences *)

Fixpoint take (n : nat) (s : string) : string :=
  match n, s with
  | S n', String c s' => String c (take n' s')
  | _, _ => EmptyString
  end.

Fixpoint drop (n : nat) (s : string) : string :=
  match n, s with
  | S n', String _ s' => drop n' s'
  | _, _ => s
  end.

(** [s[i:j]] of Go: a run-time panic ([None]) when the bounds are not
    [i <= j <= len(s)]. *)
Definition slice (s : string) (i j : nat) : option string :=
  if Nat.leb i j && Nat.leb j (String.length s) then Some (take (j - i) (drop i s))
  else None.

(** Whether the byte [c] occurs in [s]. *)
Fixpoint occurs (c : ascii) (s : string) : bool :=
  match s with
  | EmptyString => false
  | String a s' => Ascii.eqb a c || occurs c s'
  end.

(** Every byte equal to [c] replaced by the string [new]. *)
Fixpoint subst_byte (c : ascii) (new : string) (s : string) : string :=
  match s with
  | EmptyString => EmptyString
  | String a s' =>
      if Ascii.eqb a c then new ++ subst_byte c new s'
      else String a (subst_byte c new s')
  end.

(** ** Package strings of the Go library *)

Module strings.

Fixpoint HasPrefix (s prefix : string) : bool :=
  match prefix, s with
  | EmptyString, _ => true
  | String a p', String b s' => Ascii.eqb a b && HasPrefix s' p'
  | String _ _, EmptyString => false
  end.

(** [Index] returns the position of the first instance of [substr], Go's
    [-1] being [None]. *)
Fixpoint Index (s substr : string) : option nat :=
  if HasPrefix s substr then Some 0
  else match s with
       | EmptyString => None
       | String _ s' => option_map S (Index s' substr)
       end.

Definition Contains (s substr : string) : bool :=
  match Index s substr with Some _ => true | None => false end.

(** The loop of [genSplit]: cut at each instance of [sep] found by
    [Index]. Every round consumes at least one byte of [s] when [sep] is
    not empty, so [length s] rounds are enough. *)
Fixpoint split_loop (fuel : nat) (s sep : string) : list string :=
  match Index s sep with
  | None => [s]
  | Some m =>
      match fuel with
      | 0 => [s]
      | S fuel' => take m s :: split_loop fuel' (drop (m + String.length sep) s) sep
      end
  end.

(** With an empty separator Go explodes [s] into its UTF-8 sequences; the
    model explodes into bytes, which is the same on ASCII input. No call
    of the service passes an empty separator. *)
Fixpoint explode (s : string) : list string :=
  match s with
  | EmptyString => []
  | String c s' => String c EmptyString :: explode s'
  end.

Definition Split (s sep : string) : list string :=
  match sep with
  | EmptyString => explode s
  | _ => split_loop (String.length s) s sep
  end.

Fixpoint Join (elems : list string) (sep : string) : string :=
  match elems with
  | [] => EmptyString
  | [e] => e
  | e :: rest => e ++ sep ++ Join rest sep
  end.

(** The loop of [Replace] with [n < 0]: copy up to the next instance of
    [old], write [new], continue after the instance. *)
Fixpoint replace_loop (fuel : nat) (s old new : string) : string :=
  match Index s old with
  | None => s
  | Some j =>
      match fuel with
      | 0 => s
      | S fuel' =>
          take j s ++ new ++ replace_loop fuel' (drop (j + String.length old) s) old new
      end
  end.

(** With an empty [old] Go inserts [new] before every UTF-8 sequence and
    at the end; the model does so before every byte. No call of the
    service passes an empty [old]. *)
Fixpoint intersperse (s new : string) : string :=
  match s with
  | EmptyString => new
  | String c s' => new ++ String c (intersperse s' new)
  end.

Definition ReplaceAll (s old new : string) : string :=
  if String.eqb old new then s
  else match old with
       | EmptyString => intersperse s new
       | _ => replace_loop (String.length s) s old new
       end.

(** [ToLower] on one byte. A byte below 0x80 is ASCII; a byte from 0x80
    on, standing alone, is invalid UTF-8 and is mapped to U+FFFD
    (EF BF BD). *)
Definition lower_byte (c : ascii) : string :=
  let n := nat_of_ascii c in
  if Nat.leb 65 n && Nat.leb n 90 then String (ascii_of_nat (n + 32)) EmptyString
  else if Nat.ltb n 128 then String c EmptyString
  else String (ascii_of_nat 239) (String (ascii_of_nat 191)
         (String (ascii_of_nat 189) EmptyString)).

(** [ToLower] as the service uses it, on the one-byte string [path[0:1]]:
    exact on ASCII strings and on invalid bytes; multi-byte runes, which a
    one-byte string cannot hold, are outside the model. *)
Fixpoint ToLower (s : string) : string :=
  match s with
  | EmptyString => EmptyString
  | String c s' => lower_byte c ++ ToLower s'
  end.

End strings.

(** ** Package strconv, package fmt, errors and readers *)

Module strconv.

(** Go's [int] on the 64-bit targets the tool is built for: the conversion
    [int(x)] of an [int64] wraps to 64 bits, which leaves every [int64]
    unchanged. *)
Definition int (x : Z) : Z :=
  ((x + 2 ^ 63) mod 2 ^ 64 - 2 ^ 63)%Z.

Definition Itoa (i : Z) : string :=
  NilZero.string_of_int (Z.to_int i).

End strconv.

Module fmt.

(** The operands left over, as [Sprintf] reports them. *)
Fixpoint extra (args : list string) : string :=
  match args with
  | [] => EmptyString
  | [a] => "string=" ++ a
  | a :: rest => "string=" ++ a ++ ", " ++ extra rest
  end.

(** [Sprintf] with string operands. The directives modelled are [%s] and
    [%%], the only ones in the formats of the service; a [%s] without an
    operand prints [%!s(MISSING)] and operands left over are reported at the
    end, as Go does. Any other byte is copied. *)
Fixpoint Sprintf (format : string) (args : list string) : string :=
  match format with
  | EmptyString =>
      match args with
      | [] => EmptyString
      | _ => "%!(EXTRA " ++ extra args ++ ")"
      end
  | String "%" (String "s" rest) =>
      match args with
      | [] => "%!s(MISSING)" ++ Sprintf rest []
      | a :: args' => a ++ Sprintf rest args'
      end
  | String "%" (String "%" rest) => String "%" (Sprintf rest args)
  | String c rest => String c (Sprintf rest args)
  end.

End fmt.

(** A Go [error], represented by the text its method [Error] returns. *)
Record error : Type := { Error : string }.

Module errors.

Definition New (text : string) : error := {| Error := text |}.

End errors.

Module io.

(** An [io.Reader] handed out by the engine, represented by what reading it
    to the end yields: the bytes read and the error that stopped the read,
    if any. *)
Record Reader : Type := { data : string; failure : option error }.

Definition ReadAll (r : Reader) : string * option error :=
  (data r, failure r).

End io.

(** ** Package unicode/utf8, encoding/json and encoding/base64 *)

Module utf8.

Definition between (lo hi : N) (c : ascii) : bool :=
  (N.leb lo (N_of_ascii c) && N.leb (N_of_ascii c) hi)%bool.

(** The tables [first] and [acceptRanges]: for a leading byte of a
    multi-byte sequence, the size of the sequence and the range accepted for
    its second byte. *)
Definition first (s0 : ascii) : option (nat * N * N) :=
  if between 0xC2 0xDF s0 then Some (2, 0x80%N, 0xBF%N)
  else if between 0xE0 0xE0 s0 then Some (3, 0xA0%N, 0xBF%N)
  else if between 0xE1 0xEC s0 then Some (3, 0x80%N, 0xBF%N)
  else if between 0xED 0xED s0 then Some (3, 0x80%N, 0x9F%N)
  else if between 0xEE 0xEF s0 then Some (3, 0x80%N, 0xBF%N)
  else if between 0xF0 0xF0 s0 then Some (4, 0x90%N, 0xBF%N)
  else if between 0xF1 0xF3 s0 then Some (4, 0x80%N, 0xBF%N)
  else if between 0xF4 0xF4 s0 then Some (4, 0x80%N, 0x8F%N)
  else None.

(** The width that [DecodeRuneInString] returns on a non-empty [s], when
    the bytes at its head are a well-formed sequence; [None] is its answer
    [(RuneError, 1)] for a byte that starts none. The rune itself is
    determined by the bytes and is not computed. *)
Definition width (s : string) : option nat :=
  match s with
  | EmptyString => None
  | String s0 rest =>
      if N.ltb (N_of_ascii s0) 0x80 then Some 1
      else match first s0, rest with
           | Some (2, lo, hi), String s1 _ =>
               if between lo hi s1 then Some 2 else None
           | Some (3, lo, hi), String s1 (String s2 _) =>
               if between lo hi s1 && between 0x80 0xBF s2 then Some 3 else None
           | Some (4, lo, hi), String s1 (String s2 (String s3 _)) =>
               if between lo hi s1 && between 0x80 0xBF s2 && between 0x80 0xBF s3
               then Some 4 else None
           | _, _ => None
           end
  end.

(** [ValidString]: every byte belongs to a well-formed sequence. *)
Fixpoint valid_loop (fuel : nat) (s : string) : bool :=
  match fuel, s with
  | _, EmptyString => true
  | 0, _ => false
  | S fuel', _ =>
      match width s with
      | Some n => valid_loop fuel' (drop n s)
      | None => false
      end
  end.

Definition ValidString (s : string) : bool := valid_loop (String.length s) s.

(** [EncodeRune] on the Basic Multilingual Plane; a surrogate is written as
    U+FFFD. *)
Definition EncodeRune (r : N) : string :=
  let r := if (N.leb 0xD800 r && N.leb r 0xDFFF)%bool then 0xFFFD%N else r in
  if N.ltb r 0x80 then String (ascii_of_N r) EmptyString
  else if N.ltb r 0x800 then
    String (ascii_of_N (N.lor 0xC0 (N.shiftr r 6)))
      (String (ascii_of_N (N.lor 0x80 (N.land r 0x3F))) EmptyString)
  else
    String (ascii_of_N (N.lor 0xE0 (N.shiftr r 12)))
      (String (ascii_of_N (N.lor 0x80 (N.land (N.shiftr r 6) 0x3F)))
         (String (ascii_of_N (N.lor 0x80 (N.land r 0x3F))) EmptyString)).

End utf8.

Module json.

(** The double quote, byte 0x22. *)
Definition DQUOTE : ascii := ascii_of_nat 34.

Definition hex (n : N) : ascii :=
  match String.get (N.to_nat n) "0123456789abcdef" with
  | Some c => c
  | None => "0"%char
  end.

(** [htmlSafeSet]: the ASCII bytes written as they are. *)
Definition htmlSafe (b : ascii) : bool :=
  let n := N_of_ascii b in
  (N.leb 0x20 n && N.ltb n 0x80
   && negb (Ascii.eqb b DQUOTE) && negb (Ascii.eqb b "\")
   && negb (Ascii.eqb b "<") && negb (Ascii.eqb b ">") && negb (Ascii.eqb b "&"))%bool.

(** The escape of an ASCII byte outside [htmlSafeSet], as the releases of
    Go up to 1.21 write it; later releases shorten the escapes of the bytes
    08 and 0C, which decode to the same bytes. *)
Definition escape (b : ascii) : string :=
  if (Ascii.eqb b "\" || Ascii.eqb b DQUOTE)%bool then String "\" (String b EmptyString)
  else if N.eqb (N_of_ascii b) 10 then "\n"
  else if N.eqb (N_of_ascii b) 13 then "\r"
  else if N.eqb (N_of_ascii b) 9 then "\t"
  else "\u00" ++ String (hex (N.shiftr (N_of_ascii b) 4))
                   (String (hex (N.land (N_of_ascii b) 0xF)) EmptyString).

Definition LINE_SEPARATOR : string :=
  String (ascii_of_N 0xE2) (String (ascii_of_N 0x80) (String (ascii_of_N 0xA8) EmptyString)).

Definition PARAGRAPH_SEPARATOR : string :=
  String (ascii_of_N 0xE2) (String (ascii_of_N 0x80) (String (ascii_of_N 0xA9) EmptyString)).

(** The loop of the string encoder, with HTML escaping as [Marshal] sets
    it: safe ASCII is copied, other ASCII escaped, a byte that is not
    well-formed UTF-8 becomes the escape of U+FFFD, U+2028 and U+2029 are
    escaped and every other sequence is copied. *)
Fixpoint string_loop (fuel : nat) (src : string) : string :=
  match fuel, src with
  | _, EmptyString => EmptyString
  | 0, _ => EmptyString
  | S fuel', String b rest =>
      if N.ltb (N_of_ascii b) 0x80 then
        if htmlSafe b then String b (string_loop fuel' rest)
        else escape b ++ string_loop fuel' rest
      else
        match utf8.width src with
        | None => "\ufffd" ++ string_loop fuel' rest
        | Some size =>
            let seq := take size src in
            if String.eqb seq LINE_SEPARATOR then "\u2028" ++ string_loop fuel' (drop size src)
            else if String.eqb seq PARAGRAPH_SEPARATOR then "\u2029" ++ string_loop fuel' (drop size src)
            else seq ++ string_loop fuel' (drop size src)
        end
  end.

Definition encodeString (src : string) : string :=
  String DQUOTE (string_loop (String.length src) src) ++ String DQUOTE EmptyString.

(** A struct of string fields tagged [omitempty]: the members of the empty
    fields are left out. *)
Fixpoint members (fields : list (string * string)) : list string :=
  match fields with
  | [] => []
  | (name, value) :: rest =>
      if String.eqb value EmptyString then members rest
      else (encodeString name ++ ":" ++ encodeString value)%string :: members rest
  end.

Definition marshalStruct (fields : list (string * string)) : string :=
  "{" ++ strings.Join (members fields) "," ++ "}".

(** *** Decoding, on documents without insignificant white space, which is
    how [Marshal] writes them *)

Definition unhex (c : ascii) : option N :=
  let n := N_of_ascii c in
  if (N.leb 48 n && N.leb n 57)%bool then Some (n - 48)%N
  else if (N.leb 97 n && N.leb n 102)%bool then Some (n - 87)%N
  else if (N.leb 65 n && N.leb n 70)%bool then Some (n - 55)%N
  else None.

(** [getu4]: the rune of four hexadecimal digits. *)
Definition getu4 (h1 h2 h3 h4 : ascii) : option N :=
  match unhex h1, unhex h2, unhex h3, unhex h4 with
  | Some a, Some b, Some c, Some d => Some (((a * 16 + b) * 16 + c) * 16 + d)%N
  | _, _, _, _ => None
  end.

(** The bytes of an escape other than [\u]. *)
Definition unescape (e : ascii) : option ascii :=
  if Ascii.eqb e DQUOTE then Some DQUOTE
  else if Ascii.eqb e "\" then Some "\"%char
  else if Ascii.eqb e "/" then Some "/"%char
  else if Ascii.eqb e "'" then Some "'"%char
  else if Ascii.eqb e "b" then Some (ascii_of_nat 8)
  else if Ascii.eqb e "f" then Some (ascii_of_nat 12)
  else if Ascii.eqb e "n" then Some (ascii_of_nat 10)
  else if Ascii.eqb e "r" then Some (ascii_of_nat 13)
  else if Ascii.eqb e "t" then Some (ascii_of_nat 9)
  else None.

Definition REPLACEMENT : string := utf8.EncodeRune 0xFFFD.

Definition prepend (pre : string) (r : option (string * string))
  : option (string * string) :=
  match r with
  | Some (decoded, rest) => Some ((pre ++ decoded)%string, rest)
  | None => None
  end.

(** [unquote], from after the opening quote: the decoded bytes up to the
    closing quote and what follows it. Escapes are decoded, a control byte
    is refused, well-formed UTF-8 is copied and any other byte becomes
    U+FFFD. A surrogate escape, which [Marshal] never writes, is decoded as
    U+FFFD. *)
Fixpoint unquote_loop (fuel : nat) (s : string) : option (string * string) :=
  match fuel, s with
  | 0, _ => None
  | _, EmptyString => None
  | S fuel', String c rest =>
      if Ascii.eqb c DQUOTE then Some (EmptyString, rest)
      else if Ascii.eqb c "\" then
        match rest with
        | String "u" (String h1 (String h2 (String h3 (String h4 rest')))) =>
            match getu4 h1 h2 h3 h4 with
            | Some r => prepend (utf8.EncodeRune r) (unquote_loop fuel' rest')
            | None => None
            end
        | String e rest' =>
            match unescape e with
            | Some b => prepend (String b EmptyString) (unquote_loop fuel' rest')
            | None => None
            end
        | EmptyString => None
        end
      else if N.ltb (N_of_ascii c) 0x20 then None
      else if N.ltb (N_of_ascii c) 0x80 then
        prepend (String c EmptyString) (unquote_loop fuel' rest)
      else
        match utf8.width s with
        | Some size => prepend (take size s) (unquote_loop fuel' (drop size s))
        | None => prepend REPLACEMENT (unquote_loop fuel' rest)
        end
  end.

Definition expect (c : ascii) (s : string) : option string :=
  match s with
  | String x rest => if Ascii.eqb x c then Some rest else None
  | EmptyString => None
  end.

(** A string literal at the head of [s]. *)
Definition literal (s : string) : option (string * string) :=
  match expect DQUOTE s with
  | Some body => unquote_loop (String.length body) body
  | None => None
  end.

(** The members of an object whose values are strings, from the first key
    to the closing brace, which must end the document. *)
Fixpoint parse_members (fuel : nat) (s : string) : option (list (string * string)) :=
  match fuel with
  | 0 => None
  | S fuel' =>
      match literal s with
      | Some (key, s1) =>
          match expect ":" s1 with
          | Some s2 =>
              match literal s2 with
              | Some (value, s3) =>
                  match s3 with
                  | String "," rest =>
                      option_map (cons (key, value)) (parse_members fuel' rest)
                  | String "}" EmptyString => Some [(key, value)]
                  | _ => None
                  end
              | None => None
              end
          | None => None
          end
      | None => None
      end
  end.

Definition parseObject (doc : string) : option (list (string * string)) :=
  match doc with
  | String "{" (String "}" EmptyString) => Some []
  | String "{" rest => parse_members (String.length rest) rest
  | _ => None
  end.

(** A string as a JSON string holds it: every byte that is not part of a
    well-formed UTF-8 sequence replaced by U+FFFD. *)
Fixpoint coerce_loop (fuel : nat) (s : string) : string :=
  match fuel, s with
  | _, EmptyString => EmptyString
  | 0, _ => EmptyString
  | S fuel', String c rest =>
      match utf8.width s with
      | Some size => (take size s ++ coerce_loop fuel' (drop size s))%string
      | None => (REPLACEMENT ++ coerce_loop fuel' rest)%string
      end
  end.

Definition coerce (s : string) : string := coerce_loop (String.length s) s.

End json.

Module base64.

Definition encodeURL : string :=
  "ABCDEFGHIJKLMNOPQRSTUVWXYZabcdefghijklmnopqrstuvwxyz0123456789-_".

Definition StdPadding : ascii := "="%char.

Definition enc (i : N) : ascii :=
  match String.get (N.to_nat i) encodeURL with
  | Some c => c
  | None => StdPadding
  end.

Definition sextet (val : N) (shift : N) : ascii :=
  enc (N.land (N.shiftr val shift) 0x3F).

(** [URLEncoding.EncodeToString]: three bytes make four characters; a
    remainder of one or two bytes is padded. *)
Fixpoint EncodeToString (src : string) : string :=
  match src with
  | EmptyString => EmptyString
  | String a EmptyString =>
      let val := N.shiftl (N_of_ascii a) 16 in
      String (sextet val 18) (String (sextet val 12)
        (String StdPadding (String StdPadding EmptyString)))
  | String a (String b EmptyString) =>
      let val := N.lor (N.shiftl (N_of_ascii a) 16) (N.shiftl (N_of_ascii b) 8) in
      String (sextet val 18) (String (sextet val 12)
        (String (sextet val 6) (String StdPadding EmptyString)))
  | String a (String b (String c rest)) =>
      let val := N.lor (N.lor (N.shiftl (N_of_ascii a) 16) (N.shiftl (N_of_ascii b) 8))
                       (N_of_ascii c) in
      String (sextet val 18) (String (sextet val 12)
        (String (sextet val 6) (String (sextet val 0) (EncodeToString rest))))
  end.

Fixpoint index_of (c : ascii) (s : string) : option N :=
  match s with
  | EmptyString => None
  | String x rest =>
      if Ascii.eqb x c then Some 0%N else option_map N.succ (index_of c rest)
  end.

(** [decodeMap]: the value of a character of the alphabet. *)
Definition dec (c : ascii) : option N := index_of c encodeURL.

Definition octet (val : N) (shift : N) : ascii :=
  ascii_of_N (N.land (N.shiftr val shift) 0xFF).

(** [URLEncoding.DecodeString], on input without line breaks: four
    characters make three bytes, and padding is accepted in the last
    quantum only. *)
Fixpoint DecodeString (s : string) : option string :=
  match s with
  | EmptyString => Some EmptyString
  | String c0 (String c1 (String c2 (String c3 rest))) =>
      match dec c0, dec c1 with
      | Some d0, Some d1 =>
          let v01 := N.lor (N.shiftl d0 18) (N.shiftl d1 12) in
          if Ascii.eqb c2 StdPadding then
            if (Ascii.eqb c3 StdPadding && String.eqb rest EmptyString)%bool
            then Some (String (octet v01 16) EmptyString)
            else None
          else
            match dec c2 with
            | Some d2 =>
                let v012 := N.lor v01 (N.shiftl d2 6) in
                if Ascii.eqb c3 StdPadding then
                  if String.eqb rest EmptyString
                  then Some (String (octet v012 16) (String (octet v012 8) EmptyString))
                  else None
                else
                  match dec c3, DecodeString rest with
                  | Some d3, Some bytes =>
                      let val := N.lor v012 d3 in
                      Some (String (octet val 16) (String (octet val 8)
                              (String (octet val 0) bytes)))
                  | _, _ => None
                  end
            | None => None
            end
      | _, _ => None
      end
  | _ => None
  end.

End base64.

(** ** Package path/filepath on Unix

    [filepath.Join] depends on the operating system the tool is built for.
    The service below takes it from its surroundings; this module is the
    Unix implementation, used to run the service on concrete inputs. *)

Module filepath_unix.

Definition Separator : ascii := "/"%char.

Definition IsPathSeparator (c : ascii) : bool := Ascii.eqb c Separator.

(** The end of the path or a separator comes next. *)
Definition boundary (p : string) : bool :=
  match p with
  | EmptyString => true
  | String c _ => IsPathSeparator c
  end.

(** The bytes of the next path element and what follows them. *)
Fixpoint element (p : string) : list ascii * string :=
  match p with
  | EmptyString => ([], EmptyString)
  | String c p' =>
      if IsPathSeparator c then ([], p)
      else let (e, rest) := element p' in (c :: e, rest)
  end.

(** The inner loop of the [..] case, after [out.w--]: [x] is the byte at
    index [out.w], and [out] holds the buffer below it, last byte first. *)
Fixpoint backtrack (dotdot : nat) (x : ascii) (out : list ascii) : list ascii :=
  match out with
  | [] => []
  | y :: out' =>
      if Nat.ltb dotdot (List.length out) && negb (IsPathSeparator x)
      then backtrack dotdot y out'
      else out
  end.

(** The main loop of [Clean] over the unread part [p] of the path. The
    buffer [out] is kept last byte first. Each round reads at least one
    byte. *)
Fixpoint clean_loop (fuel : nat) (rooted : bool) (p : string)
  (out : list ascii) (dotdot : nat) : list ascii :=
  match fuel, p with
  | _, EmptyString => out
  | 0, _ => out
  | S fuel', String c p1 =>
      if IsPathSeparator c then
        clean_loop fuel' rooted p1 out dotdot
      else if Ascii.eqb c "." && boundary p1 then
        clean_loop fuel' rooted p1 out dotdot
      else if Ascii.eqb c "." && strings.HasPrefix p1 "." && boundary (drop 1 p1) then
        let p2 := drop 1 p1 in
        match out with
        | x :: out' =>
            if Nat.ltb dotdot (List.length out) then
              clean_loop fuel' rooted p2 (backtrack dotdot x out') dotdot
            else if negb rooted then
              let out2 := "."%char :: "."%char :: Separator :: out in
              clean_loop fuel' rooted p2 out2 (List.length out2)
            else clean_loop fuel' rooted p2 out dotdot
        | [] =>
            if negb rooted then
              clean_loop fuel' rooted p2 ["."%char; "."%char] 2
            else clean_loop fuel' rooted p2 out dotdot
        end
      else
        let out1 :=
          if (rooted && negb (Nat.eqb (List.length out) 1))
             || (negb rooted && negb (Nat.eqb (List.length out) 0))
          then Separator :: out else out in
        let (e, rest) := element p in
        clean_loop fuel' rooted rest (List.rev e ++ out1) dotdot
  end.

Definition Clean (path : string) : string :=
  match path with
  | EmptyString => "."
  | String c _ =>
      let rooted := IsPathSeparator c in
      let out :=
        if rooted then clean_loop (String.length path) rooted (drop 1 path) [Separator] 1
        else clean_loop (String.length path) rooted path [] 0 in
      match out with
      | [] => "."
      | _ => string_of_list_ascii (List.rev out)
      end
  end.

(** [Join]: the elements from the first non-empty one on, joined by the
    separator and cleaned; the empty string when all are empty. *)
Fixpoint Join (elem : list string) : string :=
  match elem with
  | [] => EmptyString
  | e :: rest =>
      if String.eqb e EmptyString then Join rest
      else Clean (strings.Join elem (String Separator EmptyString))
  end.

End filepath_unix.

(** ** The types of the Docker client library

    Of each type, the fields the service reads or writes. Field names are
    global in Rocq, so a few differ from Go: [Type_] is [Mount.Type],
    [MountBindOptions] is [Mount.BindOptions], [ListFilters] is
    [ContainerListOptions.Filters], [CreatedID] is
    [ContainerCreateCreatedBody.ID], [WaitError] is
    [ContainerWaitOKBody.Error] and [ImageID] is [ImageSummary.ID]. *)

(** [filters.Args], in the order of the calls of [Add]. *)
Definition Args : Type := list (string * string).

Record AuthConfig : Type := {
  Username : string;
  Password : string;
  Auth : string;
  Email : string;
  ServerAddress : string;
  IdentityToken : string;
  RegistryToken : string
}.

(** [json.Marshal] of an [AuthConfig]: the fields in the order of the
    struct, under their tags, all [omitempty]. *)
Definition Marshal (a : AuthConfig) : string :=
  json.marshalStruct
    [("username", Username a); ("password", Password a); ("auth", Auth a);
     ("email", Email a); ("serveraddress", ServerAddress a);
     ("identitytoken", IdentityToken a); ("registrytoken", RegistryToken a)].

Definition zeroAuthConfig : AuthConfig :=
  {| Username := ""; Password := ""; Auth := ""; Email := ""; ServerAddress := "";
     IdentityToken := ""; RegistryToken := "" |}.

(** The field that a key of the document sets: the one whose tag is the
    key, without regard to the case of ASCII letters; a key that matches no
    tag is ignored. *)
Definition setField (a : AuthConfig) (member : string * string) : AuthConfig :=
  let (key, value) := member in
  let tag := strings.ToLower key in
  if String.eqb tag "username" then
    {| Username := value; Password := Password a; Auth := Auth a; Email := Email a;
       ServerAddress := ServerAddress a; IdentityToken := IdentityToken a;
       RegistryToken := RegistryToken a |}
  else if String.eqb tag "password" then
    {| Username := Username a; Password := value; Auth := Auth a; Email := Email a;
       ServerAddress := ServerAddress a; IdentityToken := IdentityToken a;
       RegistryToken := RegistryToken a |}
  else if String.eqb tag "auth" then
    {| Username := Username a; Password := Password a; Auth := value; Email := Email a;
       ServerAddress := ServerAddress a; IdentityToken := IdentityToken a;
       RegistryToken := RegistryToken a |}
  else if String.eqb tag "email" then
    {| Username := Username a; Password := Password a; Auth := Auth a; Email := value;
       ServerAddress := ServerAddress a; IdentityToken := IdentityToken a;
       RegistryToken := RegistryToken a |}
  else if String.eqb tag "serveraddress" then
    {| Username := Username a; Password := Password a; Auth := Auth a; Email := Email a;
       ServerAddress := value; IdentityToken := IdentityToken a;
       RegistryToken := RegistryToken a |}
  else if String.eqb tag "identitytoken" then
    {| Username := Username a; Password := Password a; Auth := Auth a; Email := Email a;
       ServerAddress := ServerAddress a; IdentityToken := value;
       RegistryToken := RegistryToken a |}
  else if String.eqb tag "registrytoken" then
    {| Username := Username a; Password := Password a; Auth := Auth a; Email := Email a;
       ServerAddress := ServerAddress a; IdentityToken := IdentityToken a;
       RegistryToken := value |}
  else a.

(** [json.Unmarshal] into an [AuthConfig]: the content of the document. *)
Definition Unmarshal (doc : string) : option AuthConfig :=
  match json.parseObject doc with
  | Some members => Some (fold_left setField members zeroAuthConfig)
  | None => None
  end.

Record ImagePullOptions : Type := { RegistryAuth : string }.

Record ImageListOptions : Type := { Filters : Args }.

Record ImageSummary : Type := { ImageID : string }.

Record ContainerListOptions : Type := { All : bool; ListFilters : Args }.

Record Container : Type := { ID : string }.

Record ContainerRemoveOptions : Type := { Force : bool }.

Record ContainerLogsOptions : Type := { ShowStdout : bool }.

Record ContainerStartOptions : Type := { }.

Record ContainerConfig : Type := {
  Image : string;
  Tty : bool;
  Cmd : list string;
  Env : list string
}.

Record BindOptions : Type := { Propagation : string }.

Record Mount : Type := {
  Type_ : string;
  Source : string;
  Target : string;
  MountBindOptions : option BindOptions
}.

Definition TypeBind : string := "bind".

Definition PropagationPrivate : string := "private".

Record HostConfig : Type := { Mounts : list Mount }.

Record ContainerCreateCreatedBody : Type := { CreatedID : string }.

Record ContainerWaitOKBodyError : Type := { Message : string }.

Record ContainerWaitOKBody : Type := {
  WaitError : option ContainerWaitOKBodyError;
  StatusCode : Z
}.

(** ** What the service does to the outside *)

(** A call of a method of [Client]. The context, the first argument of all
    of them, is [context.Background()] throughout and left out, and so are
    the two [nil] arguments of [ContainerCreate]. *)
Inductive Call : Type :=
| CallContainerCreate (cfg : ContainerConfig) (hostCfg : HostConfig) (name : string)
| CallContainerStart (containerID : string) (options : ContainerStartOptions)
| CallContainerList (options : ContainerListOptions)
| CallContainerWait (containerID : string) (condition : string)
| CallContainerLogs (containerID : string) (options : ContainerLogsOptions)
| CallContainerRemove (containerID : string) (options : ContainerRemoveOptions)
| CallImageList (options : ImageListOptions)
| CallImagePull (ref : string) (options : ImagePullOptions).

(** The observable steps of the service, in the order they happen: the
    calls of the engine, the operations on the mutex of [API], the calls of
    the logger of horusec-devkit and the draws of [uuid.New]. *)
Inductive Event : Type :=
| Engine (c : Call)
| MutexLock
| MutexUnlock
| LogError (msg : string) (err : option error)
| LogErrorWithLevel (msg : string) (err : option error)
| LogDebugWithLevel (msg : string) (args : list (string * string))
| UUIDNew.

Definition Trace : Type := list Event.

(** The interface [Client], without [Ping], which the service never calls.
    An implementation answers a call knowing everything that happened
    before it. [ContainerWait] answers with what arrives on the status
    channel, [None] when nothing ever does; the service does not read the
    error channel. *)
Record Client : Type := {
  ContainerCreate :
    Trace -> ContainerConfig -> HostConfig -> string ->
    ContainerCreateCreatedBody * option error;
  ContainerStart : Trace -> string -> ContainerStartOptions -> option error;
  ContainerList : Trace -> ContainerListOptions -> list Container * option error;
  ContainerWait : Trace -> string -> string -> option ContainerWaitOKBody;
  ContainerLogs : Trace -> string -> ContainerLogsOptions -> io.Reader * option error;
  ContainerRemove : Trace -> string -> ContainerRemoveOptions -> option error;
  ImageList : Trace -> ImageListOptions -> list ImageSummary * option error;
  ImagePull : Trace -> string -> ImagePullOptions -> io.Reader * option error
}.

(** A [uuid.UUID], of which the service uses the method [String] only. *)
Record UUID : Type := { UUID_String : string }.

(** The constants of package [messages] that the service logs. *)
Record Messages : Type := {
  MsgErrorFailedToPullImage : string;
  MsgDebugDockerImageDoesNotExists : string;
  MsgDebugDockerAPIPullNewImage : string;
  MsgErrorDockerPullImage : string;
  MsgDebugDockerAPIDownloadWithSuccess : string;
  MsgErrorDockerListImages : string;
  MsgDebugDockerAPIFinishedError : string;
  MsgDebugDockerAPIFinishedSuccess : string;
  MsgDebugDockerAPIContainerWait : string;
  MsgDebugDockerAPIContainerRead : string;
  MsgErrorDockerRemoveContainer : string;
  MsgErrorDockerCreateContainer : string;
  MsgErrorDockerStartContainer : string;
  MsgDebugDockerAPIContainerCreated : string;
  MsgErrorDockerListAllContainers : string
}.

(** What the package takes from outside this file: [filepath.Join] of the
    operating system, the environment of the process, the generator of
    [uuid.New], and the constants [images.DefaultRegistry] and
    [messages.Msg...] of sibling packages. *)
Class World : Type := {
  filepath_Join : list string -> string;
  os_Getenv : string -> string;
  uuid_New : Trace -> UUID;
  images_DefaultRegistry : string;
  messages : Messages
}.

(** [config.Config], of which the service reads three fields. *)
Record Config : Type := {
  DisableDocker : bool;
  ContainerBindProjectPath : string;
  ProjectPath : string
}.

(** [docker.AnalysisData], declared in package internal/entities/docker:
    the value is represented by its field [CMD] and by what its methods
    [IsInvalid] and [GetCustomOrDefaultImage] return. *)
Record AnalysisData : Type := {
  CMD : string;
  IsInvalid : bool;
  GetCustomOrDefaultImage : string
}.

Record API : Type := {
  dockerClient : Client;
  config : Config;
  analysisID : UUID;
  pathDestinyInContainer : string
}.

(** ** Computations of the service *)

Inductive Outcome (A : Type) : Type :=
| Done (a : A)
| Panic
| Blocked.

Arguments Done {A} a.
Arguments Panic {A}.
Arguments Blocked {A}.

(** A computation starts from the trace so far and ends with an outcome
    and the trace extended by its own steps. *)
Definition M (A : Type) : Type := Trace -> Outcome A * Trace.

Definition ret {A : Type} (a : A) : M A := fun t => (Done a, t).

Definition bind {A B : Type} (m : M A) (k : A -> M B) : M B :=
  fun t =>
    match m t with
    | (Done a, t') => k a t'
    | (Panic, t') => (Panic, t')
    | (Blocked, t') => (Blocked, t')
    end.

Notation "x <- m ;; k" := (bind m (fun x => k))
  (at level 61, m at next level, right associativity).
Notation "m ;;; k" := (bind m (fun _ => k))
  (at level 61, right associativity).

Definition emit (e : Event) : M unit := fun t => (Done tt, t ++ [e]).

(** A call of the engine: the answer is computed from the trace before the
    call, then the call is recorded. *)
Definition call {A : Type} (c : Call) (answer : Trace -> A) : M A :=
  fun t => (Done (answer t), t ++ [Engine c]).

Definition panic {A : Type} : M A := fun t => (Panic, t).

Definition block {A : Type} : M A := fun t => (Blocked, t).

(** A pure computation that may panic. *)
Definition lift {A : Type} (o : option A) : M A :=
  match o with
  | Some a => ret a
  | None => panic
  end.

(** The calls of the engine in a trace. *)
Fixpoint engine_calls (t : Trace) : list Call :=
  match t with
  | [] => []
  | Engine c :: t' => c :: engine_calls t'
  | _ :: t' => engine_calls t'
  end.

Definition is_pull (c : Call) : bool :=
  match c with CallImagePull _ _ => true | _ => false end.

Definition is_remove (c : Call) : bool :=
  match c with CallContainerRemove _ _ => true | _ => false end.

Definition is_logs (c : Call) : bool :=
  match c with CallContainerLogs _ _ => true | _ => false end.

Module env.

(** [env.GetEnvOrDefault] of horusec-devkit: the value of the variable, or
    the default when the variable is unset or empty. *)
Definition GetEnvOrDefault {W : World} (key defaultValue : string) : string :=
  let value := os_Getenv key in
  if String.eqb value EmptyString then defaultValue else value.

End env.

(** ** The service: type [API] of package docker *)

(** ErrImageTagCmdRequired occurs when an docker image or docker command is
    empty to start analysis. *)
Definition ErrImageTagCmdRequired : error := errors.New "image or cmd is empty".

Definition New (client : Client) (cfg : Config) (analysisID : UUID) : API :=
  {| dockerClient := client;
     config := cfg;
     analysisID := analysisID;
     pathDestinyInContainer := "/src" |}.

Section Service.

Context {W : World}.

Definition removeRegistry (d : API) (imageWithTagAndRegistry : string) : string :=
  strings.ReplaceAll imageWithTagAndRegistry (images_DefaultRegistry ++ "/") "".

Definition getSourceFolderFromWindows (d : API) (path : string) : option string :=
  match slice path 0 1 with
  | None => None
  | Some first =>
      let partitionLower := strings.ToLower first in
      match strings.Split path ":" with
      | [] => None
      | _ :: others =>
          let pathSplit := partitionLower :: others in
          let path := strings.Join pathSplit ":" in
          let path := strings.ReplaceAll path ":" "" in
          let path := ("/" ++ path)%string in
          let path := strings.ReplaceAll path "\" "/" in
          let path := strings.ReplaceAll path "/" "//" in
          Some path
      end
  end.

Definition getSourceFolder (d : API) : option string :=
  let path :=
    if negb (String.eqb (ContainerBindProjectPath (config d)) "") then
      filepath_Join [ContainerBindProjectPath (config d); ".horusec";
                     UUID_String (analysisID d)]
    else
      filepath_Join [ProjectPath (config d); ".horusec"; UUID_String (analysisID d)] in
  match slice path 1 2 with
  | None => None
  | Some separator =>
      if String.eqb separator ":" then getSourceFolderFromWindows d path
      else Some path
  end.

Definition replaceCMDAnalysisID (d : API) (cmd : string) : string :=
  strings.ReplaceAll cmd "ANALYSISID" (UUID_String (analysisID d)).

Definition loggerAPIStatus (d : API) (message imageNameWithTag : string) : M unit :=
  emit (LogDebugWithLevel message
          [("image", imageNameWithTag);
           ("analysisId", UUID_String (analysisID d))]).

Definition loggerAPIStatusWithContainerID (d : API)
  (message imageNameWithTag containerID : string) : M unit :=
  emit (LogDebugWithLevel message
          [("image", imageNameWithTag);
           ("containerId", containerID);
           ("analysisId", UUID_String (analysisID d))]).

Definition setPullOptions (d : API) : ImagePullOptions :=
  let authConfig :=
    {| Username := env.GetEnvOrDefault "HORUSEC_CLI_REGISTRY_USERNAME" "";
       Password := env.GetEnvOrDefault "HORUSEC_CLI_REGISTRY_PASSWORD" "";
       Auth := "";
       Email := "";
       ServerAddress := env.GetEnvOrDefault "HORUSEC_CLI_REGISTRY_ADDRESS" "";
       IdentityToken := "";
       RegistryToken := "" |} in
  if negb (String.eqb (Username authConfig) "")
     && negb (String.eqb (Password authConfig) "") then
    let encodedAuthConfig := Marshal authConfig in
    {| RegistryAuth := base64.EncodeToString encodedAuthConfig |}
  else {| RegistryAuth := "" |}.

Definition readPullReader (d : API) (imageWithTagAndRegistry : string)
  (reader : io.Reader) : M (option error) :=
  let (readResult, err) := io.ReadAll reader in
  match err with
  | Some e =>
      emit (LogErrorWithLevel (MsgErrorDockerPullImage messages) (Some e)) ;;;
      emit (LogDebugWithLevel readResult []) ;;;
      ret (Some e)
  | None =>
      loggerAPIStatus d (MsgDebugDockerAPIDownloadWithSuccess messages)
        imageWithTagAndRegistry ;;;
      ret None
  end.

Definition downloadImage (d : API) (imageWithTagAndRegistry : string)
  : M (option error) :=
  loggerAPIStatus d (MsgDebugDockerAPIPullNewImage messages) imageWithTagAndRegistry ;;;
  let options := setPullOptions d in
  r <- call (CallImagePull imageWithTagAndRegistry options)
         (fun t => ImagePull (dockerClient d) t imageWithTagAndRegistry options) ;;
  let (reader, err) := r : io.Reader * option error in
  match err with
  | Some e =>
      emit (LogErrorWithLevel (MsgErrorDockerPullImage messages) (Some e)) ;;;
      ret (Some e)
  | None => readPullReader d imageWithTagAndRegistry reader
  end.

(** checkIfImageNotExists return true if image does not exists on cache,
    otherwise false. The deferred [Unlock] runs when the function returns. *)
Definition checkIfImageNotExists (d : API) (imageWithTagAndRegistry : string)
  : M (bool * option error) :=
  emit MutexLock ;;;
  let args := [("reference", removeRegistry d imageWithTagAndRegistry)] in
  let options := {| Filters := args |} in
  r <- call (CallImageList options)
         (fun t => ImageList (dockerClient d) t options) ;;
  let (result, err) := r : list ImageSummary * option error in
  match err with
  | Some e =>
      emit (LogErrorWithLevel (MsgErrorDockerListImages messages) (Some e)) ;;;
      emit MutexUnlock ;;;
      ret (false, Some e)
  | None =>
      emit MutexUnlock ;;;
      ret (Nat.eqb (List.length result) 0, None)
  end.

(** PullImage check if an image already exists on cache, if its not, pull
    from registry. *)
Definition PullImage (d : API) (imageWithTagAndRegistry : string)
  : M (option error) :=
  if DisableDocker (config d) then ret None
  else
    r <- checkIfImageNotExists d imageWithTagAndRegistry ;;
    let (imageNotExist, err) := r : bool * option error in
    match err with
    | Some e =>
        emit (LogError
                (fmt.Sprintf "%s -> %s"
                   [MsgErrorFailedToPullImage messages; imageWithTagAndRegistry])
                (Some e)) ;;;
        ret (Some e)
    | None =>
        if imageNotExist then
          emit (LogDebugWithLevel
                  (fmt.Sprintf (MsgDebugDockerImageDoesNotExists messages)
                     [imageWithTagAndRegistry]) []) ;;;
          err <- downloadImage d imageWithTagAndRegistry ;;
          emit (LogError
                  (fmt.Sprintf "%s -> %s"
                     [MsgErrorFailedToPullImage messages; imageWithTagAndRegistry])
                  err) ;;;
          ret err
        else ret None
    end.

Definition getContainerConfig (d : API) (imageNameWithTag cmd : string)
  : ContainerConfig :=
  {| Image := imageNameWithTag;
     Tty := true;
     Cmd := ["/bin/sh"; "-c";
             fmt.Sprintf "cd %s && %s" [pathDestinyInContainer d; cmd]];
     Env := [fmt.Sprintf "GITHUB_TOKEN=%s" [os_Getenv "GITHUB_TOKEN"]] |}.

Definition getContainerHostConfig (d : API) : option HostConfig :=
  match getSourceFolder d with
  | None => None
  | Some source =>
      Some {| Mounts :=
                [{| Type_ := TypeBind;
                    Source := source;
                    Target := pathDestinyInContainer d;
                    MountBindOptions :=
                      Some {| Propagation := PropagationPrivate |} |}] |}
  end.

Definition getContainerAndHostConfig (d : API) (imageNameWithTag cmd : string)
  : option (ContainerConfig * HostConfig) :=
  let cfg := getContainerConfig d imageNameWithTag cmd in
  match getContainerHostConfig d with
  | None => None
  | Some host => Some (cfg, host)
  end.

Definition getImageID (d : API) : M string :=
  fun t =>
    (Done (fmt.Sprintf "%s-%s"
             [UUID_String (analysisID d); UUID_String (uuid_New t)]),
     t ++ [UUIDNew]).

Definition createContainer (d : API) (imageNameWithTag cmd : string)
  : M (string * option error) :=
  ch <- lift (getContainerAndHostConfig d imageNameWithTag cmd) ;;
  let (cfg, host) := ch : ContainerConfig * HostConfig in
  name <- getImageID d ;;
  r <- call (CallContainerCreate cfg host name)
         (fun t => ContainerCreate (dockerClient d) t cfg host name) ;;
  let (response, err) := r : ContainerCreateCreatedBody * option error in
  match err with
  | Some e =>
      emit (LogErrorWithLevel (MsgErrorDockerCreateContainer messages) (Some e)) ;;;
      ret ("", Some e)
  | None =>
      err <- call (CallContainerStart (CreatedID response) Build_ContainerStartOptions)
               (fun t => ContainerStart (dockerClient d) t (CreatedID response) Build_ContainerStartOptions) ;;
      match err with
      | Some e =>
          emit (LogErrorWithLevel (MsgErrorDockerStartContainer messages) (Some e)) ;;;
          ret ("", Some e)
      | None =>
          loggerAPIStatusWithContainerID d (MsgDebugDockerAPIContainerCreated messages)
            imageNameWithTag (CreatedID response) ;;;
          ret (CreatedID response, None)
      end
  end.

Definition readOutputAsString (d : API) (output : io.Reader) : string * option error :=
  let (b, err) := io.ReadAll output in
  match err with
  | Some e => ("", Some e)
  | None => (b, None)
  end.

Definition readContainer (d : API) (containerID : string)
  : M (string * option error) :=
  chanContainerStatus <-
    call (CallContainerWait containerID "")
      (fun t => ContainerWait (dockerClient d) t containerID "") ;;
  match chanContainerStatus with
  | None => block
  | Some containerWaitStatus =>
      match WaitError containerWaitStatus with
      | Some waitError =>
          let message :=
            fmt.Sprintf "Error on wait container %s: %s | Exited with status %s"
              [containerID; Message waitError;
               strconv.Itoa (strconv.int (StatusCode containerWaitStatus))] in
          ret ("", Some (errors.New message))
      | None =>
          let options := {| ShowStdout := true |} in
          r <- call (CallContainerLogs containerID options)
                 (fun t => ContainerLogs (dockerClient d) t containerID options) ;;
          let (containerOutput, err) := r : io.Reader * option error in
          match err with
          | Some e => ret ("", Some e)
          | None => ret (readOutputAsString d containerOutput)
          end
      end
  end.

Definition removeContainer (d : API) (containerID : string) : M unit :=
  let options := {| Force := true |} in
  err <- call (CallContainerRemove containerID options)
           (fun t => ContainerRemove (dockerClient d) t containerID options) ;;
  emit (LogErrorWithLevel (MsgErrorDockerRemoveContainer messages) err).

Definition executeCRDContainer (d : API) (imageNameWithTag cmd : string)
  : M (string * option error) :=
  r <- createContainer d imageNameWithTag cmd ;;
  let (containerID, err) := r : string * option error in
  match err with
  | Some e => ret ("", Some e)
  | None =>
      loggerAPIStatusWithContainerID d (MsgDebugDockerAPIContainerWait messages)
        imageNameWithTag containerID ;;;
      r <- readContainer d containerID ;;
      let (containerOutput, err) := r : string * option error in
      match err with
      | Some e => ret ("", Some e)
      | None =>
          loggerAPIStatus d (MsgDebugDockerAPIContainerRead messages) imageNameWithTag ;;;
          removeContainer d containerID ;;;
          ret (containerOutput, None)
      end
  end.

Definition logStatusAndExecuteCRDContainer (d : API) (imageNameWithTag cmd : string)
  : M (string * option error) :=
  r <- executeCRDContainer d imageNameWithTag cmd ;;
  let (containerOutput, err) := r : string * option error in
  match err with
  | Some e =>
      loggerAPIStatus d (MsgDebugDockerAPIFinishedError messages) imageNameWithTag ;;;
      ret ("", Some e)
  | None =>
      loggerAPIStatus d (MsgDebugDockerAPIFinishedSuccess messages) imageNameWithTag ;;;
      ret (containerOutput, None)
  end.

Definition CreateLanguageAnalysisContainer (d : API) (data : AnalysisData)
  : M (string * option error) :=
  if IsInvalid data then ret ("", Some ErrImageTagCmdRequired)
  else
    logStatusAndExecuteCRDContainer d (GetCustomOrDefaultImage data)
      (replaceCMDAnalysisID d (CMD data)).

Definition listContainersByAnalysisID (d : API) : M (list Container * option error) :=
  let args := [("name", UUID_String (analysisID d))] in
  let options := {| All := true; ListFilters := args |} in
  call (CallContainerList options)
    (fun t => ContainerList (dockerClient d) t options).

(** The loop of [DeleteContainersFromAPI] over the containers listed. *)
Fixpoint removeEach (d : API) (containers : list Container) : M unit :=
  match containers with
  | [] => ret tt
  | c :: rest =>
      let options := {| Force := true |} in
      err <- call (CallContainerRemove (ID c) options)
               (fun t => ContainerRemove (dockerClient d) t (ID c) options) ;;
      emit (LogErrorWithLevel (MsgErrorDockerRemoveContainer messages) err) ;;;
      removeEach d rest
  end.

Definition DeleteContainersFromAPI (d : API) : M unit :=
  r <- listContainersByAnalysisID d ;;
  let (containers, err) := r : list Container * option error in
  match err with
  | Some e =>
      emit (LogErrorWithLevel (MsgErrorDockerListAllContainers messages) (Some e))
  | None => removeEach d containers
  end.

End Service.

(** ** Auxiliary definitions for the statements *)

(** [s] cut at every byte [c]: what [strings.Split] computes for a
    separator of one byte. *)
Fixpoint split_byte (c : ascii) (s : string) : list string :=
  match s with
  | EmptyString => [EmptyString]
  | String a s' =>
      if Ascii.eqb a c then EmptyString :: split_byte c s'
      else match split_byte c s' with
           | h :: t => String a h :: t
           | [] => [String a EmptyString]
           end
  end.

(** The per-run path: the configured base, the fixed segment [.horusec] and
    the run identifier, joined. The base is the alternate bind root when it
    is set and the project path otherwise. *)
Definition perRunPath {W : World} (d : API) : string :=
  let base :=
    if String.eqb (ContainerBindProjectPath (config d)) "" then ProjectPath (config d)
    else ContainerBindProjectPath (config d) in
  filepath_Join [base; ".horusec"; UUID_String (analysisID d)].

(** An ASCII capital letter and its lower-case letter. *)
Definition is_upper (c : ascii) : bool :=
  Nat.leb 65 (nat_of_ascii c) && Nat.leb (nat_of_ascii c) 90.

Definition is_lower (c : ascii) : bool :=
  Nat.leb 97 (nat_of_ascii c) && Nat.leb (nat_of_ascii c) 122.

Definition to_lower (c : ascii) : ascii :=
  if is_upper c then ascii_of_nat (nat_of_ascii c + 32) else c.

(** The steps that a computation adds to the trace [t]. *)
Definition steps {A : Type} (m : M A) (t : Trace) : Trace :=
  skipn (List.length t) (snd (m t)).

Definition result {A : Type} (m : M A) (t : Trace) : Outcome A := fst (m t).

(** The reading of "any default-registry prefix stripped" as the removal of
    a leading qualifier only: the reference without the default registry and
    the slash at its head, and the reference itself when it does not start
    so. *)
Definition stripLeadingRegistry {W : World} (ref : string) : string :=
  let qualifier := (images_DefaultRegistry ++ "/")%string in
  if strings.HasPrefix ref qualifier then drop (String.length qualifier) ref
  else ref.

(** The options of the image list for a reference filter. *)
Definition referenceFilter (ref : string) : ImageListOptions :=
  {| Filters := [("reference", ref)] |}.

Definition pull_calls (t : Trace) : list Call := filter is_pull (engine_calls t).

Definition remove_calls (t : Trace) : list Call := filter is_remove (engine_calls t).

Definition logs_calls (t : Trace) : list Call := filter is_logs (engine_calls t).

(** The options of the container list of a run. *)
Definition runFilter (d : API) : ContainerListOptions :=
  {| All := true; ListFilters := [("name", UUID_String (analysisID d))] |}.

(** The forced removal of a container. *)
Definition forcedRemoval (containerID : string) : Call :=
  CallContainerRemove containerID {| Force := true |}.

(** A computation only adds steps to the trace. *)
Definition monotone {A : Type} (m : M A) : Prop :=
  forall t, exists l, snd (m t) = t ++ l.

(** The trace at which an invocation waits for its container: the steps of
    [createContainer] followed by the log entry of [executeCRDContainer]. *)
Definition waitPoint {W : World} (d : API) (imageNameWithTag cmd : string)
  (t : Trace) (containerID : string) : Trace :=
  snd (createContainer d imageNameWithTag cmd t)
  ++ [LogDebugWithLevel (MsgDebugDockerAPIContainerWait messages)
        [("image", imageNameWithTag);
         ("containerId", containerID);
         ("analysisId", UUID_String (analysisID d))]].

(** The text of the error that [readContainer] makes of a wait error. *)
Definition waitErrorText (containerID message : string) (status : Z) : string :=
  ("Error on wait container " ++ containerID ++ ": " ++ message
   ++ " | Exited with status " ++ strconv.Itoa status)%string.

(** The service [d] over an engine that answers removals by [removed] and
    every other call as the engine of [d] does. *)
Definition with_removal (d : API)
  (removed : Trace -> string -> ContainerRemoveOptions -> option error) : API :=
  {| dockerClient :=
       {| ContainerCreate := ContainerCreate (dockerClient d);
          ContainerStart := ContainerStart (dockerClient d);
          ContainerList := ContainerList (dockerClient d);
          ContainerWait := ContainerWait (dockerClient d);
          ContainerLogs := ContainerLogs (dockerClient d);
          ContainerRemove := removed;
          ImageList := ImageList (dockerClient d);
          ImagePull := ImagePull (dockerClient d) |};
     config := config d;
     analysisID := analysisID d;
     pathDestinyInContainer := pathDestinyInContainer d |}.

(** A member of a marshalled struct, the fields that [omitempty] keeps,
    and a member as the decoder returns it. *)
Definition json_member (field : string * string) : string :=
  (json.encodeString (fst field) ++ ":" ++ json.encodeString (snd field))%string.

Definition present (field : string * string) : bool :=
  negb (String.eqb (snd field) EmptyString).

Definition decoded (field : string * string) : string * string :=
  (json.coerce (fst field), json.coerce (snd field)).

(** An [AuthConfig] as a JSON document holds it. *)
Definition coerceAuth (a : AuthConfig) : AuthConfig :=
  {| Username := json.coerce (Username a);
     Password := json.coerce (Password a);
     Auth := json.coerce (Auth a);
     Email := json.coerce (Email a);
     ServerAddress := json.coerce (ServerAddress a);
     IdentityToken := json.coerce (IdentityToken a);
     RegistryToken := json.coerce (RegistryToken a) |}.

(** The credentials that [setPullOptions] reads from the environment. *)
Definition credentials {W : World} : AuthConfig :=
  {| Username := env.GetEnvOrDefault "HORUSEC_CLI_REGISTRY_USERNAME" "";
     Password := env.GetEnvOrDefault "HORUSEC_CLI_REGISTRY_PASSWORD" "";
     Auth := "";
     Email := "";
     ServerAddress := env.GetEnvOrDefault "HORUSEC_CLI_REGISTRY_ADDRESS" "";
     IdentityToken := "";
     RegistryToken := "" |}.

(** A name that [filepath.Clean] keeps as an element of a path: not empty,
    without a separator, and neither [.] nor [..]. The string of a UUID is
    such a name. *)
Definition element_name (id : string) : bool :=
  negb (occurs "/" id) && negb (String.eqb id "") && negb (String.eqb id ".")
  && negb (String.eqb id "..").

(** ** A concrete world and concrete engines, to run the service *)

(** Texts standing for the constants of package [messages]. *)
Definition sample_messages : Messages :=
  {| MsgErrorFailedToPullImage := "failed to pull image";
     MsgDebugDockerImageDoesNotExists := "image %s not found in cache";
     MsgDebugDockerAPIPullNewImage := "pulling image";
     MsgErrorDockerPullImage := "error on pull image";
     MsgDebugDockerAPIDownloadWithSuccess := "image downloaded";
     MsgErrorDockerListImages := "error on list images";
     MsgDebugDockerAPIFinishedError := "container finished with error";
     MsgDebugDockerAPIFinishedSuccess := "container finished";
     MsgDebugDockerAPIContainerWait := "waiting for container";
     MsgDebugDockerAPIContainerRead := "container output read";
     MsgErrorDockerRemoveContainer := "error on remove container";
     MsgErrorDockerCreateContainer := "error on create container";
     MsgErrorDockerStartContainer := "error on start container";
     MsgDebugDockerAPIContainerCreated := "container created";
     MsgErrorDockerListAllContainers := "error on list containers" |}.

(** A Unix host with the environment [getenv], Docker Hub as the default
    registry, and a generator whose draws differ by the length of the
    trace. *)
Definition unix_world (getenv : string -> string) : World :=
  {| filepath_Join := filepath_unix.Join;
     os_Getenv := getenv;
     uuid_New := fun t =>
       {| UUID_String :=
            "7d9f2c1e-5a3b-4e8d-9c60-" ++ strconv.Itoa (Z.of_nat (List.length t)) |};
     images_DefaultRegistry := "docker.io";
     messages := sample_messages |}.

Definition no_env : string -> string := fun _ => EmptyString.

Definition credentials_env (user pass addr : string) : string -> string :=
  fun key =>
    if String.eqb key "HORUSEC_CLI_REGISTRY_USERNAME" then user
    else if String.eqb key "HORUSEC_CLI_REGISTRY_PASSWORD" then pass
    else if String.eqb key "HORUSEC_CLI_REGISTRY_ADDRESS" then addr
    else EmptyString.

(** An engine whose answers do not depend on the history. *)
Definition scripted_client
  (created : ContainerCreateCreatedBody * option error)
  (started : option error)
  (listed : list Container * option error)
  (waited : option ContainerWaitOKBody)
  (logs : io.Reader * option error)
  (removed : option error)
  (images : list ImageSummary * option error)
  (pulled : io.Reader * option error) : Client :=
  {| ContainerCreate := fun _ _ _ _ => created;
     ContainerStart := fun _ _ _ => started;
     ContainerList := fun _ _ => listed;
     ContainerWait := fun _ _ _ => waited;
     ContainerLogs := fun _ _ _ => logs;
     ContainerRemove := fun _ _ _ => removed;
     ImageList := fun _ _ => images;
     ImagePull := fun _ _ _ => pulled |}.

Definition reader_of (s : string) : io.Reader :=
  {| io.data := s; io.failure := None |}.

(** An engine on which everything succeeds: the container [c1] runs, exits
    with status 0 and has printed [{}]; the image is not in the cache. *)
Definition healthy_client : Client :=
  scripted_client
    ({| CreatedID := "c1" |}, None) None
    ([{| ID := "c1" |}; {| ID := "c2" |}], None)
    (Some {| WaitError := None; StatusCode := 0 |})
    (reader_of "{}", None) None
    ([], None) (reader_of "pulled", None).

(** The same engine, except that waiting for the container reports the
    error [boom] with exit status 137. *)
Definition wait_error_client : Client :=
  scripted_client
    ({| CreatedID := "c1" |}, None) None
    ([], None)
    (Some {| WaitError := Some {| Message := "boom" |}; StatusCode := 137 |})
    (reader_of "{}", None) None
    ([], None) (reader_of "pulled", None).

(** The same engine, except that the wait is clean and reading the log
    stream fails half way. *)
Definition log_error_client : Client :=
  scripted_client
    ({| CreatedID := "c1" |}, None) None
    ([], None)
    (Some {| WaitError := None; StatusCode := 0 |})
    ({| io.data := "{"; io.failure := Some (errors.New "unexpected EOF") |}, None) None
    ([], None) (reader_of "pulled", None).

(** An engine that fails to list images and containers. *)
Definition list_error_client : Client :=
  scripted_client
    ({| CreatedID := "c1" |}, None) None
    ([{| ID := "c1" |}], Some (errors.New "daemon down"))
    (Some {| WaitError := None; StatusCode := 0 |})
    (reader_of "{}", None) None
    ([], Some (errors.New "daemon down")) (reader_of "pulled", None).

(** An engine that has the image in its cache. *)
Definition cached_client : Client :=
  scripted_client
    ({| CreatedID := "c1" |}, None) None
    ([], None)
    (Some {| WaitError := None; StatusCode := 0 |})
    (reader_of "{}", None) None
    ([{| ImageID := "sha256:1" |}], None) (reader_of "pulled", None).

(** A user name of one byte, 0xFF, which is not UTF-8. *)
Definition latin1_name : string := String (ascii_of_nat 255) EmptyString.

Definition sample_id : UUID :=
  {| UUID_String := "3f2b8c1a-9d4e-4f6a-8b7c-0123456789ab" |}.

Definition sample_config (disable : bool) (projectPath : string) : Config :=
  {| DisableDocker := disable;
     ContainerBindProjectPath := "";
     ProjectPath := projectPath |}.

(** The service of a Unix project, over a given engine. *)
Definition sample_api (client : Client) : API :=
  New client (sample_config false "/home/dev/project") sample_id.

(** The same service with container execution disabled. *)
Definition disabled_api (client : Client) : API :=
  New client (sample_config true "/home/dev/project") sample_id.

Definition sample_data : AnalysisData :=
  {| CMD := "bandit -r . -f json > /tmp/ANALYSISID.json";
     IsInvalid := false;
     GetCustomOrDefaultImage := "horuszup/horusec-bandit:v1.0.1" |}.

(** ** Further definitions for the statements and the runs *)

(** Whether no byte of [new] occurs in [old]. *)
Fixpoint no_byte_of (new old : string) : bool :=
  match new with
  | EmptyString => true
  | String c rest => negb (occurs c old) && no_byte_of rest old
  end.


(** The calls of the engine made while the mutex of the service is held,
    in a trace that starts with the mutex held or not. *)
Fixpoint critical (held : bool) (t : Trace) : list Call :=
  match t with
  | [] => []
  | MutexLock :: t' => critical true t'
  | MutexUnlock :: t' => critical false t'
  | Engine c :: t' => if held then c :: critical held t' else critical held t'
  | _ :: t' => critical held t'
  end.

(** Whether the mutex is held at the end of the trace. *)
Fixpoint held_after (held : bool) (t : Trace) : bool :=
  match t with
  | [] => held
  | MutexLock :: t' => held_after true t'
  | MutexUnlock :: t' => held_after false t'
  | _ :: t' => held_after held t'
  end.

(** The trace at which [PullImage] asks for the pull of an image that the
    check has not found: the steps of the check and the two log entries
    that follow. *)
Definition pullPoint {W : World} (d : API) (image : string) (t : Trace) : Trace :=
  t ++ [MutexLock;
        Engine (CallImageList (referenceFilter (removeRegistry d image)));
        MutexUnlock;
        LogDebugWithLevel
          (fmt.Sprintf (MsgDebugDockerImageDoesNotExists messages) [image]) [];
        LogDebugWithLevel (MsgDebugDockerAPIPullNewImage messages)
          [("image", image); ("analysisId", UUID_String (analysisID d))]].

(** An engine without the image, whose pull is accepted and then breaks
    while the stream is read. *)
Definition pull_stream_error_client : Client :=
  scripted_client
    ({| CreatedID := "c1" |}, None) None
    ([], None)
    (Some {| WaitError := None; StatusCode := 0 |})
    (reader_of "{}", None) None
    ([], None)
    ({| io.data := "Pulling from"; io.failure := Some (errors.New "connection reset") |},
     None).


(** The calls of the life cycle of a container, in the order of the
    service: creation under a name, start, wait, logs of the standard
    output, forced removal. *)
Definition lifecycle (cfg : ContainerConfig) (hostCfg : HostConfig)
  (name containerID : string) : list Call :=
  [CallContainerCreate cfg hostCfg name;
   CallContainerStart containerID Build_ContainerStartOptions;
   CallContainerWait containerID "";
   CallContainerLogs containerID {| ShowStdout := true |};
   forcedRemoval containerID].

(** The trace at which [createContainer] asks for the start: after the
    draw of the name and the creation. *)
Definition startPoint (t : Trace) (cfg : ContainerConfig) (hostCfg : HostConfig)
  (name : string) : Trace :=
  t ++ [UUIDNew; Engine (CallContainerCreate cfg hostCfg name)].

(** An engine that refuses to create a container. *)
Definition create_error_client : Client :=
  scripted_client
    ({| CreatedID := "" |}, Some (errors.New "No such image")) None
    ([], None)
    (Some {| WaitError := None; StatusCode := 0 |})
    (reader_of "{}", None) None
    ([], None) (reader_of "pulled", None).

(** An engine that creates the container [c1] and fails to start it. *)
Definition start_error_client : Client :=
  scripted_client
    ({| CreatedID := "c1" |}, None) (Some (errors.New "mount denied"))
    ([], None)
    (Some {| WaitError := None; StatusCode := 0 |})
    (reader_of "{}", None) None
    ([], None) (reader_of "pulled", None).

(** An engine whose container exits with status 2 after it has printed a
    report, the wait reporting no error. *)
Definition nonzero_exit_client : Client :=
  scripted_client
    ({| CreatedID := "c1" |}, None) None
    ([], None)
    (Some {| WaitError := None; StatusCode := 2 |})
    (reader_of "{ results: 3 }", None) None
    ([], None) (reader_of "pulled", None).

(** The value of the filter [reference] among the arguments of a list. *)
Fixpoint reference_of (args : Args) : option string :=
  match args with
  | [] => None
  | (key, value) :: rest =>
      if String.eqb key "reference" then Some value else reference_of rest
  end.

(** An engine that holds the images of the references [cached] and no
    other: asked for the images of a reference, it lists those it holds
    under that reference. Every other call is answered as by
    [healthy_client]. *)
Definition cache_client (cached : list string) : Client :=
  {| ContainerCreate := ContainerCreate healthy_client;
     ContainerStart := ContainerStart healthy_client;
     ContainerList := ContainerList healthy_client;
     ContainerWait := ContainerWait healthy_client;
     ContainerLogs := ContainerLogs healthy_client;
     ContainerRemove := ContainerRemove healthy_client;
     ImageList := fun _ options =>
       (map (fun ref => {| ImageID := ref |})
          (match reference_of (Filters options) with
           | Some wanted => filter (String.eqb wanted) cached
           | None => cached
           end),
        None);
     ImagePull := ImagePull healthy_client |}.

(** A reference to an image of the registry [mydocker.io], which is not
    the default registry. *)
Definition other_registry_image : string := "mydocker.io/scanner:1.0".

(** * Properties *)

(** ** The library models on examples *)

Example ReplaceAll_slashes :
  strings.ReplaceAll "a/b\c/" "/" "//" = "a//b\c//".
Proof. reflexivity. Qed.

Example ReplaceAll_token :
  strings.ReplaceAll "echo ANALYSISID ANALYSISID" "ANALYSISID" "7" = "echo 7 7".
Proof. reflexivity. Qed.

Example Split_drive : strings.Split "C:\a:b" ":" = ["C"; "\a"; "b"].
Proof. reflexivity. Qed.

Example Split_leading : strings.Split "::x" ":" = [""; ""; "x"].
Proof. reflexivity. Qed.

Example ToLower_drive : strings.ToLower "C" = "c".
Proof. reflexivity. Qed.

Example Sprintf_wait :
  fmt.Sprintf "Error on wait container %s: %s | Exited with status %s"
    ["c1"; "boom"; strconv.Itoa 137]
  = "Error on wait container c1: boom | Exited with status 137".
Proof. reflexivity. Qed.

Example Join_unix :
  filepath_unix.Join ["/home/u/../p/"; ".horusec"; "id"] = "/home/p/.horusec/id".
Proof. reflexivity. Qed.

Example Clean_unix :
  filepath_unix.Clean "a/../../b/./c//" = "../b/c".
Proof. reflexivity. Qed.

(** ** Byte sequences *)

Lemma append_nil_r (s : string) : (s ++ "")%string = s.
Proof. induction s; simpl; congruence. Qed.

Lemma append_assoc (a b c : string) : ((a ++ b) ++ c)%string = (a ++ b ++ c)%string.
Proof. induction a; simpl; congruence. Qed.

Lemma occurs_app (c : ascii) (a b : string) :
  occurs c (a ++ b) = occurs c a || occurs c b.
Proof.
  induction a as [|x a IH]; simpl; [reflexivity|].
  rewrite IH. apply orb_assoc.
Qed.

Lemma subst_byte_app (c : ascii) (new a b : string) :
  subst_byte c new (a ++ b) = (subst_byte c new a ++ subst_byte c new b)%string.
Proof.
  induction a as [|x a IH]; simpl; [reflexivity|].
  destruct (Ascii.eqb x c); rewrite IH; [now rewrite append_assoc | reflexivity].
Qed.

(** Substituting for [c] a string without [c] leaves no [c]. *)
Lemma occurs_subst_same (c : ascii) (new s : string) :
  occurs c new = false -> occurs c (subst_byte c new s) = false.
Proof.
  intros Hnew. induction s as [|x s IH]; simpl; [reflexivity|].
  destruct (Ascii.eqb x c) eqn:E.
  - rewrite occurs_app, Hnew, IH. reflexivity.
  - simpl. rewrite E, IH. reflexivity.
Qed.

(** Substituting for another byte introduces no [c] that was not there. *)
Lemma occurs_subst_other (c a : ascii) (new s : string) :
  occurs c new = false -> occurs c s = false ->
  occurs c (subst_byte a new s) = false.
Proof.
  intros Hnew. induction s as [|x s IH]; simpl; [reflexivity|].
  intros H. apply orb_false_iff in H as [Hx Hs].
  destruct (Ascii.eqb x a).
  - rewrite occurs_app, Hnew. now apply IH.
  - simpl. rewrite Hx. now apply IH.
Qed.

Lemma subst_byte_absent (c : ascii) (new s : string) :
  occurs c s = false -> subst_byte c new s = s.
Proof.
  induction s as [|x s IH]; simpl; [reflexivity|].
  intros H. apply orb_false_iff in H as [Hx Hs].
  rewrite Hx, IH; auto.
Qed.

(** ** [strings.Index], [strings.ReplaceAll] and [strings.Split] on a
    separator of one byte *)

Lemma HasPrefix_nil (s : string) : strings.HasPrefix s "" = true.
Proof. destruct s; reflexivity. Qed.

Lemma Index_byte_cons (a c : ascii) (s : string) :
  strings.Index (String a s) (String c "")
  = if Ascii.eqb a c then Some 0
    else option_map S (strings.Index s (String c "")).
Proof.
  cbn [strings.Index strings.HasPrefix]. rewrite HasPrefix_nil, andb_true_r.
  rewrite Ascii.eqb_sym. reflexivity.
Qed.

Lemma Index_byte_nil (c : ascii) : strings.Index "" (String c "") = None.
Proof. reflexivity. Qed.

Lemma replace_loop_byte (c : ascii) (new s : string) :
  forall fuel, String.length s <= fuel ->
  strings.replace_loop fuel s (String c "") new = subst_byte c new s.
Proof.
  induction s as [|a s IH]; intros fuel Hfuel.
  - destruct fuel; reflexivity.
  - destruct fuel as [|fuel]; [simpl in Hfuel; lia|].
    simpl in Hfuel.
    cbn [strings.replace_loop]. rewrite Index_byte_cons.
    cbn [subst_byte].
    destruct (Ascii.eqb a c) eqn:E.
    + cbn [take drop Nat.add String.length append]. rewrite IH by lia. reflexivity.
    + pose proof (IH (S fuel) ltac:(lia)) as IH1.
      cbn [strings.replace_loop] in IH1.
      destruct (strings.Index s (String c "")) as [j|]; cbn [option_map].
      * cbn [take drop Nat.add String.length append] in *.
        rewrite <- IH1. reflexivity.
      * rewrite <- IH1. reflexivity.
Qed.

Lemma ReplaceAll_byte (c : ascii) (new s : string) :
  strings.ReplaceAll s (String c "") new = subst_byte c new s.
Proof.
  unfold strings.ReplaceAll.
  destruct (String.eqb (String c "") new) eqn:E.
  - apply String.eqb_eq in E. subst new.
    induction s as [|a s IH]; simpl; [reflexivity|].
    destruct (Ascii.eqb a c) eqn:Ea.
    + apply Ascii.eqb_eq in Ea. subst a. now rewrite <- IH.
    + now rewrite <- IH.
  - apply replace_loop_byte. lia.
Qed.

Lemma split_byte_not_nil (c : ascii) (s : string) : split_byte c s <> [].
Proof.
  induction s as [|a s IH]; simpl; [discriminate|].
  destruct (Ascii.eqb a c); [discriminate|].
  destruct (split_byte c s); discriminate.
Qed.

Lemma split_loop_byte (c : ascii) (s : string) :
  forall fuel, String.length s <= fuel ->
  strings.split_loop fuel s (String c "") = split_byte c s.
Proof.
  induction s as [|a s IH]; intros fuel Hfuel.
  - destruct fuel; reflexivity.
  - destruct fuel as [|fuel]; [simpl in Hfuel; lia|].
    simpl in Hfuel.
    cbn [strings.split_loop]. rewrite Index_byte_cons.
    cbn [split_byte].
    destruct (Ascii.eqb a c) eqn:E.
    + cbn [take drop Nat.add String.length]. rewrite IH by lia. reflexivity.
    + pose proof (IH (S fuel) ltac:(lia)) as IH1.
      cbn [strings.split_loop] in IH1.
      destruct (strings.Index s (String c "")) as [j|]; cbn [option_map].
      * cbn [take drop Nat.add String.length] in *.
        rewrite <- IH1. reflexivity.
      * rewrite <- IH1. reflexivity.
Qed.

Lemma Split_byte (c : ascii) (s : string) :
  strings.Split s (String c "") = split_byte c s.
Proof. unfold strings.Split. apply split_loop_byte. lia. Qed.

Lemma Join_cons (e : string) (l : list string) (sep : string) :
  l <> [] -> strings.Join (e :: l) sep = (e ++ sep ++ strings.Join l sep)%string.
Proof. destruct l; [congruence | reflexivity]. Qed.

(** Joining the pieces of a split gives the string back. *)
Lemma Join_split_byte (c : ascii) (s : string) :
  strings.Join (split_byte c s) (String c "") = s.
Proof.
  induction s as [|a s IH]; [reflexivity|].
  cbn [split_byte]. pose proof (split_byte_not_nil c s) as Hne.
  destruct (Ascii.eqb a c) eqn:E.
  - apply Ascii.eqb_eq in E. subst a.
    rewrite Join_cons by assumption. rewrite IH. reflexivity.
  - destruct (split_byte c s) as [|h t]; [congruence|].
    destruct t as [|h' t].
    + simpl in *. congruence.
    + rewrite Join_cons by discriminate.
      rewrite Join_cons in IH by discriminate.
      simpl. f_equal. exact IH.
Qed.

(** ** The translation of the mount source *)

Section PathTranslator.

Context {W : World}.

(** The path that [getSourceFolder] inspects is the per-run path. *)
Lemma getSourceFolder_perRunPath (d : API) :
  getSourceFolder d =
  match slice (perRunPath d) 1 2 with
  | None => None
  | Some separator =>
      if String.eqb separator ":" then getSourceFolderFromWindows d (perRunPath d)
      else Some (perRunPath d)
  end.
Proof.
  unfold getSourceFolder, perRunPath.
  destruct (String.eqb (ContainerBindProjectPath (config d)) ""); reflexivity.
Qed.

Lemma slice_second (p : string) (c1 : ascii) :
  String.get 1 p = Some c1 -> slice p 1 2 = Some (String c1 "").
Proof.
  destruct p as [|c0 [|c p]]; simpl; try discriminate.
  intros [= ->]. reflexivity.
Qed.

Lemma slice_second_none (p : string) :
  String.get 1 p = None -> slice p 1 2 = None.
Proof. destruct p as [|c0 [|c p]]; simpl; [reflexivity | reflexivity | discriminate]. Qed.

Lemma get_second (p : string) (c1 : ascii) :
  String.get 1 p = Some c1 ->
  exists c0 rest, p = String c0 (String c1 rest).
Proof.
  destruct p as [|c0 [|c p]]; simpl; try discriminate.
  intros [= ->]. eauto.
Qed.

(** The rewrite of a drive-letter path, step by step: the first byte in
    lower case, the colons dropped, a slash in front, the backslashes turned
    into slashes, and every slash doubled. *)
Lemma getSourceFolderFromWindows_drive (d : API) (c0 : ascii) (rest : string) :
  getSourceFolderFromWindows d (String c0 (String ":" rest))
  = Some (subst_byte "/" "//"
            (String "/"
               (subst_byte "\" "/"
                  (subst_byte ":" "" (strings.lower_byte c0 ++ rest))))).
Proof.
  unfold getSourceFolderFromWindows.
  cbn [slice Nat.leb String.length andb Nat.sub take drop strings.ToLower].
  rewrite append_nil_r.
  rewrite Split_byte. cbn [split_byte]. rewrite Ascii.eqb_refl.
  pose proof (split_byte_not_nil ":" rest) as Hne.
  pose proof (Join_split_byte ":" rest) as HJ.
  destruct (Ascii.eqb c0 ":") eqn:E.
  - apply Ascii.eqb_eq in E. subst c0.
    rewrite !ReplaceAll_byte.
    rewrite !Join_cons by (assumption || discriminate). rewrite HJ.
    reflexivity.
  - destruct (split_byte ":" rest) as [|h t]; [congruence|].
    rewrite !ReplaceAll_byte.
    rewrite Join_cons by discriminate. rewrite HJ.
    rewrite !subst_byte_app. cbn -[strings.lower_byte].
    rewrite !subst_byte_app. reflexivity.
Qed.

(** An ASCII letter is lowered to a letter, which is none of the bytes the
    rewrite touches. *)
Lemma lower_byte_letter (c0 : ascii) :
  is_upper c0 || is_lower c0 = true ->
  strings.lower_byte c0 = String (to_lower c0) "" /\
  is_lower (to_lower c0) = true /\
  Ascii.eqb (to_lower c0) ":" = false /\
  Ascii.eqb (to_lower c0) "\" = false /\
  Ascii.eqb (to_lower c0) "/" = false.
Proof.
  destruct c0 as [[] [] [] [] [] [] [] []]; vm_compute; intros H;
    try discriminate H; repeat split.
Qed.

(** A per-run path shorter than two bytes makes the slice [path[1:2]]
    panic. *)
Lemma getSourceFolder_short (d : API) :
  String.get 1 (perRunPath d) = None -> getSourceFolder d = None.
Proof.
  intros H. rewrite getSourceFolder_perRunPath, (slice_second_none _ H). reflexivity.
Qed.

(** C2. When the second byte of the per-run path (the base joined with
    [.horusec] and the run identifier) is the drive separator [:], the mount
    source is the path with its first byte in lower case, every colon
    dropped, a slash in front, every backslash turned into a slash and then
    every slash written twice: it holds no colon and no backslash, starts
    with a slash, and starts with the lower-case drive letter after the
    doubled slash when the first byte is a letter. When the second byte is
    another one, the path is returned as it is. *)
Theorem mount_source_drive_letter (d : API) (c1 : ascii) :
  String.get 1 (perRunPath d) = Some c1 ->
  if Ascii.eqb c1 ":" then
    exists c0 rest r,
      perRunPath d = String c0 (String ":" rest) /\
      getSourceFolder d = Some r /\
      r = subst_byte "/" "//"
            (String "/"
               (subst_byte "\" "/"
                  (subst_byte ":" "" (strings.lower_byte c0 ++ rest)))) /\
      occurs ":" r = false /\
      occurs "\" r = false /\
      strings.HasPrefix r "/" = true /\
      (is_upper c0 || is_lower c0 = true ->
       r = String "/" (String "/" (String (to_lower c0)
             (subst_byte "/" "//"
                (subst_byte "\" "/" (subst_byte ":" "" rest))))))
  else getSourceFolder d = Some (perRunPath d).
Proof.
  intros Hget. rewrite getSourceFolder_perRunPath, (slice_second _ _ Hget).
  destruct (Ascii.eqb c1 ":") eqn:E.
  - apply Ascii.eqb_eq in E. subst c1.
    destruct (get_second _ _ Hget) as (c0 & rest & Hp).
    exists c0, rest. eexists. split; [exact Hp|].
    rewrite Hp. cbn [String.eqb Ascii.eqb Bool.eqb andb].
    rewrite getSourceFolderFromWindows_drive.
    split; [reflexivity|]. split; [reflexivity|].
    split; [|split; [|split]].
    + apply occurs_subst_other; [reflexivity|]. cbn [occurs].
      rewrite occurs_subst_other; [reflexivity | reflexivity |].
      now apply occurs_subst_same.
    + apply occurs_subst_other; [reflexivity|]. cbn [occurs].
      now rewrite occurs_subst_same.
    + reflexivity.
    + intros Hletter.
      destruct (lower_byte_letter c0 Hletter) as (Hl & _ & Hc & Hb & Hs).
      rewrite Hl. cbn [append subst_byte].
      rewrite Hc. cbn [subst_byte]. rewrite Hb.
      cbn [subst_byte Ascii.eqb Bool.eqb append]. rewrite Hs. reflexivity.
  - assert (String.eqb (String c1 "") ":" = false) as ->; [|reflexivity].
    cbn [String.eqb]. rewrite E. reflexivity.
Qed.

(** C10. When the per-run path has a second byte and it is not [:], the
    mount source is the per-run path itself: the base, the segment
    [.horusec] and the run identifier joined, byte for byte. *)
Theorem mount_source_verbatim (d : API) (c1 : ascii) :
  String.get 1 (perRunPath d) = Some c1 ->
  c1 <> ":"%char ->
  getSourceFolder d = Some (perRunPath d).
Proof.
  intros Hget Hne.
  rewrite getSourceFolder_perRunPath, (slice_second _ _ Hget).
  cbn [String.eqb].
  destruct (Ascii.eqb c1 ":") eqn:E; [|reflexivity].
  apply Ascii.eqb_eq in E. contradiction.
Qed.

End PathTranslator.


(** The service on a project kept under a drive letter, and on a Unix
    project. *)
Example getSourceFolder_drive :
  @getSourceFolder (unix_world no_env)
    (New healthy_client (sample_config false "C:\Users\dev\project") sample_id)
  = Some "//c//Users//dev//project//.horusec//3f2b8c1a-9d4e-4f6a-8b7c-0123456789ab".
Proof. vm_compute. reflexivity. Qed.

Example getSourceFolder_unix :
  @getSourceFolder (unix_world no_env)
    (New healthy_client (sample_config false "/home/dev/project") sample_id)
  = Some "/home/dev/project/.horusec/3f2b8c1a-9d4e-4f6a-8b7c-0123456789ab".
Proof. vm_compute. reflexivity. Qed.

Lemma mount_source_drive_letter_witness :
  String.get 1
    (@perRunPath (unix_world no_env)
       (New healthy_client (sample_config false "C:\Users\dev\project") sample_id))
  = Some ":"%char /\
  @getSourceFolder (unix_world no_env)
    (New healthy_client (sample_config false "C:\Users\dev\project") sample_id)
  = Some "//c//Users//dev//project//.horusec//3f2b8c1a-9d4e-4f6a-8b7c-0123456789ab".
Proof.
  split; [reflexivity|].
  destruct (@mount_source_drive_letter (unix_world no_env)
              (New healthy_client (sample_config false "C:\Users\dev\project") sample_id)
              ":"%char eq_refl)
    as (c0 & rest & r & Hp & Hr & Heq & _).
  vm_compute in Hp. injection Hp as <- <-.
  rewrite Hr, Heq. vm_compute. reflexivity.
Defined.

Lemma mount_source_verbatim_witness :
  String.get 1
    (@perRunPath (unix_world no_env)
       (New healthy_client (sample_config false "/home/dev/project") sample_id))
  = Some "h"%char /\
  "h"%char <> ":"%char /\
  @getSourceFolder (unix_world no_env)
    (New healthy_client (sample_config false "/home/dev/project") sample_id)
  = Some (@perRunPath (unix_world no_env)
            (New healthy_client (sample_config false "/home/dev/project") sample_id)).
Proof.
  split; [reflexivity|]. split; [discriminate|].
  apply (@mount_source_verbatim (unix_world no_env) _ "h"%char);
    [reflexivity | discriminate].
Defined.

(** ** Computations only add steps to the trace *)

Lemma skipn_length_app {A : Type} (t l : list A) :
  skipn (List.length t) (t ++ l) = l.
Proof. induction t; simpl; auto. Qed.

Lemma steps_spec {A : Type} (m : M A) (t : Trace) :
  monotone m -> snd (m t) = t ++ steps m t.
Proof.
  intros H. destruct (H t) as [l Hl]. unfold steps.
  rewrite Hl, skipn_length_app. reflexivity.
Qed.

Lemma steps_intro {A : Type} (m : M A) (t l : Trace) :
  snd (m t) = t ++ l -> steps m t = l.
Proof. intros H. unfold steps. rewrite H. apply skipn_length_app. Qed.

Lemma monotone_ret {A : Type} (a : A) : monotone (ret a).
Proof. intros t. exists []. simpl. now rewrite app_nil_r. Qed.

Lemma monotone_emit (e : Event) : monotone (emit e).
Proof. intros t. exists [e]. reflexivity. Qed.

Lemma monotone_call {A : Type} (c : Call) (answer : Trace -> A) :
  monotone (call c answer).
Proof. intros t. exists [Engine c]. reflexivity. Qed.

Lemma monotone_panic {A : Type} : monotone (@panic A).
Proof. intros t. exists []. simpl. now rewrite app_nil_r. Qed.

Lemma monotone_block {A : Type} : monotone (@block A).
Proof. intros t. exists []. simpl. now rewrite app_nil_r. Qed.

Lemma monotone_lift {A : Type} (o : option A) : monotone (lift o).
Proof. destruct o; [apply monotone_ret | apply monotone_panic]. Qed.

Lemma monotone_bind {A B : Type} (m : M A) (k : A -> M B) :
  monotone m -> (forall a, monotone (k a)) -> monotone (bind m k).
Proof.
  intros Hm Hk t. unfold bind.
  destruct (Hm t) as [l Hl].
  destruct (m t) as [[a| |] t']; simpl in Hl; subst t'.
  - destruct (Hk a (t ++ l)) as [l' Hl']. exists (l ++ l').
    rewrite Hl'. now rewrite app_assoc.
  - now exists l.
  - now exists l.
Qed.

Lemma engine_calls_app (a b : Trace) :
  engine_calls (a ++ b) = engine_calls a ++ engine_calls b.
Proof.
  induction a as [|e a IH]; simpl; [reflexivity|].
  destruct e; simpl; rewrite IH; reflexivity.
Qed.

Create HintDb mono.

#[global] Hint Resolve monotone_ret monotone_emit monotone_call monotone_panic
  monotone_block monotone_lift : mono.

(** Decomposes a monotonicity goal along the shape of the computation. *)
Ltac mono :=
  repeat first
    [ solve [auto with mono nocore]
    | apply monotone_bind; [|intros ?]
    | match goal with
      | |- monotone (match ?x with _ => _ end) => destruct x
      | |- monotone (if ?x then _ else _) => destruct x
      | |- monotone (let (_, _) := ?x in _) => destruct x
      end ].

Section Monotone.

Context {W : World}.

Lemma monotone_loggerAPIStatus (d : API) (m i : string) :
  monotone (loggerAPIStatus d m i).
Proof. unfold loggerAPIStatus. mono. Qed.

#[local] Hint Resolve monotone_loggerAPIStatus : mono.

Lemma monotone_loggerAPIStatusWithContainerID (d : API) (m i c : string) :
  monotone (loggerAPIStatusWithContainerID d m i c).
Proof. unfold loggerAPIStatusWithContainerID. mono. Qed.

#[local] Hint Resolve monotone_loggerAPIStatusWithContainerID : mono.

Lemma monotone_readPullReader (d : API) (i : string) (r : io.Reader) :
  monotone (readPullReader d i r).
Proof. unfold readPullReader, io.ReadAll, loggerAPIStatus. mono. Qed.

#[local] Hint Resolve monotone_readPullReader : mono.

Lemma monotone_downloadImage (d : API) (i : string) : monotone (downloadImage d i).
Proof.
  unfold downloadImage. mono.
Qed.

#[local] Hint Resolve monotone_downloadImage : mono.

Lemma monotone_checkIfImageNotExists (d : API) (i : string) :
  monotone (checkIfImageNotExists d i).
Proof. unfold checkIfImageNotExists. mono. Qed.

#[local] Hint Resolve monotone_checkIfImageNotExists : mono.

Lemma monotone_PullImage (d : API) (i : string) : monotone (PullImage d i).
Proof.
  unfold PullImage. mono.
Qed.

#[local] Hint Resolve monotone_PullImage : mono.

Lemma monotone_getImageID (d : API) : monotone (getImageID d).
Proof. intros t. exists [UUIDNew]. reflexivity. Qed.

#[local] Hint Resolve monotone_getImageID : mono.

Lemma monotone_createContainer (d : API) (i c : string) :
  monotone (createContainer d i c).
Proof.
  unfold createContainer. mono.
Qed.

#[local] Hint Resolve monotone_createContainer : mono.

Lemma monotone_readContainer (d : API) (c : string) : monotone (readContainer d c).
Proof. unfold readContainer. mono. Qed.

#[local] Hint Resolve monotone_readContainer : mono.

Lemma monotone_removeContainer (d : API) (c : string) : monotone (removeContainer d c).
Proof. unfold removeContainer. mono. Qed.

#[local] Hint Resolve monotone_removeContainer : mono.

Lemma monotone_executeCRDContainer (d : API) (i c : string) :
  monotone (executeCRDContainer d i c).
Proof.
  unfold executeCRDContainer. mono.
Qed.

#[local] Hint Resolve monotone_executeCRDContainer : mono.

Lemma monotone_logStatusAndExecuteCRDContainer (d : API) (i c : string) :
  monotone (logStatusAndExecuteCRDContainer d i c).
Proof.
  unfold logStatusAndExecuteCRDContainer. mono.
Qed.

#[local] Hint Resolve monotone_logStatusAndExecuteCRDContainer : mono.

Lemma monotone_CreateLanguageAnalysisContainer (d : API) (data : AnalysisData) :
  monotone (CreateLanguageAnalysisContainer d data).
Proof.
  unfold CreateLanguageAnalysisContainer. mono.
Qed.

#[local] Hint Resolve monotone_CreateLanguageAnalysisContainer : mono.

Lemma monotone_removeEach (d : API) (cs : list Container) : monotone (removeEach d cs).
Proof. induction cs; simpl; mono; auto. Qed.

#[local] Hint Resolve monotone_removeEach : mono.

Lemma monotone_DeleteContainersFromAPI (d : API) : monotone (DeleteContainersFromAPI d).
Proof.
  unfold DeleteContainersFromAPI, listContainersByAnalysisID. mono.
Qed.

#[local] Hint Resolve monotone_DeleteContainersFromAPI : mono.

End Monotone.

#[global] Hint Resolve
  monotone_loggerAPIStatus
  monotone_loggerAPIStatusWithContainerID
  monotone_readPullReader
  monotone_downloadImage
  monotone_checkIfImageNotExists
  monotone_PullImage
  monotone_getImageID
  monotone_createContainer
  monotone_readContainer
  monotone_removeContainer
  monotone_executeCRDContainer
  monotone_logStatusAndExecuteCRDContainer
  monotone_CreateLanguageAnalysisContainer
  monotone_removeEach
  monotone_DeleteContainersFromAPI : mono.

(** ** The image check and the pull *)

(** Rewrites the steps of a computation that has been run on the trace. *)
Ltac steps_of_run :=
  unfold steps; cbn [snd fst];
  repeat rewrite <- app_assoc; rewrite skipn_length_app; cbn [app].

Section ImageCache.

Context {W : World}.

(** What [checkIfImageNotExists] does, whatever the engine answers. *)
Lemma checkIfImageNotExists_run (d : API) (image : string) (t : Trace) :
  let options := referenceFilter (removeRegistry d image) in
  checkIfImageNotExists d image t =
  match ImageList (dockerClient d) (t ++ [MutexLock]) options with
  | (_, Some e) =>
      (Done (false, Some e),
       t ++ [MutexLock; Engine (CallImageList options);
             LogErrorWithLevel (MsgErrorDockerListImages messages) (Some e);
             MutexUnlock])
  | (images, None) =>
      (Done (Nat.eqb (List.length images) 0, None),
       t ++ [MutexLock; Engine (CallImageList options); MutexUnlock])
  end.
Proof.
  unfold checkIfImageNotExists, referenceFilter, bind, emit, call. cbn [fst snd].
  destruct (ImageList _ _ _) as [images [e|]]; cbn; now repeat rewrite <- app_assoc.
Qed.

(** The image check asks the engine once, for the list of images filtered
    by what [removeRegistry] makes of the reference; it returns true exactly
    when the engine lists no image, and the error of the engine when the
    list fails. *)
Lemma checkIfImageNotExists_answer (d : API) (image : string)
  (t : Trace) :
  let options :=
    referenceFilter (strings.ReplaceAll image (images_DefaultRegistry ++ "/") "") in
  engine_calls (steps (checkIfImageNotExists d image) t) = [CallImageList options] /\
  exists images err,
    ImageList (dockerClient d) (t ++ [MutexLock]) options = (images, err) /\
    result (checkIfImageNotExists d image) t =
    Done match err with
         | Some e => (false, Some e)
         | None => (match images with [] => true | _ :: _ => false end, None)
         end.
Proof.
  intros options. unfold result, steps.
  rewrite checkIfImageNotExists_run. unfold removeRegistry. fold options.
  destruct (ImageList _ _ _) as [images [e|]].
  - split; [now steps_of_run|]. now exists images, (Some e).
  - split; [now steps_of_run|]. exists images, None. split; [reflexivity|].
    destruct images; reflexivity.
Qed.

Lemma pull_calls_app (a b : Trace) : pull_calls (a ++ b) = pull_calls a ++ pull_calls b.
Proof. unfold pull_calls. now rewrite engine_calls_app, filter_app. Qed.

(** [downloadImage] returns, and asks the engine for exactly one pull, of
    the image it was given. *)
Lemma downloadImage_run (d : API) (image : string) (t : Trace) :
  exists err l,
    downloadImage d image t = (Done err, t ++ l) /\
    pull_calls l = [CallImagePull image (setPullOptions d)].
Proof.
  unfold downloadImage, readPullReader, loggerAPIStatus, io.ReadAll, bind, emit, call.
  cbn [fst snd].
  destruct (ImagePull _ _ _ _) as [reader [e|]].
  - eexists _, _. cbn. repeat rewrite <- app_assoc. split; reflexivity.
  - destruct (io.failure reader) as [e|];
      eexists _, _; cbn; repeat rewrite <- app_assoc; split; reflexivity.
Qed.

(** C4. With container execution disabled, [PullImage] succeeds without a
    step, so without a call of the engine. Otherwise, when the image check
    lists at least one image, no pull is asked for and [PullImage] succeeds;
    when it lists none, exactly one pull is asked for, of the reference
    given. *)
Theorem PullImage_pulls_when_absent (d : API) (image : string) (t : Trace) :
  (DisableDocker (config d) = true ->
   PullImage d image t = (Done None, t) /\
   engine_calls (steps (PullImage d image) t) = []) /\
  (DisableDocker (config d) = false ->
   forall images,
     ImageList (dockerClient d) (t ++ [MutexLock])
       (referenceFilter (removeRegistry d image)) = (images, None) ->
     match images with
     | [] =>
         pull_calls (steps (PullImage d image) t)
         = [CallImagePull image (setPullOptions d)]
     | _ :: _ =>
         result (PullImage d image) t = Done None /\
         pull_calls (steps (PullImage d image) t) = []
     end).
Proof.
  split.
  - intros Hdis. unfold steps, PullImage. rewrite Hdis. cbn.
    split; [reflexivity|].
    rewrite <- (app_nil_r t) at 2. now rewrite skipn_length_app.
  - intros Hdis images Hlist.
    unfold result, steps, PullImage, bind. rewrite Hdis.
    rewrite checkIfImageNotExists_run. cbv zeta. rewrite Hlist.
    destruct images as [|i images]; cbn [List.length Nat.eqb].
    + unfold emit at 1. cbn [fst snd].
      match goal with
      | |- context [downloadImage d image ?t1] =>
          destruct (downloadImage_run d image t1) as (err & l & Hrun & Hpull);
          rewrite Hrun
      end.
      unfold emit. cbn [fst snd]. unfold ret.
      steps_of_run.
      change (pull_calls ([MutexLock; Engine (CallImageList
                (referenceFilter (removeRegistry d image))); MutexUnlock]
              ++ [LogDebugWithLevel
                    (fmt.Sprintf (MsgDebugDockerImageDoesNotExists messages) [image]) []]
              ++ l
              ++ [LogError
                    (fmt.Sprintf "%s -> %s" [MsgErrorFailedToPullImage messages; image])
                    err])
              = [CallImagePull image (setPullOptions d)]).
      rewrite !pull_calls_app, Hpull. reflexivity.
    + cbn. split; [reflexivity|]. now steps_of_run.
Qed.

(** C8. When the image check fails with an error of the engine,
    [PullImage] returns that error and asks for no pull. *)
Theorem PullImage_check_failure (d : API) (image : string) (t : Trace)
  (images : list ImageSummary) (e : error) :
  DisableDocker (config d) = false ->
  ImageList (dockerClient d) (t ++ [MutexLock])
    (referenceFilter (removeRegistry d image)) = (images, Some e) ->
  result (PullImage d image) t = Done (Some e) /\
  pull_calls (steps (PullImage d image) t) = [].
Proof.
  intros Hdis Hlist.
  unfold result, steps, PullImage, bind. rewrite Hdis.
  rewrite checkIfImageNotExists_run. cbv zeta. rewrite Hlist.
  cbn. split; [reflexivity|]. now steps_of_run.
Qed.

End ImageCache.

Example PullImage_absent_run :
  engine_calls
    (steps (@PullImage (unix_world no_env) (sample_api healthy_client)
              "horuszup/horusec-bandit:v1.0.1") [])
  = [CallImageList (referenceFilter "horuszup/horusec-bandit:v1.0.1");
     CallImagePull "horuszup/horusec-bandit:v1.0.1" {| RegistryAuth := "" |}].
Proof. vm_compute. reflexivity. Qed.

(** A reference that holds the default registry after its head, as the
    references of a pull-through mirror do: the engine is asked for the
    reference without the inner [docker.io/], where stripping a leading
    qualifier leaves the reference as it is. *)
Example image_check_strips_inner_registry :
  engine_calls
    (steps (@checkIfImageNotExists (unix_world no_env) (sample_api healthy_client)
              "mirror.example.com/docker.io/library/alpine:3.14") [])
  = [CallImageList (referenceFilter "mirror.example.com/library/alpine:3.14")] /\
  @stripLeadingRegistry (unix_world no_env)
    "mirror.example.com/docker.io/library/alpine:3.14"
  = "mirror.example.com/docker.io/library/alpine:3.14" /\
  engine_calls
    (steps (@checkIfImageNotExists (unix_world no_env) (sample_api healthy_client)
              "mirror.example.com/docker.io/library/alpine:3.14") [])
  <> [CallImageList
        (referenceFilter
           (@stripLeadingRegistry (unix_world no_env)
              "mirror.example.com/docker.io/library/alpine:3.14"))].
Proof.
  split; [vm_compute; reflexivity|]. split; [vm_compute; reflexivity|].
  vm_compute. discriminate.
Qed.

(** What [removeRegistry] returns may still hold the default registry:
    the instances are removed from left to right, and what is left of two
    of them can make a new one. *)
Example removeRegistry_leaves_a_qualifier :
  @removeRegistry (unix_world no_env) (sample_api healthy_client)
    "docker.iodocker.io//library/alpine"
  = "docker.io/library/alpine".
Proof. vm_compute. reflexivity. Qed.

(** C3, on an engine that holds the image [mydocker.io/scanner:1.0] of
    another registry. The reference has no default registry in front, so
    stripping a leading qualifier leaves it as it is, and the engine, asked
    for the images of that reference, lists the image. [removeRegistry]
    takes the text [docker.io/] out of the name of the registry: the check
    asks for the images of [myscanner:1.0], of which the engine holds none,
    and answers that the image does not exist; [PullImage] then pulls the
    image that is in the cache. *)
Theorem image_check_misses_cached_image :
  @stripLeadingRegistry (unix_world no_env) other_registry_image
  = other_registry_image /\
  ImageList (cache_client [other_registry_image]) [MutexLock]
    (referenceFilter other_registry_image)
  = ([{| ImageID := other_registry_image |}], None) /\
  engine_calls
    (steps (@checkIfImageNotExists (unix_world no_env)
              (sample_api (cache_client [other_registry_image]))
              other_registry_image) [])
  = [CallImageList (referenceFilter "myscanner:1.0")] /\
  result (@checkIfImageNotExists (unix_world no_env)
            (sample_api (cache_client [other_registry_image]))
            other_registry_image) []
  = Done (true, None) /\
  pull_calls
    (steps (@PullImage (unix_world no_env)
              (sample_api (cache_client [other_registry_image]))
              other_registry_image) [])
  = [CallImagePull other_registry_image {| RegistryAuth := "" |}].
Proof.
  split; [vm_compute; reflexivity|]. split; [vm_compute; reflexivity|].
  split; [vm_compute; reflexivity|]. split; vm_compute; reflexivity.
Qed.

Lemma PullImage_pulls_when_absent_witness :
  (DisableDocker (config (disabled_api healthy_client)) = true /\
   @PullImage (unix_world no_env) (disabled_api healthy_client)
     "horuszup/horusec-bandit:v1.0.1" [] = (Done None, [])) /\
  (DisableDocker (config (sample_api healthy_client)) = false /\
   ImageList healthy_client ([] ++ [MutexLock])
     (referenceFilter
        (@removeRegistry (unix_world no_env) (sample_api healthy_client)
           "horuszup/horusec-bandit:v1.0.1")) = ([], None) /\
   pull_calls
     (steps (@PullImage (unix_world no_env) (sample_api healthy_client)
               "horuszup/horusec-bandit:v1.0.1") [])
   = [CallImagePull "horuszup/horusec-bandit:v1.0.1"
        (@setPullOptions (unix_world no_env) (sample_api healthy_client))]).
Proof.
  split.
  - split; [reflexivity|].
    exact (proj1 (proj1 (@PullImage_pulls_when_absent (unix_world no_env)
                           (disabled_api healthy_client)
                           "horuszup/horusec-bandit:v1.0.1" []) eq_refl)).
  - split; [reflexivity|]. split; [reflexivity|].
    exact (proj2 (@PullImage_pulls_when_absent (unix_world no_env)
                    (sample_api healthy_client)
                    "horuszup/horusec-bandit:v1.0.1" []) eq_refl [] eq_refl).
Defined.

Lemma PullImage_check_failure_witness :
  DisableDocker (config (sample_api list_error_client)) = false /\
  ImageList list_error_client ([] ++ [MutexLock])
    (referenceFilter
       (@removeRegistry (unix_world no_env) (sample_api list_error_client)
          "horuszup/horusec-bandit:v1.0.1"))
  = ([], Some (errors.New "daemon down")) /\
  result (@PullImage (unix_world no_env) (sample_api list_error_client)
            "horuszup/horusec-bandit:v1.0.1") []
  = Done (Some (errors.New "daemon down")) /\
  pull_calls
    (steps (@PullImage (unix_world no_env) (sample_api list_error_client)
              "horuszup/horusec-bandit:v1.0.1") []) = [].
Proof.
  split; [reflexivity|]. split; [reflexivity|].
  apply (@PullImage_check_failure (unix_world no_env)
           (sample_api list_error_client) "horuszup/horusec-bandit:v1.0.1" [] []);
    reflexivity.
Defined.

(** ** The run-scoped cleanup *)

Section Cleanup.

Context {W : World}.

Lemma remove_calls_app (a b : Trace) :
  remove_calls (a ++ b) = remove_calls a ++ remove_calls b.
Proof. unfold remove_calls. now rewrite engine_calls_app, filter_app. Qed.

(** The loop returns, and asks for the forced removal of each container
    of the list, in order, and for nothing else. *)
Lemma removeEach_run (d : API) (containers : list Container) :
  forall t, exists l,
    removeEach d containers t = (Done tt, t ++ l) /\
    engine_calls l = map (fun c => forcedRemoval (ID c)) containers.
Proof.
  induction containers as [|c rest IH]; intros t.
  - exists []. cbn. now rewrite app_nil_r.
  - cbn [removeEach]. unfold bind, call, emit. cbn [fst snd].
    match goal with
    | |- context [removeEach d rest ?t1] =>
        destruct (IH t1) as (l & Hrun & Hcalls); rewrite Hrun
    end.
    eexists. repeat rewrite <- app_assoc. split; [reflexivity|].
    cbn. now rewrite Hcalls.
Qed.

(** C9. When the engine fails to list the containers of the run, the
    cleanup logs the failure and returns: the list call and the log entry
    are its only steps, no removal is attempted and nothing is reported to
    the caller. When the list succeeds, the calls after it are the forced
    removals of the containers listed, one each, in order. *)
Theorem cleanup_removes_only_listed (d : API) (t : Trace)
  (containers : list Container) (err : option error) :
  ContainerList (dockerClient d) t (runFilter d) = (containers, err) ->
  match err with
  | Some e =>
      DeleteContainersFromAPI d t
      = (Done tt,
         t ++ [Engine (CallContainerList (runFilter d));
               LogErrorWithLevel (MsgErrorDockerListAllContainers messages) (Some e)]) /\
      remove_calls (steps (DeleteContainersFromAPI d) t) = []
  | None =>
      result (DeleteContainersFromAPI d) t = Done tt /\
      engine_calls (steps (DeleteContainersFromAPI d) t)
      = CallContainerList (runFilter d)
        :: map (fun c => forcedRemoval (ID c)) containers
  end.
Proof.
  intros Hlist.
  unfold result, steps, DeleteContainersFromAPI, listContainersByAnalysisID,
    bind, call. cbn [fst snd].
  fold (runFilter d). rewrite Hlist.
  destruct err as [e|].
  - unfold emit. cbn [fst snd]. repeat rewrite <- app_assoc.
    split; [reflexivity|]. rewrite skipn_length_app. reflexivity.
  - match goal with
    | |- context [removeEach d containers ?t1] =>
        destruct (removeEach_run d containers t1) as (l & Hrun & Hcalls);
        rewrite Hrun
    end.
    cbn [fst snd]. split; [reflexivity|].
    repeat rewrite <- app_assoc. rewrite skipn_length_app.
    cbn. now rewrite Hcalls.
Qed.

End Cleanup.

Lemma cleanup_removes_only_listed_witness :
  ContainerList list_error_client []
    (runFilter (sample_api list_error_client))
  = ([{| ID := "c1" |}], Some (errors.New "daemon down")) /\
  remove_calls
    (steps (@DeleteContainersFromAPI (unix_world no_env)
              (sample_api list_error_client)) []) = [].
Proof.
  split; [reflexivity|].
  exact (proj2 (@cleanup_removes_only_listed (unix_world no_env)
                  (sample_api list_error_client) [] _ _ eq_refl)).
Defined.

Example cleanup_run :
  engine_calls
    (steps (@DeleteContainersFromAPI (unix_world no_env) (sample_api healthy_client)) [])
  = [CallContainerList (runFilter (sample_api healthy_client));
     forcedRemoval "c1"; forcedRemoval "c2"].
Proof. vm_compute. reflexivity. Qed.

(** ** The life cycle of a container *)

Lemma HasPrefix_app (b c : string) : strings.HasPrefix (b ++ c) b = true.
Proof.
  induction b as [|x b IH]; cbn.
  - apply HasPrefix_nil.
  - now rewrite Ascii.eqb_refl, IH.
Qed.

Lemma Contains_prefix (s sub : string) :
  strings.HasPrefix s sub = true -> strings.Contains s sub = true.
Proof.
  unfold strings.Contains. intros H. destruct s; cbn [strings.Index]; now rewrite H.
Qed.

Lemma Contains_cons (x : ascii) (s sub : string) :
  strings.Contains s sub = true -> strings.Contains (String x s) sub = true.
Proof.
  unfold strings.Contains. cbn [strings.Index].
  destruct (strings.HasPrefix (String x s) sub); [reflexivity|].
  destruct (strings.Index s sub); [reflexivity | discriminate].
Qed.

(** A string contains each of the pieces it is made of. *)
Lemma Contains_middle (a b c : string) :
  strings.Contains (a ++ b ++ c) b = true.
Proof.
  induction a as [|x a IH]; cbn [append].
  - apply Contains_prefix, HasPrefix_app.
  - now apply Contains_cons.
Qed.

Lemma Contains_app_r (a s sub : string) :
  strings.Contains s sub = true -> strings.Contains (a ++ s) sub = true.
Proof.
  intros H. induction a as [|x a IH]; cbn [append]; [exact H|].
  now apply Contains_cons.
Qed.

Lemma Contains_refl (s : string) : strings.Contains s s = true.
Proof.
  apply Contains_prefix. rewrite <- (append_nil_r s) at 1. apply HasPrefix_app.
Qed.

Lemma int_of_int64 (x : Z) :
  (- 2 ^ 63 <= x < 2 ^ 63)%Z -> strconv.int x = x.
Proof.
  intros H. unfold strconv.int.
  rewrite Z.mod_small by lia. lia.
Qed.

Lemma logs_calls_app (a b : Trace) : logs_calls (a ++ b) = logs_calls a ++ logs_calls b.
Proof. unfold logs_calls. now rewrite engine_calls_app, filter_app. Qed.

Lemma Sprintf_wait_error (containerID message status : string) :
  fmt.Sprintf "Error on wait container %s: %s | Exited with status %s"
    [containerID; message; status]
  = ("Error on wait container " ++ containerID ++ ": " ++ message
     ++ " | Exited with status " ++ status)%string.
Proof. cbn. now rewrite append_nil_r. Qed.

Section Lifecycle.

Context {W : World}.

(** [createContainer] asks the engine to create and to start, never to
    read logs or to remove. *)
Lemma createContainer_calls (d : API) (image cmd : string) (t : Trace) :
  logs_calls (steps (createContainer d image cmd) t) = [] /\
  remove_calls (steps (createContainer d image cmd) t) = [].
Proof.
  unfold steps, createContainer, getImageID, loggerAPIStatusWithContainerID,
    bind, call, emit, lift, ret, panic.
  destruct (getContainerAndHostConfig d image cmd) as [[cfg host]|]; cbn [fst snd].
  - destruct (ContainerCreate _ _ _ _ _) as [response [e|]]; cbn [fst snd].
    + steps_of_run. split; reflexivity.
    + destruct (ContainerStart _ _ _ _) as [e|]; cbn [fst snd];
        steps_of_run; split; reflexivity.
  - cbn. rewrite <- (app_nil_r t) at 2 4. rewrite skipn_length_app. split; reflexivity.
Qed.

(** An error of [createContainer] comes with an empty identifier. *)
Lemma createContainer_error (d : API) (image cmd : string) (t : Trace)
  (id : string) (e : error) :
  result (createContainer d image cmd) t = Done (id, Some e) -> id = "".
Proof.
  unfold result, createContainer, getImageID, loggerAPIStatusWithContainerID,
    bind, call, emit, lift, ret, panic.
  destruct (getContainerAndHostConfig d image cmd) as [[cfg host]|]; cbn [fst snd].
  - destruct (ContainerCreate _ _ _ _ _) as [response [e'|]]; cbn [fst snd].
    + now intros [= <- _].
    + destruct (ContainerStart _ _ _ _) as [e'|]; cbn [fst snd];
        [now intros [= <- _] | discriminate].
  - discriminate.
Qed.

(** [readContainer] when the status that arrives reports an error: the
    wait is its only step, and the error it returns carries the identifier,
    the message and the exit status. *)
Lemma readContainer_wait_error (d : API) (containerID : string) (t : Trace)
  (status : ContainerWaitOKBody) (waitError : ContainerWaitOKBodyError) :
  ContainerWait (dockerClient d) t containerID "" = Some status ->
  WaitError status = Some waitError ->
  readContainer d containerID t
  = (Done ("", Some (errors.New
                       (waitErrorText containerID (Message waitError)
                          (strconv.int (StatusCode status))))),
     t ++ [Engine (CallContainerWait containerID "")]).
Proof.
  intros Hwait Herr. unfold readContainer, bind, call, ret. cbn [fst snd].
  rewrite Hwait, Herr, Sprintf_wait_error. reflexivity.
Qed.

(** [readContainer] returns no output together with an error. *)
Lemma readContainer_error (d : API) (containerID : string) (t : Trace)
  (out : string) (e : error) :
  result (readContainer d containerID) t = Done (out, Some e) -> out = "".
Proof.
  unfold result, readContainer, readOutputAsString, io.ReadAll, bind, call, ret, block.
  cbn [fst snd].
  destruct (ContainerWait _ _ _ _) as [status|]; [|discriminate].
  destruct (WaitError status); [now intros [= <- _]|].
  cbn [fst snd].
  destruct (ContainerLogs _ _ _ _) as [output [e'|]]; [now intros [= <- _]|].
  destruct (io.failure output); cbn; [now intros [= <- _] | discriminate].
Qed.

(** [readContainer] never asks for a removal. *)
Lemma readContainer_calls (d : API) (containerID : string) (t : Trace) :
  remove_calls (steps (readContainer d containerID) t) = [].
Proof.
  unfold steps, readContainer, readOutputAsString, io.ReadAll, bind, call, ret, block.
  cbn [fst snd].
  destruct (ContainerWait _ _ _ _) as [status|]; [|now steps_of_run].
  destruct (WaitError status); [now steps_of_run|].
  cbn [fst snd].
  destruct (ContainerLogs _ _ _ _) as [output [e'|]]; [now steps_of_run|].
  now steps_of_run.
Qed.

(** C7. Whenever [CreateLanguageAnalysisContainer] returns an error, be it
    from the validation, the creation, the start, the wait, or the opening
    or the reading of the logs, the output it returns is the empty string. *)
Theorem error_comes_with_empty_output (d : API) (data : AnalysisData) (t : Trace)
  (out : string) (e : error) :
  result (CreateLanguageAnalysisContainer d data) t = Done (out, Some e) ->
  out = "".
Proof.
  unfold result, CreateLanguageAnalysisContainer.
  destruct (IsInvalid data); [now intros [= <- _]|].
  unfold logStatusAndExecuteCRDContainer, loggerAPIStatus, bind, emit, ret.
  destruct (executeCRDContainer _ _ _ _) as [[[o [er|]]| |] t'];
    cbn [fst snd]; try discriminate.
  now intros [= <- _].
Qed.

(** The same holds of [executeCRDContainer] on its own. *)
Lemma executeCRDContainer_error (d : API) (image cmd : string) (t : Trace)
  (out : string) (e : error) :
  result (executeCRDContainer d image cmd) t = Done (out, Some e) -> out = "".
Proof.
  unfold result, executeCRDContainer, loggerAPIStatusWithContainerID,
    loggerAPIStatus, removeContainer, bind, emit, call, ret.
  destruct (createContainer _ _ _ _) as [[[id [er|]]| |] t1];
    cbn [fst snd]; try discriminate; [now intros [= <- _]|].
  destruct (readContainer _ _ _) as [[[o [er|]]| |] t2];
    cbn [fst snd]; try discriminate.
  now intros [= <- _].
Qed.

(** C6. When the container was created and started and the status that
    arrives from the wait reports an error, the invocation returns the
    empty output and an error whose text contains the identifier of the
    container and the exit status of the wait result in decimal, and the
    engine is never asked for the logs. *)
Theorem wait_error_is_returned (d : API) (data : AnalysisData) (t : Trace)
  (containerID : string) (status : ContainerWaitOKBody)
  (waitError : ContainerWaitOKBodyError) :
  let image := GetCustomOrDefaultImage data in
  let cmd := replaceCMDAnalysisID d (CMD data) in
  IsInvalid data = false ->
  result (createContainer d image cmd) t = Done (containerID, None) ->
  ContainerWait (dockerClient d) (waitPoint d image cmd t containerID) containerID ""
  = Some status ->
  WaitError status = Some waitError ->
  (- 2 ^ 63 <= StatusCode status < 2 ^ 63)%Z ->
  exists err,
    result (CreateLanguageAnalysisContainer d data) t = Done ("", Some err) /\
    Error err = waitErrorText containerID (Message waitError) (StatusCode status) /\
    strings.Contains (Error err) containerID = true /\
    strings.Contains (Error err) (strconv.Itoa (StatusCode status)) = true /\
    logs_calls (steps (CreateLanguageAnalysisContainer d data) t) = [].
Proof.
  intros image cmd Hvalid Hcreate Hwait Herr Hrange.
  exists (errors.New (waitErrorText containerID (Message waitError) (StatusCode status))).
  pose proof (proj1 (createContainer_calls d image cmd t)) as Hcalls.
  pose proof (steps_spec _ t (monotone_createContainer d image cmd)) as Hsteps.
  unfold waitPoint in Hwait. unfold result in Hcreate.
  fold image cmd in Hwait.
  unfold result, steps, CreateLanguageAnalysisContainer. rewrite Hvalid.
  fold image cmd.
  unfold logStatusAndExecuteCRDContainer, executeCRDContainer,
    loggerAPIStatusWithContainerID, loggerAPIStatus, bind, emit, ret.
  destruct (createContainer d image cmd t) as [o t1].
  cbn [fst snd] in *. subst o. rewrite Hsteps.
  rewrite Hsteps in Hwait.
  rewrite (readContainer_wait_error _ _ _ _ _ Hwait Herr).
  rewrite (int_of_int64 _ Hrange).
  cbn [fst snd errors.New Error].
  split; [reflexivity|]. split; [reflexivity|].
  split; [|split].
  - unfold waitErrorText. apply (Contains_middle "Error on wait container ").
  - unfold waitErrorText. do 5 apply Contains_app_r. apply Contains_refl.
  - repeat rewrite <- app_assoc. rewrite skipn_length_app.
    rewrite logs_calls_app, Hcalls. reflexivity.
Qed.

(** Whenever the invocation returns an error, it has asked for no
    removal: a container that was started and then failed in the wait or in
    the logs is left to the run-scoped cleanup. *)
Lemma no_removal_on_error (d : API) (data : AnalysisData) (t : Trace)
  (out : string) (e : error) :
  result (CreateLanguageAnalysisContainer d data) t = Done (out, Some e) ->
  remove_calls (steps (CreateLanguageAnalysisContainer d data) t) = [].
Proof.
  unfold result, steps, CreateLanguageAnalysisContainer.
  destruct (IsInvalid data).
  - intros _. cbn. rewrite <- (app_nil_r t) at 2. now rewrite skipn_length_app.
  - set (image := GetCustomOrDefaultImage data).
    set (cmd := replaceCMDAnalysisID d (CMD data)).
    pose proof (proj2 (createContainer_calls d image cmd t)) as Hcalls.
    pose proof (steps_spec _ t (monotone_createContainer d image cmd)) as Hsteps.
    unfold logStatusAndExecuteCRDContainer, executeCRDContainer,
      loggerAPIStatusWithContainerID, loggerAPIStatus, removeContainer,
      bind, emit, call, ret.
    destruct (createContainer d image cmd t) as [[[id [er|]]| |] t1];
      cbn [fst snd] in *; try discriminate; subst t1.
    + intros _. repeat rewrite <- app_assoc.
      rewrite skipn_length_app, remove_calls_app, Hcalls. reflexivity.
    + match goal with
      | |- context [readContainer d id ?t2] =>
          pose proof (readContainer_calls d id t2) as Hread;
          pose proof (steps_spec _ t2 (monotone_readContainer d id)) as Hsteps2;
          destruct (readContainer d id t2) as [[[o [er|]]| |] t3]
      end; cbn [fst snd] in *; try discriminate; subst t3.
      intros _. set (s2 := steps (readContainer d id) _) in *.
      repeat rewrite <- app_assoc.
      rewrite skipn_length_app, !remove_calls_app, Hcalls, Hread. reflexivity.
Qed.

(** When the invocation succeeds, it has asked for the forced removal of
    the container it created, once. *)
Lemma removal_on_success (d : API) (data : AnalysisData) (t : Trace) (out : string) :
  result (CreateLanguageAnalysisContainer d data) t = Done (out, None) ->
  exists containerID,
    result (createContainer d (GetCustomOrDefaultImage data)
              (replaceCMDAnalysisID d (CMD data))) t = Done (containerID, None) /\
    remove_calls (steps (CreateLanguageAnalysisContainer d data) t)
    = [forcedRemoval containerID].
Proof.
  unfold result, steps, CreateLanguageAnalysisContainer.
  destruct (IsInvalid data); [discriminate|].
  set (image := GetCustomOrDefaultImage data).
  set (cmd := replaceCMDAnalysisID d (CMD data)).
  pose proof (proj2 (createContainer_calls d image cmd t)) as Hcalls.
  pose proof (steps_spec _ t (monotone_createContainer d image cmd)) as Hsteps.
  unfold logStatusAndExecuteCRDContainer, executeCRDContainer,
    loggerAPIStatusWithContainerID, loggerAPIStatus, removeContainer,
    bind, emit, call, ret.
  destruct (createContainer d image cmd t) as [[[id [er|]]| |] t1];
    cbn [fst snd] in *; try discriminate; subst t1.
  match goal with
  | |- context [readContainer d id ?t2] =>
      pose proof (readContainer_calls d id t2) as Hread;
      pose proof (steps_spec _ t2 (monotone_readContainer d id)) as Hsteps2;
      destruct (readContainer d id t2) as [[[o [er|]]| |] t3]
  end; cbn [fst snd] in *; try discriminate; subst t3.
  intros _. exists id. split; [reflexivity|].
  set (s2 := steps (readContainer d id) _) in *.
  repeat rewrite <- app_assoc.
  rewrite skipn_length_app, !remove_calls_app, Hcalls, Hread. reflexivity.
Qed.

(** The answer of the engine to the removal does not reach the caller:
    the invocation returns the same over any two engines that differ in
    their answers to removals only. *)
Lemma removal_outcome_ignored (d : API) (data : AnalysisData) (t : Trace)
  (removed : Trace -> string -> ContainerRemoveOptions -> option error) :
  result (CreateLanguageAnalysisContainer (with_removal d removed) data) t
  = result (CreateLanguageAnalysisContainer d data) t.
Proof.
  unfold result, CreateLanguageAnalysisContainer.
  destruct (IsInvalid data); [reflexivity|].
  change (replaceCMDAnalysisID (with_removal d removed) (CMD data))
    with (replaceCMDAnalysisID d (CMD data)).
  set (image := GetCustomOrDefaultImage data).
  set (cmd := replaceCMDAnalysisID d (CMD data)).
  unfold logStatusAndExecuteCRDContainer, executeCRDContainer, bind.
  change (createContainer (with_removal d removed) image cmd t)
    with (createContainer d image cmd t).
  destruct (createContainer d image cmd t) as [[[id [er|]]| |] t1];
    try reflexivity.
  unfold loggerAPIStatusWithContainerID, emit. cbn [fst snd].
  change (analysisID (with_removal d removed)) with (analysisID d).
  match goal with
  | |- context [readContainer (with_removal d removed) id ?t2] =>
      change (readContainer (with_removal d removed) id t2)
        with (readContainer d id t2);
      destruct (readContainer d id t2) as [[[o [er|]]| |] t3]
  end; reflexivity.
Qed.

End Lifecycle.

(** A clean run: the output is what the engine holds as the log of the
    container, and the container is removed last. *)
Example clean_run :
  result (@CreateLanguageAnalysisContainer (unix_world no_env)
            (sample_api healthy_client) sample_data) []
  = Done ("{}", None) /\
  remove_calls
    (steps (@CreateLanguageAnalysisContainer (unix_world no_env)
              (sample_api healthy_client) sample_data) [])
  = [forcedRemoval "c1"].
Proof. split; vm_compute; reflexivity. Qed.

Lemma wait_error_is_returned_witness :
  IsInvalid sample_data = false /\
  result (@createContainer (unix_world no_env) (sample_api wait_error_client)
            (GetCustomOrDefaultImage sample_data)
            (replaceCMDAnalysisID (sample_api wait_error_client) (CMD sample_data))) []
  = Done ("c1", None) /\
  (- 2 ^ 63 <= 137 < 2 ^ 63)%Z /\
  exists err,
    result (@CreateLanguageAnalysisContainer (unix_world no_env)
              (sample_api wait_error_client) sample_data) []
    = Done ("", Some err) /\
    Error err = "Error on wait container c1: boom | Exited with status 137" /\
    logs_calls
      (steps (@CreateLanguageAnalysisContainer (unix_world no_env)
                (sample_api wait_error_client) sample_data) []) = [].
Proof.
  split; [reflexivity|]. split; [vm_compute; reflexivity|]. split; [lia|].
  destruct (@wait_error_is_returned (unix_world no_env)
              (sample_api wait_error_client) sample_data [] "c1"
              {| WaitError := Some {| Message := "boom" |}; StatusCode := 137 |}
              {| Message := "boom" |})
    as (err & Hres & Htext & _ & _ & Hlogs);
    [reflexivity | vm_compute; reflexivity | reflexivity | reflexivity
    | cbn [StatusCode]; lia |].
  exists err. split; [exact Hres|]. split; [|exact Hlogs].
  rewrite Htext. vm_compute. reflexivity.
Defined.

Lemma error_comes_with_empty_output_witness :
  result (@CreateLanguageAnalysisContainer (unix_world no_env)
            (sample_api wait_error_client) sample_data) []
  = Done ("", Some (errors.New
                      "Error on wait container c1: boom | Exited with status 137")) /\
  "" = "".
Proof.
  split; [vm_compute; reflexivity|].
  apply (@error_comes_with_empty_output (unix_world no_env)
           (sample_api wait_error_client) sample_data [] ""
           (errors.New "Error on wait container c1: boom | Exited with status 137")).
  vm_compute. reflexivity.
Defined.

(** The same happens when the wait is clean and the read of the logs
    fails: the error is returned without the partial output, and the
    container is not removed. *)
Example container_left_behind_on_log_failure :
  result (@CreateLanguageAnalysisContainer (unix_world no_env)
            (sample_api log_error_client) sample_data) []
  = Done ("", Some (errors.New "unexpected EOF")) /\
  remove_calls
    (steps (@CreateLanguageAnalysisContainer (unix_world no_env)
              (sample_api log_error_client) sample_data) []) = [].
Proof. split; vm_compute; reflexivity. Qed.

(** C1, on an engine whose wait reports an error. The container [c1] is
    created and started, the wait reports the error, and the invocation
    returns it: the calls of the engine end with the wait, and no removal
    is among them. The specification has the container removed
    before the invocation returns, whether the wait succeeded or failed. *)
Theorem container_left_behind_on_wait_error :
  result (@CreateLanguageAnalysisContainer (unix_world no_env)
            (sample_api wait_error_client) sample_data) []
  = Done ("", Some (errors.New
                      "Error on wait container c1: boom | Exited with status 137")) /\
  (exists cfg hostCfg name,
     engine_calls
       (steps (@CreateLanguageAnalysisContainer (unix_world no_env)
                 (sample_api wait_error_client) sample_data) [])
     = [CallContainerCreate cfg hostCfg name;
        CallContainerStart "c1" Build_ContainerStartOptions;
        CallContainerWait "c1" ""]) /\
  remove_calls
    (steps (@CreateLanguageAnalysisContainer (unix_world no_env)
              (sample_api wait_error_client) sample_data) []) = [].
Proof.
  split; [vm_compute; reflexivity|]. split.
  - eexists _, _, _. vm_compute. reflexivity.
  - vm_compute. reflexivity.
Qed.

(** ** The registry credentials of a pull *)

Lemma length_append (a b : string) :
  String.length (a ++ b) = String.length a + String.length b.
Proof. induction a; simpl; auto. Qed.

Lemma take_drop (n : nat) (s : string) : (take n s ++ drop n s)%string = s.
Proof.
  revert s. induction n as [|n IH]; intros [|c s]; simpl; try reflexivity.
  now rewrite IH.
Qed.

Lemma length_drop (n : nat) (s : string) :
  String.length (drop n s) = String.length s - n.
Proof. revert s. induction n as [|n IH]; intros [|c s]; simpl; auto. Qed.

Lemma length_take (n : nat) (s : string) :
  n <= String.length s -> String.length (take n s) = n.
Proof.
  revert s. induction n as [|n IH]; intros [|c s]; simpl; intros H;
    try reflexivity; try lia.
  rewrite IH; lia.
Qed.

Lemma take_app_exact (a b : string) : take (String.length a) (a ++ b) = a.
Proof. induction a; simpl; [now destruct b | congruence]. Qed.

Lemma drop_app_exact (a b : string) : drop (String.length a) (a ++ b) = b.
Proof. induction a; simpl; auto. Qed.

(** The width of a sequence is between one and four, within the string,
    and determined by the bytes of the sequence. *)
Lemma width_spec (s : string) (n : nat) :
  utf8.width s = Some n ->
  1 <= n /\ n <= String.length s /\
  forall x, utf8.width (take n s ++ x) = Some n.
Proof.
  unfold utf8.width.
  destruct s as [|s0 rest]; [discriminate|].
  destruct (N.ltb (N_of_ascii s0) 128) eqn:Hascii.
  - intros [= <-]. cbn. rewrite Hascii. repeat split; lia.
  - destruct (utf8.first s0) as [[[sz lo] hi]|] eqn:Hfirst; [|discriminate].
    destruct sz as [|[|[|[|[|sz]]]]]; try discriminate;
      try (destruct rest; discriminate).
    + destruct rest as [|s1 rest]; [discriminate|].
      destruct (utf8.between lo hi s1) eqn:H1; [|discriminate].
      intros [= <-]. cbn. rewrite Hascii, Hfirst, H1. repeat split; lia.
    + destruct rest as [|s1 [|s2 rest]]; try discriminate.
      destruct (utf8.between lo hi s1 && utf8.between 128 191 s2) eqn:H1;
        [|discriminate].
      intros [= <-]. cbn. rewrite Hascii, Hfirst, H1. repeat split; lia.
    + destruct rest as [|s1 [|s2 [|s3 rest]]]; try discriminate.
      destruct (utf8.between lo hi s1 && utf8.between 128 191 s2
                && utf8.between 128 191 s3) eqn:H1; [|discriminate].
      intros [= <-]. cbn. rewrite Hascii, Hfirst, H1. repeat split; lia.
Qed.

(** *** One step of the decoder on each kind of output of the encoder *)

Lemma htmlSafe_byte (b : ascii) :
  json.htmlSafe b = true ->
  Ascii.eqb b json.DQUOTE = false /\ Ascii.eqb b "\" = false /\
  N.ltb (N_of_ascii b) 0x20 = false /\ N.ltb (N_of_ascii b) 0x80 = true.
Proof.
  destruct b as [[] [] [] [] [] [] [] []]; vm_compute; intros H;
    try discriminate H; repeat split.
Qed.

Lemma unquote_safe (b : ascii) (fuel : nat) (tl : string) :
  json.htmlSafe b = true ->
  json.unquote_loop (S fuel) (String b tl)
  = json.prepend (String b "") (json.unquote_loop fuel tl).
Proof.
  intros H. destruct (htmlSafe_byte b H) as (Hq & Hb & Hctl & Hascii).
  cbn [json.unquote_loop]. now rewrite Hq, Hb, Hctl, Hascii.
Qed.

Lemma unquote_escape (b : ascii) (fuel : nat) (tl : string) :
  N.ltb (N_of_ascii b) 0x80 = true ->
  json.htmlSafe b = false ->
  json.unquote_loop (S fuel) (json.escape b ++ tl)
  = json.prepend (String b "") (json.unquote_loop fuel tl).
Proof.
  destruct b as [[] [] [] [] [] [] [] []]; intros H1 H2;
    try discriminate H1; try discriminate H2;
    cbv -[json.unquote_loop]; cbn [json.unquote_loop];
    cbv -[json.unquote_loop]; reflexivity.
Qed.

Lemma escape_length (b : ascii) : 1 <= String.length (json.escape b).
Proof.
  unfold json.escape.
  repeat match goal with |- context [if ?c then _ else _] => destruct c end;
    cbn; lia.
Qed.

Lemma high_byte (c : ascii) :
  N.ltb (N_of_ascii c) 0x80 = false ->
  Ascii.eqb c json.DQUOTE = false /\ Ascii.eqb c "\" = false /\
  N.ltb (N_of_ascii c) 0x20 = false.
Proof.
  destruct c as [[] [] [] [] [] [] [] []]; vm_compute; intros H;
    try discriminate H; repeat split.
Qed.

Lemma unquote_sequence (c : ascii) (rest : string) (size fuel : nat) (tl : string) :
  N.ltb (N_of_ascii c) 0x80 = false ->
  utf8.width (String c rest) = Some size ->
  json.unquote_loop (S fuel) (take size (String c rest) ++ tl)
  = json.prepend (take size (String c rest)) (json.unquote_loop fuel tl).
Proof.
  intros Hhigh Hwidth.
  destruct (width_spec _ _ Hwidth) as (Hpos & Hlen & Hsame).
  specialize (Hsame tl).
  pose proof (length_take size (String c rest) Hlen) as Htake.
  pose proof (take_app_exact (take size (String c rest)) tl) as Ht.
  pose proof (drop_app_exact (take size (String c rest)) tl) as Hd.
  rewrite Htake in Ht, Hd.
  destruct (high_byte c Hhigh) as (Hq & Hb & Hctl).
  destruct size as [|size]; [lia|].
  change (take (S size) (String c rest)) with (String c (take size rest)) in *.
  change (String c (take size rest) ++ tl)%string
    with (String c (take size rest ++ tl)) in *.
  cbn [json.unquote_loop]. rewrite Hq, Hb, Hctl, Hhigh, Hsame, Ht, Hd.
  reflexivity.
Qed.

Lemma unquote_replacement (fuel : nat) (tl : string) :
  json.unquote_loop (S fuel) ("\ufffd" ++ tl)
  = json.prepend json.REPLACEMENT (json.unquote_loop fuel tl).
Proof. reflexivity. Qed.

Lemma unquote_line_separator (fuel : nat) (tl : string) :
  json.unquote_loop (S fuel) ("\u2028" ++ tl)
  = json.prepend json.LINE_SEPARATOR (json.unquote_loop fuel tl).
Proof. reflexivity. Qed.

Lemma unquote_paragraph_separator (fuel : nat) (tl : string) :
  json.unquote_loop (S fuel) ("\u2029" ++ tl)
  = json.prepend json.PARAGRAPH_SEPARATOR (json.unquote_loop fuel tl).
Proof. reflexivity. Qed.

(** Decoding an encoded string gives the string coerced to UTF-8, and
    stops after the closing quote. *)
Lemma unquote_string_loop (n : nat) :
  forall (s tl : string) (fuel : nat),
    String.length s <= n ->
    String.length (json.string_loop n s) < fuel ->
    json.unquote_loop fuel (json.string_loop n s ++ String json.DQUOTE tl)
    = Some (json.coerce_loop n s, tl).
Proof.
  induction n as [|n IH]; intros s tl fuel Hlen Hfuel.
  - destruct s; [|simpl in Hlen; lia].
    destruct fuel; [simpl in Hfuel; lia|]. reflexivity.
  - destruct s as [|b r].
    + destruct fuel; [simpl in Hfuel; lia|]. reflexivity.
    + simpl in Hlen.
      destruct fuel as [|fuel]; [lia|].
      cbn [json.string_loop json.coerce_loop] in *.
      destruct (N.ltb (N_of_ascii b) 128) eqn:Hascii.
      * assert (utf8.width (String b r) = Some 1) as ->
          by (unfold utf8.width; now rewrite Hascii).
        cbn [take drop append].
        destruct (json.htmlSafe b) eqn:Hsafe.
        -- cbn [append String.length] in *.
           rewrite unquote_safe by assumption.
           rewrite IH by lia. reflexivity.
        -- rewrite append_assoc. rewrite length_append in Hfuel.
           pose proof (escape_length b).
           rewrite unquote_escape by assumption.
           rewrite IH by lia. reflexivity.
      * destruct (utf8.width (String b r)) as [size|] eqn:Hwidth.
        -- destruct (width_spec _ _ Hwidth) as (Hpos & Hsz & _).
           assert (String.length (drop size (String b r)) <= n) as Hrest
             by (rewrite length_drop; cbn [String.length]; lia).
           destruct (String.eqb (take size (String b r)) json.LINE_SEPARATOR) eqn:Hl.
           ++ apply String.eqb_eq in Hl. rewrite Hl.
              rewrite append_assoc, unquote_line_separator.
              rewrite length_append in Hfuel. cbn [String.length] in Hfuel.
              rewrite IH by lia. reflexivity.
           ++ destruct (String.eqb (take size (String b r)) json.PARAGRAPH_SEPARATOR)
                eqn:Hp.
              ** apply String.eqb_eq in Hp. rewrite Hp.
                 rewrite append_assoc, unquote_paragraph_separator.
                 rewrite length_append in Hfuel. cbn [String.length] in Hfuel.
                 rewrite IH by lia. reflexivity.
              ** rewrite append_assoc, unquote_sequence by assumption.
                 rewrite length_append, length_take in Hfuel by assumption.
                 rewrite IH by lia. reflexivity.
        -- rewrite append_assoc, unquote_replacement.
           rewrite length_append in Hfuel. cbn [String.length] in Hfuel.
           rewrite IH by lia. reflexivity.
Qed.

(** A string that is valid UTF-8 is left as it is. *)
Lemma coerce_loop_valid (n : nat) :
  forall s, String.length s <= n -> utf8.valid_loop n s = true ->
            json.coerce_loop n s = s.
Proof.
  induction n as [|n IH]; intros s Hlen Hvalid.
  - destruct s; [reflexivity | discriminate].
  - destruct s as [|b r]; [reflexivity|].
    cbn [utf8.valid_loop json.coerce_loop] in *.
    destruct (utf8.width (String b r)) as [size|] eqn:Hwidth; [|discriminate].
    destruct (width_spec _ _ Hwidth) as (Hpos & Hsz & _).
    rewrite IH; [apply take_drop | rewrite length_drop; cbn [String.length] in *; lia | assumption].
Qed.

Lemma coerce_valid (s : string) : utf8.ValidString s = true -> json.coerce s = s.
Proof. apply coerce_loop_valid. lia. Qed.

Lemma literal_encodeString (s tl : string) :
  json.literal (json.encodeString s ++ tl) = Some (json.coerce s, tl).
Proof.
  unfold json.literal, json.encodeString, json.coerce.
  cbn [append json.expect]. rewrite Ascii.eqb_refl.
  rewrite append_assoc. cbn [append].
  apply unquote_string_loop; [lia|].
  rewrite length_append. cbn [String.length]. lia.
Qed.

(** *** A marshalled struct and its content *)

Lemma members_present (fields : list (string * string)) :
  json.members fields = map json_member (filter present fields).
Proof.
  induction fields as [|[name value] rest IH]; [reflexivity|].
  cbn [json.members filter]. unfold present at 1. cbn [snd].
  destruct (String.eqb value ""); cbn [negb]; [exact IH|].
  cbn [map]. now rewrite IH.
Qed.

Lemma json_member_head (field : string * string) :
  exists body, json_member field = String json.DQUOTE body.
Proof. unfold json_member, json.encodeString. cbn [append]. eauto. Qed.

Lemma Join_members_length (l : list (string * string)) :
  List.length l <= String.length (strings.Join (map json_member l) ",").
Proof.
  induction l as [|x l IH]; [simpl; lia|].
  destruct (json_member_head x) as [body Hx].
  destruct l as [|y l].
  - cbn [map strings.Join]. rewrite Hx. simpl. lia.
  - cbn [map]. rewrite Join_cons by discriminate.
    rewrite length_append, Hx. cbn [map] in IH. simpl in *. lia.
Qed.

Lemma parse_members_Join (l : list (string * string)) :
  forall fuel,
    l <> [] -> List.length l <= fuel ->
    json.parse_members fuel (strings.Join (map json_member l) "," ++ "}")
    = Some (map decoded l).
Proof.
  induction l as [|[name value] l IH]; intros fuel Hne Hfuel; [congruence|].
  destruct fuel as [|fuel]; [simpl in Hfuel; lia|].
  destruct l as [|y l].
  - cbn [map strings.Join]. unfold json_member. cbn [fst snd].
    rewrite !append_assoc. cbn [json.parse_members].
    rewrite literal_encodeString. cbn [append json.expect]. rewrite Ascii.eqb_refl.
    rewrite literal_encodeString. reflexivity.
  - cbn [map]. rewrite Join_cons by discriminate.
    unfold json_member at 1. cbn [fst snd].
    rewrite !append_assoc. cbn [json.parse_members].
    rewrite literal_encodeString. cbn [append json.expect]. rewrite Ascii.eqb_refl.
    rewrite literal_encodeString. cbn [append].
    cbn [map] in IH. rewrite IH; [reflexivity | discriminate | simpl in *; lia].
Qed.

Lemma parseObject_members (c : ascii) (rest : string) :
  c = json.DQUOTE ->
  json.parseObject (String "{" (String c rest))
  = json.parse_members (String.length (String c rest)) (String c rest).
Proof. intros ->. reflexivity. Qed.

(** The members of the document that [marshalStruct] writes are the fields
    that are not empty, names and values coerced to UTF-8. *)
Lemma parseObject_marshalStruct (fields : list (string * string)) :
  json.parseObject (json.marshalStruct fields)
  = Some (map decoded (filter present fields)).
Proof.
  unfold json.marshalStruct. rewrite members_present.
  destruct (filter present fields) as [|x l] eqn:Hl; [reflexivity|].
  cbn [append].
  pose proof (Join_members_length (x :: l)) as Hlen.
  pose proof (parse_members_Join (x :: l)) as Hparse.
  destruct (json_member_head x) as [body Hx].
  assert (exists rest,
            (strings.Join (map json_member (x :: l)) "," ++ "}")%string
            = String json.DQUOTE rest) as [rest Hrest].
  { destruct l; cbn [map strings.Join]; rewrite Hx; cbn [append]; eauto. }
  rewrite Hrest, parseObject_members by reflexivity.
  rewrite <- Hrest. apply Hparse; [discriminate|].
  rewrite length_append. lia.
Qed.

(** Splits on a field being empty. *)
Ltac empty_or_not x :=
  let H := fresh "H" in
  destruct (String.eqb x "") eqn:H; [apply String.eqb_eq in H; subst x|].

(** What [Unmarshal] reads from what [Marshal] wrote. *)
Lemma Unmarshal_Marshal (a : AuthConfig) :
  Unmarshal (Marshal a) = Some (coerceAuth a).
Proof.
  unfold Unmarshal, Marshal. rewrite parseObject_marshalStruct.
  destruct a as [u p au em sa it rt]. unfold coerceAuth.
  cbn [Username Password Auth Email ServerAddress IdentityToken RegistryToken
       filter]. unfold present. cbn [snd].
  empty_or_not u; empty_or_not p; empty_or_not au; empty_or_not em;
    empty_or_not sa; empty_or_not it; empty_or_not rt; reflexivity.
Qed.

(** *** The base64 encoding and its decoding *)

Lemma testbit_small (x k n : N) :
  (x < 2 ^ k)%N -> (k <= n)%N -> N.testbit x n = false.
Proof.
  intros Hx Hn. destruct (N.eq_dec x 0) as [->|Hx0]; [apply N.bits_0|].
  apply N.bits_above_log2. apply N.log2_lt_pow2; [lia|].
  eapply N.lt_le_trans; [exact Hx|]. apply N.pow_le_mono_r; lia.
Qed.

Lemma land_shiftl_small (y x k : N) :
  (x < 2 ^ k)%N -> N.land (N.shiftl y k) x = 0%N.
Proof.
  intros Hx. apply N.bits_inj. intros n. rewrite N.land_spec, N.bits_0.
  destruct (N.lt_ge_cases n k).
  - now rewrite N.shiftl_spec_low.
  - now rewrite (testbit_small x k n), andb_false_r.
Qed.

(** Bits put side by side add up. *)
Lemma lor_mul_add (y x k : N) :
  (x < 2 ^ k)%N -> N.lor (y * 2 ^ k) x = (y * 2 ^ k + x)%N.
Proof.
  intros Hx. rewrite <- N.shiftl_mul_pow2.
  rewrite <- N.lxor_lor by now apply land_shiftl_small.
  symmetry. apply N.add_nocarry_lxor. now apply land_shiftl_small.
Qed.

Lemma pack_bytes (a b c : N) :
  (a < 256)%N -> (b < 256)%N -> (c < 256)%N ->
  N.lor (N.lor (N.shiftl a 16) (N.shiftl b 8)) c = (a * 65536 + b * 256 + c)%N.
Proof.
  intros Ha Hb Hc. rewrite !N.shiftl_mul_pow2.
  pose proof (lor_mul_add a (b * 256) 16) as H1.
  pose proof (lor_mul_add (a * 256 + b) c 8) as H2.
  change (2 ^ 16)%N with 65536%N in *. change (2 ^ 8)%N with 256%N in *.
  rewrite H1 by lia.
  replace (a * 65536 + b * 256)%N with ((a * 256 + b) * 256)%N by lia.
  rewrite H2 by lia. lia.
Qed.

Lemma pack_sextets (d0 d1 d2 d3 : N) :
  (d0 < 64)%N -> (d1 < 64)%N -> (d2 < 64)%N -> (d3 < 64)%N ->
  N.lor (N.lor (N.lor (N.shiftl d0 18) (N.shiftl d1 12)) (N.shiftl d2 6)) d3
  = (d0 * 262144 + d1 * 4096 + d2 * 64 + d3)%N.
Proof.
  intros H0 H1 H2 H3. rewrite !N.shiftl_mul_pow2.
  pose proof (lor_mul_add d0 (d1 * 4096) 18) as E1.
  pose proof (lor_mul_add (d0 * 64 + d1) (d2 * 64) 12) as E2.
  pose proof (lor_mul_add ((d0 * 64 + d1) * 64 + d2) d3 6) as E3.
  change (2 ^ 18)%N with 262144%N in *. change (2 ^ 12)%N with 4096%N in *.
  change (2 ^ 6)%N with 64%N in *.
  rewrite E1 by lia.
  replace (d0 * 262144 + d1 * 4096)%N with ((d0 * 64 + d1) * 4096)%N by lia.
  rewrite E2 by lia.
  replace ((d0 * 64 + d1) * 4096 + d2 * 64)%N
    with (((d0 * 64 + d1) * 64 + d2) * 64)%N by lia.
  rewrite E3 by lia. lia.
Qed.

Lemma sextet_div (val k : N) :
  base64.sextet val k = base64.enc ((val / 2 ^ k) mod 64).
Proof.
  unfold base64.sextet. rewrite N.shiftr_div_pow2.
  change 63%N with (N.ones 6). now rewrite N.land_ones.
Qed.

Lemma octet_div (val k : N) :
  base64.octet val k = ascii_of_N ((val / 2 ^ k) mod 256).
Proof.
  unfold base64.octet. rewrite N.shiftr_div_pow2.
  change 255%N with (N.ones 8). now rewrite N.land_ones.
Qed.

Lemma dec_enc (i : N) : (i < 64)%N -> base64.dec (base64.enc i) = Some i.
Proof.
  intros H. remember (N.to_nat i) as n eqn:Hn.
  assert (n < 64) as Hlt by lia.
  replace i with (N.of_nat n) by (subst n; apply N2Nat.id).
  clear i H Hn.
  do 64 (destruct n as [|n]; [reflexivity|]). lia.
Qed.

Lemma enc_not_padding (i : N) :
  (i < 64)%N -> Ascii.eqb (base64.enc i) base64.StdPadding = false.
Proof.
  intros H. destruct (Ascii.eqb _ _) eqn:E; [|reflexivity].
  apply Ascii.eqb_eq in E. pose proof (dec_enc i H) as D.
  rewrite E in D. discriminate D.
Qed.

Lemma byte_bound (c : ascii) : (N_of_ascii c < 256)%N.
Proof. apply N_ascii_bounded. Qed.

(** Decoding the quantum that encodes three bytes gives the bytes. *)
Lemma quantum_of_three (a b c : N) :
  (a < 256)%N -> (b < 256)%N -> (c < 256)%N ->
  let val := (a * 65536 + b * 256 + c)%N in
  let d0 := ((val / 2 ^ 18) mod 64)%N in
  let d1 := ((val / 2 ^ 12) mod 64)%N in
  let d2 := ((val / 2 ^ 6) mod 64)%N in
  let d3 := ((val / 2 ^ 0) mod 64)%N in
  (d0 < 64 /\ d1 < 64 /\ d2 < 64 /\ d3 < 64)%N /\
  let back := (d0 * 262144 + d1 * 4096 + d2 * 64 + d3)%N in
  ((back / 2 ^ 16) mod 256 = a /\ (back / 2 ^ 8) mod 256 = b
   /\ (back / 2 ^ 0) mod 256 = c)%N.
Proof.
  intros Ha Hb Hc. cbv zeta.
  change (2 ^ 18)%N with 262144%N. change (2 ^ 12)%N with 4096%N.
  change (2 ^ 6)%N with 64%N. change (2 ^ 0)%N with 1%N.
  change (2 ^ 16)%N with 65536%N. change (2 ^ 8)%N with 256%N.
  repeat split; zify; Z.to_euclidean_division_equations; lia.
Qed.

Lemma pack_sextets_3 (d0 d1 d2 : N) :
  (d0 < 64)%N -> (d1 < 64)%N -> (d2 < 64)%N ->
  N.lor (N.lor (N.shiftl d0 18) (N.shiftl d1 12)) (N.shiftl d2 6)
  = (d0 * 262144 + d1 * 4096 + d2 * 64)%N.
Proof.
  intros H0 H1 H2.
  pose proof (pack_sextets d0 d1 d2 0 H0 H1 H2 ltac:(lia)) as H.
  rewrite N.lor_0_r in H. lia.
Qed.

Lemma pack_sextets_2 (d0 d1 : N) :
  (d0 < 64)%N -> (d1 < 64)%N ->
  N.lor (N.shiftl d0 18) (N.shiftl d1 12) = (d0 * 262144 + d1 * 4096)%N.
Proof.
  intros H0 H1.
  pose proof (pack_sextets_3 d0 d1 0 H0 H1 ltac:(lia)) as H.
  rewrite N.shiftl_0_l, N.lor_0_r in H. lia.
Qed.

Lemma DecodeString_three (a b c : ascii) (rest : string) :
  base64.DecodeString
    (base64.EncodeToString (String a (String b (String c rest))))
  = match base64.DecodeString (base64.EncodeToString rest) with
    | Some bytes => Some (String a (String b (String c bytes)))
    | None => None
    end.
Proof.
  cbn [base64.EncodeToString]. cbv zeta.
  rewrite pack_bytes by apply byte_bound.
  rewrite !sextet_div.
  destruct (quantum_of_three (N_of_ascii a) (N_of_ascii b) (N_of_ascii c)
              (byte_bound a) (byte_bound b) (byte_bound c))
    as ((H0 & H1 & H2 & H3) & Ha & Hb & Hc).
  cbv zeta in *.
  set (val := (N_of_ascii a * 65536 + N_of_ascii b * 256 + N_of_ascii c)%N) in *.
  cbn [base64.DecodeString].
  rewrite !dec_enc by assumption.
  rewrite !enc_not_padding by assumption.
  cbv zeta. rewrite pack_sextets by assumption.
  rewrite !octet_div, Ha, Hb, Hc, !ascii_N_embedding.
  reflexivity.
Qed.

Lemma quantum_of_two (a b : N) :
  (a < 256)%N -> (b < 256)%N ->
  let val := (a * 65536 + b * 256)%N in
  let d0 := ((val / 2 ^ 18) mod 64)%N in
  let d1 := ((val / 2 ^ 12) mod 64)%N in
  let d2 := ((val / 2 ^ 6) mod 64)%N in
  (d0 < 64 /\ d1 < 64 /\ d2 < 64)%N /\
  let back := (d0 * 262144 + d1 * 4096 + d2 * 64)%N in
  ((back / 2 ^ 16) mod 256 = a /\ (back / 2 ^ 8) mod 256 = b)%N.
Proof.
  intros Ha Hb. cbv zeta.
  change (2 ^ 18)%N with 262144%N. change (2 ^ 12)%N with 4096%N.
  change (2 ^ 6)%N with 64%N.
  change (2 ^ 16)%N with 65536%N. change (2 ^ 8)%N with 256%N.
  repeat split; zify; Z.to_euclidean_division_equations; lia.
Qed.

Lemma quantum_of_one (a : N) :
  (a < 256)%N ->
  let val := (a * 65536)%N in
  let d0 := ((val / 2 ^ 18) mod 64)%N in
  let d1 := ((val / 2 ^ 12) mod 64)%N in
  (d0 < 64 /\ d1 < 64)%N /\
  (((d0 * 262144 + d1 * 4096) / 2 ^ 16) mod 256 = a)%N.
Proof.
  intros Ha. cbv zeta.
  change (2 ^ 18)%N with 262144%N. change (2 ^ 12)%N with 4096%N.
  change (2 ^ 16)%N with 65536%N.
  repeat split; zify; Z.to_euclidean_division_equations; lia.
Qed.

Lemma DecodeString_two (a b : ascii) :
  base64.DecodeString (base64.EncodeToString (String a (String b "")))
  = Some (String a (String b "")).
Proof.
  cbn [base64.EncodeToString]. cbv zeta.
  pose proof (pack_bytes (N_of_ascii a) (N_of_ascii b) 0
                (byte_bound a) (byte_bound b) ltac:(lia)) as Hval.
  rewrite N.lor_0_r, N.add_0_r in Hval. rewrite Hval.
  rewrite !sextet_div.
  destruct (quantum_of_two (N_of_ascii a) (N_of_ascii b)
              (byte_bound a) (byte_bound b))
    as ((H0 & H1 & H2) & Ha & Hb).
  cbv zeta in *.
  set (val := (N_of_ascii a * 65536 + N_of_ascii b * 256)%N) in *.
  cbn [base64.DecodeString].
  rewrite !dec_enc by assumption.
  rewrite !enc_not_padding by assumption.
  cbn [Ascii.eqb Bool.eqb base64.StdPadding String.eqb].
  cbv zeta. rewrite pack_sextets_3 by assumption.
  rewrite !octet_div, Ha, Hb, !ascii_N_embedding.
  reflexivity.
Qed.

Lemma DecodeString_one (a : ascii) :
  base64.DecodeString (base64.EncodeToString (String a ""))
  = Some (String a "").
Proof.
  cbn [base64.EncodeToString]. cbv zeta.
  rewrite N.shiftl_mul_pow2. change (2 ^ 16)%N with 65536%N.
  rewrite !sextet_div.
  destruct (quantum_of_one (N_of_ascii a) (byte_bound a)) as ((H0 & H1) & Ha).
  cbv zeta in *.
  set (val := (N_of_ascii a * 65536)%N) in *.
  cbn [base64.DecodeString].
  rewrite !dec_enc by assumption.
  cbn [Ascii.eqb Bool.eqb base64.StdPadding String.eqb andb].
  cbv zeta. rewrite pack_sextets_2 by assumption.
  rewrite !octet_div, Ha, !ascii_N_embedding.
  reflexivity.
Qed.

(** Decoding the encoding of a byte sequence gives the sequence. *)
Lemma DecodeString_EncodeToString (src : string) :
  base64.DecodeString (base64.EncodeToString src) = Some src.
Proof.
  remember (String.length src) as n eqn:Hn.
  assert (String.length src <= n) as Hlen by lia. clear Hn.
  revert src Hlen. induction n as [|n IH]; intros src Hlen.
  - destruct src; [reflexivity | simpl in Hlen; lia].
  - destruct src as [|a [|b [|c rest]]];
      [reflexivity | apply DecodeString_one | apply DecodeString_two |].
    rewrite DecodeString_three, IH; [reflexivity | simpl in Hlen; lia].
Qed.

(** *** The options of a pull *)

Lemma EncodeToString_empty (src : string) :
  base64.EncodeToString src = "" -> src = "".
Proof. destruct src as [|a [|b [|c rest]]]; [reflexivity | discriminate ..]. Qed.

Lemma Marshal_not_empty (a : AuthConfig) : Marshal a <> "".
Proof. unfold Marshal, json.marshalStruct. cbn [append]. discriminate. Qed.

Section Credentials.

Context {W : World}.

Lemma GetEnvOrDefault_empty (key : string) : env.GetEnvOrDefault key "" = os_Getenv key.
Proof.
  unfold env.GetEnvOrDefault.
  destruct (String.eqb (os_Getenv key) "") eqn:E; [|reflexivity].
  apply String.eqb_eq in E. now rewrite E.
Qed.

Lemma setPullOptions_credentials (d : API) :
  setPullOptions d =
  if negb (String.eqb (Username credentials) "")
     && negb (String.eqb (Password credentials) "")
  then {| RegistryAuth := base64.EncodeToString (Marshal credentials) |}
  else {| RegistryAuth := "" |}.
Proof. reflexivity. Qed.

(** C5, as the code has it. The pull options carry a registry-auth token
    exactly when the user name and the password of the environment are both
    non-empty. The token is then the base64 encoding, in the URL alphabet,
    of a JSON document, to which it decodes, and whose content is the user name, the password and the
    server address with every byte that is not part of a well-formed UTF-8
    sequence replaced by U+FFFD: it is the three values themselves when they
    are valid UTF-8. When either credential is empty no token is set. *)
Theorem pull_options_token (d : API) :
  let username := os_Getenv "HORUSEC_CLI_REGISTRY_USERNAME" in
  let password := os_Getenv "HORUSEC_CLI_REGISTRY_PASSWORD" in
  let address := os_Getenv "HORUSEC_CLI_REGISTRY_ADDRESS" in
  let token := RegistryAuth (setPullOptions d) in
  (token <> "" <-> username <> "" /\ password <> "") /\
  (username <> "" -> password <> "" ->
   exists doc,
     token = base64.EncodeToString doc /\
     base64.DecodeString token = Some doc /\
     Unmarshal doc
     = Some {| Username := json.coerce username;
               Password := json.coerce password;
               Auth := "";
               Email := "";
               ServerAddress := json.coerce address;
               IdentityToken := "";
               RegistryToken := "" |} /\
     (utf8.ValidString username = true ->
      utf8.ValidString password = true ->
      utf8.ValidString address = true ->
      Unmarshal doc
      = Some {| Username := username;
                Password := password;
                Auth := "";
                Email := "";
                ServerAddress := address;
                IdentityToken := "";
                RegistryToken := "" |})).
Proof.
  intros username password address token.
  subst token. rewrite setPullOptions_credentials.
  assert (HU : Username credentials = username)
    by apply GetEnvOrDefault_empty.
  assert (HP : Password credentials = password)
    by apply GetEnvOrDefault_empty.
  rewrite HU, HP.
  assert (Hdoc : Unmarshal (Marshal credentials)
                 = Some {| Username := json.coerce username;
                           Password := json.coerce password;
                           Auth := "";
                           Email := "";
                           ServerAddress := json.coerce address;
                           IdentityToken := "";
                           RegistryToken := "" |}).
  { rewrite Unmarshal_Marshal. unfold coerceAuth, credentials.
    cbn [Username Password Auth Email ServerAddress IdentityToken RegistryToken].
    rewrite !GetEnvOrDefault_empty. reflexivity. }
  destruct (String.eqb username "") eqn:Hu; cbn [negb andb RegistryAuth].
  - apply String.eqb_eq in Hu. split.
    + split; [congruence | intros [H _]; congruence].
    + intros H. congruence.
  - apply String.eqb_neq in Hu.
    destruct (String.eqb password "") eqn:Hp; cbn [negb RegistryAuth].
    + apply String.eqb_eq in Hp. split.
      * split; [congruence | intros [_ H]; congruence].
      * intros _ H. congruence.
    + apply String.eqb_neq in Hp. split.
      * split; [intros _; now split | intros _ H].
        apply EncodeToString_empty in H. now apply Marshal_not_empty in H.
      * intros _ _. exists (Marshal credentials).
        split; [reflexivity|].
        split; [apply DecodeString_EncodeToString|]. split; [exact Hdoc|].
        intros Vu Vp Va. rewrite Hdoc.
        now rewrite (coerce_valid _ Vu), (coerce_valid _ Vp), (coerce_valid _ Va).
Qed.

End Credentials.

Example pull_options_run :
  RegistryAuth
    (@setPullOptions
       (unix_world (credentials_env "robot$ci" "s3cr<t" "registry.example.com:5000"))
       (sample_api healthy_client))
  = "eyJ1c2VybmFtZSI6InJvYm90JGNpIiwicGFzc3dvcmQiOiJzM2NyXHUwMDNjdCIsInNlcnZlcmFkZHJlc3MiOiJyZWdpc3RyeS5leGFtcGxlLmNvbTo1MDAwIn0=".
Proof. vm_compute. reflexivity. Qed.

(** C5 as stated fails on a user name that is not UTF-8: with the user
    name of the one byte 0xFF and the password [secret], the token decodes
    to a document whose user name is U+FFFD, three bytes, and not the user
    name of the environment. *)
Lemma pull_options_token_not_utf8 :
  RegistryAuth
    (@setPullOptions (unix_world (credentials_env latin1_name "secret" ""))
       (sample_api healthy_client))
  = "eyJ1c2VybmFtZSI6Ilx1ZmZmZCIsInBhc3N3b3JkIjoic2VjcmV0In0=" /\
  (exists doc,
     base64.DecodeString "eyJ1c2VybmFtZSI6Ilx1ZmZmZCIsInBhc3N3b3JkIjoic2VjcmV0In0="
     = Some doc /\
     Unmarshal doc
     = Some {| Username := json.REPLACEMENT;
               Password := "secret";
               Auth := "";
               Email := "";
               ServerAddress := "";
               IdentityToken := "";
               RegistryToken := "" |} /\
     Unmarshal doc
     <> Some {| Username := latin1_name;
                Password := "secret";
                Auth := "";
                Email := "";
                ServerAddress := "";
                IdentityToken := "";
                RegistryToken := "" |}).
Proof.
  split; [vm_compute; reflexivity|].
  eexists. split; [vm_compute; reflexivity|].
  split; [vm_compute; reflexivity|].
  vm_compute. discriminate.
Qed.

Lemma pull_options_token_witness :
  os_Getenv (World := unix_world (credentials_env "robot$ci" "s3cr<t" ""))
    "HORUSEC_CLI_REGISTRY_USERNAME" <> "" /\
  os_Getenv (World := unix_world (credentials_env "robot$ci" "s3cr<t" ""))
    "HORUSEC_CLI_REGISTRY_PASSWORD" <> "" /\
  exists doc,
    RegistryAuth
      (@setPullOptions (unix_world (credentials_env "robot$ci" "s3cr<t" ""))
         (sample_api healthy_client))
    = base64.EncodeToString doc /\
    base64.DecodeString
      (RegistryAuth
         (@setPullOptions (unix_world (credentials_env "robot$ci" "s3cr<t" ""))
            (sample_api healthy_client)))
    = Some doc /\
    Unmarshal doc
    = Some {| Username := "robot$ci";
              Password := "s3cr<t";
              Auth := "";
              Email := "";
              ServerAddress := "";
              IdentityToken := "";
              RegistryToken := "" |}.
Proof.
  split; [discriminate|]. split; [discriminate|].
  destruct (proj2 (@pull_options_token
                     (unix_world (credentials_env "robot$ci" "s3cr<t" ""))
                     (sample_api healthy_client)))
    as (doc & Htoken & Hdecode & _ & Hvalid); [discriminate | discriminate |].
  exists doc. split; [exact Htoken|]. split; [exact Hdecode|].
  apply Hvalid; reflexivity.
Defined.

(** ** The per-run path on Unix

    [filepath.Join] of Unix keeps the run identifier as the last element of
    the path, so the per-run path is never too short for the slice
    [path[1:2]]. The identifier is the string of a UUID: it is not empty,
    holds no separator and is neither [.] nor [..]. *)

Lemma element_name_spec (id : string) :
  element_name id = true ->
  occurs "/" id = false /\ id <> "" /\ id <> "." /\ id <> "..".
Proof.
  unfold element_name. intros H.
  repeat (apply andb_true_iff in H as [H ?]).
  repeat match goal with
         | H : negb _ = true |- _ => apply negb_true_iff in H
         end.
  repeat split; try (now apply String.eqb_neq); assumption.
Qed.

Lemma element_identifier_tail (s : string) :
  occurs "/" s = false ->
  filepath_unix.element s = (list_ascii_of_string s, "").
Proof.
  induction s as [|c s IH]; [reflexivity|].
  cbn [occurs filepath_unix.element list_ascii_of_string].
  unfold filepath_unix.IsPathSeparator, filepath_unix.Separator.
  intros H. apply orb_false_iff in H as [Hc Hs].
  rewrite Hc, (IH Hs). reflexivity.
Qed.

(** The element at the head of a path that goes on with a separator and
    the identifier stops before that separator. *)
Lemma element_before_identifier (id p : string) :
  exists e q,
    filepath_unix.element (p ++ String "/" id) = (e, (q ++ String "/" id)%string) /\
    String.length q <= String.length p /\
    (forall c p1, p = String c p1 -> filepath_unix.IsPathSeparator c = false ->
                  String.length q <= String.length p1).
Proof.
  induction p as [|c p IH].
  - exists [], "". cbn. repeat split; [lia | discriminate].
  - cbn [append filepath_unix.element].
    destruct (filepath_unix.IsPathSeparator c) eqn:Hc.
    + exists [], (String c p). repeat split; [lia|].
      intros c' p1 [= <- <-]. congruence.
    + destruct IH as (e & q & He & Hq & _). rewrite He.
      exists (c :: e), q. repeat split; [simpl; lia|].
      now intros c' p1 [= <- <-].
Qed.

(** The loop on the identifier alone appends it to the buffer. *)
Lemma clean_loop_identifier (id : string) (fuel : nat) (rooted : bool)
  (out : list ascii) (dotdot : nat) :
  element_name id = true ->
  1 <= fuel ->
  exists out',
    filepath_unix.clean_loop fuel rooted id out dotdot
    = List.rev (list_ascii_of_string id) ++ out'.
Proof.
  intros Hid Hfuel. destruct fuel as [|fuel]; [lia|].
  destruct (element_name_spec id Hid)
    as (Hsep & id_not_empty & id_not_dot & id_not_dotdot).
  destruct id as [|c r]; [congruence|].
  cbn [occurs] in Hsep. apply orb_false_iff in Hsep as [Hc Hr].
  cbn [filepath_unix.clean_loop].
  unfold filepath_unix.IsPathSeparator at 1. unfold filepath_unix.Separator at 1.
  rewrite Hc.
  assert (Hdot : Ascii.eqb c "." && filepath_unix.boundary r = false).
  { destruct (Ascii.eqb c ".") eqn:E; [|reflexivity].
    apply Ascii.eqb_eq in E. subst c.
    destruct r as [|c2 r2]; [congruence|].
    cbn [occurs] in Hr. apply orb_false_iff in Hr as [Hc2 _].
    cbn. unfold filepath_unix.IsPathSeparator, filepath_unix.Separator.
    now rewrite Hc2. }
  assert (Hdotdot : Ascii.eqb c "." && strings.HasPrefix r "."
                    && filepath_unix.boundary (drop 1 r) = false).
  { destruct (Ascii.eqb c ".") eqn:E; [|reflexivity].
    apply Ascii.eqb_eq in E. subst c.
    destruct r as [|c2 r2]; [reflexivity|].
    cbn [strings.HasPrefix andb]. rewrite HasPrefix_nil, andb_true_r.
    destruct (Ascii.eqb "." c2) eqn:E2; [|reflexivity].
    apply Ascii.eqb_eq in E2. subst c2.
    destruct r2 as [|c3 r3]; [congruence|].
    cbn [occurs] in Hr. apply orb_false_iff in Hr as [_ Hr].
    apply orb_false_iff in Hr as [Hc3 _].
    cbn. unfold filepath_unix.IsPathSeparator, filepath_unix.Separator.
    now rewrite Hc3. }
  rewrite Hdot, Hdotdot.
  rewrite element_identifier_tail
    by (cbn [occurs]; now rewrite Hc, Hr).
  eexists. destruct fuel; reflexivity.
Qed.

(** The loop on a path that ends with a separator and the identifier
    leaves the identifier on top of the buffer. *)
Lemma clean_loop_keeps_identifier (id : string) (fuel : nat) :
  element_name id = true ->
  forall (rooted : bool) (p : string) (out : list ascii) (dotdot : nat),
    String.length (p ++ String "/" id) <= fuel ->
    exists out',
      filepath_unix.clean_loop fuel rooted (p ++ String "/" id) out dotdot
      = List.rev (list_ascii_of_string id) ++ out'.
Proof.
  intros Hname.
  induction fuel as [|fuel IH]; intros rooted p out dotdot Hfuel.
  - rewrite length_append in Hfuel. simpl in Hfuel. lia.
  - assert (Hid : 1 <= String.length id)
      by (destruct id; [discriminate Hname | simpl; lia]).
    rewrite length_append in Hfuel. cbn [String.length] in Hfuel.
    destruct p as [|c p1].
    + cbn [append filepath_unix.clean_loop].
      apply clean_loop_identifier; [assumption | lia].
    + cbn [String.length] in Hfuel.
      assert (Hnext : String.length (p1 ++ String "/" id) <= fuel)
        by (rewrite length_append; cbn [String.length]; lia).
      cbn [append filepath_unix.clean_loop].
      destruct (filepath_unix.IsPathSeparator c) eqn:Hc; [now apply IH|].
      destruct (Ascii.eqb c "." && filepath_unix.boundary (p1 ++ String "/" id));
        [now apply IH|].
      destruct (Ascii.eqb c "." && strings.HasPrefix (p1 ++ String "/" id) "."
                && filepath_unix.boundary (drop 1 (p1 ++ String "/" id))) eqn:Hdd.
      * apply andb_true_iff in Hdd as [Hdd _].
        apply andb_true_iff in Hdd as [_ Hpre].
        destruct p1 as [|c2 p2]; [discriminate Hpre|].
        cbn [append drop].
        assert (Hnext2 : String.length (p2 ++ String "/" id) <= fuel)
          by (rewrite length_append in *; cbn [String.length] in *; lia).
        destruct out as [|x out'].
        -- destruct (negb rooted); now apply IH.
        -- destruct (Nat.ltb dotdot (List.length (x :: out'))); [now apply IH|].
           destruct (negb rooted); now apply IH.
      * destruct (element_before_identifier id (String c p1))
          as (e & q & He & _ & Hq).
        cbn [append] in He. rewrite He.
        apply IH. specialize (Hq c p1 eq_refl Hc).
        rewrite length_append. cbn [String.length]. lia.
Qed.

Lemma string_of_list_ascii_app (a b : list ascii) :
  string_of_list_ascii (a ++ b)
  = (string_of_list_ascii a ++ string_of_list_ascii b)%string.
Proof. induction a; simpl; congruence. Qed.

(** [Clean] keeps the identifier at the end of the path. *)
Lemma Clean_keeps_identifier (id pre : string) :
  element_name id = true ->
  pre <> "" ->
  exists head, filepath_unix.Clean (pre ++ String "/" id) = (head ++ id)%string.
Proof.
  intros Hname Hpre. destruct pre as [|c pre']; [congruence|].
  assert (Hend : forall out',
             exists head,
               match List.rev (list_ascii_of_string id) ++ out' with
               | [] => "."
               | x :: l =>
                   string_of_list_ascii
                     (List.rev (List.rev (list_ascii_of_string id) ++ out'))
               end = (head ++ id)%string).
  { intros out'.
    destruct (List.rev (list_ascii_of_string id) ++ out') as [|x l] eqn:E.
    - apply app_eq_nil in E as [E _].
      apply (f_equal (@List.rev ascii)) in E. rewrite rev_involutive in E.
      destruct id; [discriminate Hname | discriminate].
    - rewrite <- E, rev_app_distr, rev_involutive, string_of_list_ascii_app.
      rewrite string_of_list_ascii_of_string. eauto. }
  unfold filepath_unix.Clean. cbn [append drop].
  destruct (filepath_unix.IsPathSeparator c).
  - destruct (clean_loop_keeps_identifier id
                (String.length (String c (pre' ++ String "/" id))) Hname
                true pre' [filepath_unix.Separator] 1) as [out' Hout];
      [simpl; lia|].
    rewrite Hout. apply Hend.
  - destruct (clean_loop_keeps_identifier id
                (String.length (String c (pre' ++ String "/" id))) Hname
                false (String c pre') [] 0) as [out' Hout];
      [simpl; lia|].
    cbn [append] in Hout. rewrite Hout. apply Hend.
Qed.

(** [Join] of a base, the segment [.horusec] and the identifier ends with
    the identifier. *)
Lemma Join_keeps_identifier (id base : string) :
  element_name id = true ->
  exists head,
    filepath_unix.Join [base; ".horusec"; id] = (head ++ id)%string.
Proof.
  intros Hname. cbn [filepath_unix.Join].
  destruct (String.eqb base "") eqn:E.
  - cbn [String.eqb Ascii.eqb Bool.eqb]. cbn [strings.Join].
    apply (Clean_keeps_identifier id ".horusec"); [assumption | discriminate].
  - apply String.eqb_neq in E. cbn [strings.Join].
    replace (base ++ String filepath_unix.Separator ""
             ++ ".horusec" ++ String filepath_unix.Separator "" ++ id)%string
      with ((base ++ "/.horusec") ++ String "/" id)%string
      by (now rewrite append_assoc).
    apply Clean_keeps_identifier; [assumption|].
    destruct base; [congruence | discriminate].
Qed.


Lemma get_second_exists (s : string) :
  2 <= String.length s -> exists c, String.get 1 s = Some c.
Proof.
  destruct s as [|c0 [|c1 s]]; simpl; intros H; try lia. eauto.
Qed.

(** On Unix the per-run path of a run whose identifier is a name of two
    bytes or more has a second byte: the slice of [getSourceFolder] does not
    panic, and the mount source is the per-run path unless that byte is the
    drive separator. *)
Lemma getSourceFolder_never_short_on_unix (getenv : string -> string) (d : API) :
  element_name (UUID_String (analysisID d)) = true ->
  2 <= String.length (UUID_String (analysisID d)) ->
  (exists c1, String.get 1 (@perRunPath (unix_world getenv) d) = Some c1) /\
  (String.get 1 (@perRunPath (unix_world getenv) d) <> Some ":"%char ->
   @getSourceFolder (unix_world getenv) d
   = Some (@perRunPath (unix_world getenv) d)).
Proof.
  intros Hname Hlen.
  assert (exists c1, String.get 1 (@perRunPath (unix_world getenv) d) = Some c1)
    as [c1 Hget].
  { unfold perRunPath. cbn [filepath_Join unix_world].
    match goal with
    | |- context [filepath_unix.Join [?base; _; _]] =>
        destruct (Join_keeps_identifier (UUID_String (analysisID d)) base Hname)
          as [head Hjoin]
    end.
    rewrite Hjoin. apply get_second_exists. rewrite length_append. lia. }
  split; [eauto|]. intros Hne.
  rewrite getSourceFolder_perRunPath, (slice_second _ _ Hget).
  cbn [String.eqb].
  destruct (Ascii.eqb c1 ":") eqn:E; [|reflexivity].
  apply Ascii.eqb_eq in E. subst c1. contradiction.
Qed.

Example sample_id_is_a_name :
  element_name (UUID_String sample_id) = true /\
  String.length (UUID_String sample_id) = 36.
Proof. split; reflexivity. Qed.

Example PullImage_cached_run :
  @PullImage (unix_world no_env) (sample_api cached_client)
    "horuszup/horusec-bandit:v1.0.1" []
  = (Done None,
     [MutexLock;
      Engine (CallImageList (referenceFilter "horuszup/horusec-bandit:v1.0.1"));
      MutexUnlock]).
Proof. vm_compute. reflexivity. Qed.

(** * Further properties of the service *)

(** ** [strings.Index] and [strings.ReplaceAll] in general *)

Lemma Index_cons (c : ascii) (s old : string) :
  strings.Index (String c s) old
  = if strings.HasPrefix (String c s) old then Some 0
    else option_map S (strings.Index s old).
Proof. reflexivity. Qed.

Lemma Index_nil (old : string) :
  old <> "" -> strings.Index "" old = None.
Proof. destruct old; [congruence | reflexivity]. Qed.

Lemma HasPrefix_length (s p : string) :
  strings.HasPrefix s p = true -> String.length p <= String.length s.
Proof.
  revert s. induction p as [|a p IH]; intros [|b s]; cbn; intros H;
    try lia; try discriminate.
  apply andb_true_iff in H as [_ H]. apply IH in H. lia.
Qed.

(** A prefix of [s] is what [s] starts with. *)
Lemma HasPrefix_split (s p : string) :
  strings.HasPrefix s p = true -> s = (p ++ drop (String.length p) s)%string.
Proof.
  revert s. induction p as [|a p IH]; intros [|b s]; cbn; intros H;
    try reflexivity; try discriminate.
  apply andb_true_iff in H as [Hab H]. apply Ascii.eqb_eq in Hab. subst b.
  now rewrite <- IH.
Qed.

(** Where [Index] finds [old], there it is, within [s]. *)
Lemma Index_found (s old : string) :
  forall j, strings.Index s old = Some j ->
  j + String.length old <= String.length s /\
  s = (take j s ++ old ++ drop (j + String.length old) s)%string.
Proof.
  induction s as [|c s IH]; intros j.
  - cbn. destruct old; [|discriminate]. intros [= <-]. split; reflexivity.
  - rewrite Index_cons.
    destruct (strings.HasPrefix (String c s) old) eqn:Hp.
    + intros [= <-]. split; [apply HasPrefix_length in Hp; lia|].
      cbn [take Nat.add append]. now apply HasPrefix_split.
    + destruct (strings.Index s old) as [j'|]; [|discriminate].
      intros [= <-]. destruct (IH j' eq_refl) as [Hlen Heq].
      split; [simpl; lia|]. cbn [take drop Nat.add append]. now rewrite <- Heq.
Qed.

Lemma replace_loop_absent (fuel : nat) (s old new : string) :
  strings.Index s old = None -> strings.replace_loop fuel s old new = s.
Proof. intros H. destruct fuel; cbn [strings.replace_loop]; now rewrite H. Qed.

(** Any fuel from the length of the string on gives the same. *)
Lemma replace_loop_fuel (old new : string) :
  old <> "" ->
  forall f1 f2 s, String.length s <= f1 -> String.length s <= f2 ->
  strings.replace_loop f1 s old new = strings.replace_loop f2 s old new.
Proof.
  intros Hold.
  assert (Hlen : 1 <= String.length old) by (destruct old; [congruence | simpl; lia]).
  induction f1 as [|f1 IH]; intros f2 s H1 H2.
  - destruct s; [|simpl in H1; lia].
    rewrite !replace_loop_absent by now apply Index_nil. reflexivity.
  - destruct f2 as [|f2].
    + destruct s; [|simpl in H2; lia].
      rewrite !replace_loop_absent by now apply Index_nil. reflexivity.
    + cbn [strings.replace_loop].
      destruct (strings.Index s old) as [j|] eqn:Hj; [|reflexivity].
      destruct (Index_found _ _ _ Hj) as [Hb _].
      do 2 f_equal. apply IH; rewrite length_drop; lia.
Qed.

(** [ReplaceAll] leaves a string without [old] as it is. *)
Lemma ReplaceAll_absent (s old new : string) :
  strings.Contains s old = false -> strings.ReplaceAll s old new = s.
Proof.
  unfold strings.Contains, strings.ReplaceAll. intros H.
  destruct (String.eqb old new); [reflexivity|].
  destruct (strings.Index s old) eqn:Hj; [discriminate|].
  destruct old; [|now apply replace_loop_absent].
  destruct s; discriminate Hj.
Qed.

(** [ReplaceAll] replaces the first instance and goes on after it. *)
Lemma ReplaceAll_found (s old new : string) (j : nat) :
  old <> "" ->
  strings.Index s old = Some j ->
  strings.ReplaceAll s old new
  = (take j s ++ new
     ++ strings.ReplaceAll (drop (j + String.length old) s) old new)%string.
Proof.
  intros Hold Hj. destruct (Index_found _ _ _ Hj) as [Hb Heq].
  unfold strings.ReplaceAll.
  destruct (String.eqb old new) eqn:E.
  - apply String.eqb_eq in E. subst new. exact Heq.
  - destruct old as [|o old']; [congruence|].
    destruct (String.length s) as [|n] eqn:Hn; [simpl in Hb; lia|].
    cbn [strings.replace_loop]. rewrite Hj. do 2 f_equal.
    apply replace_loop_fuel; [discriminate | rewrite length_drop; simpl in *; lia | lia].
Qed.

Lemma HasPrefix_first (c : ascii) (s old : string) :
  old <> "" -> occurs c old = false -> strings.HasPrefix (String c s) old = false.
Proof.
  destruct old as [|o old']; [congruence|]. intros _. cbn.
  intros H. apply orb_false_iff in H as [H _]. now rewrite H.
Qed.

(** A prefix of [p ++ rest] is a prefix of [p], or reaches the first byte
    of [rest]. *)
Lemma HasPrefix_app_cases (p rest old : string) :
  strings.HasPrefix (p ++ rest) old = true ->
  strings.HasPrefix p old = true \/
  exists c r, rest = String c r /\ occurs c old = true.
Proof.
  revert old. induction p as [|x p IH]; intros [|o old']; cbn [append].
  - now left.
  - destruct rest as [|c r]; [discriminate|]. cbn.
    intros H. apply andb_true_iff in H as [H _]. right. exists c, r. now rewrite H.
  - now left.
  - cbn. intros H. apply andb_true_iff in H as [Hx H].
    destruct (IH _ H) as [Hp|(c & r & -> & Hc)].
    + left. now rewrite Hx, Hp.
    + right. exists c, r. rewrite Hc. split; [reflexivity | apply orb_true_r].
Qed.

Lemma HasPrefix_take (j : nat) (s old : string) :
  strings.HasPrefix (take j s) old = true -> strings.HasPrefix s old = true.
Proof.
  revert s old. induction j as [|j IH]; intros [|c s] [|o old']; cbn;
    try reflexivity; try discriminate.
  intros H. apply andb_true_iff in H as [Hc H]. rewrite Hc. now apply IH.
Qed.

(** Up to the first instance of [old], and on to a string that does not
    start with a byte of [old], there is no instance. *)
Lemma Index_none_splice (old rest : string) :
  old <> "" ->
  (forall c r, rest = String c r -> occurs c old = false) ->
  strings.Index rest old = None ->
  forall s j, strings.Index s old = Some j ->
  strings.Index (take j s ++ rest) old = None.
Proof.
  intros Hold Hrest Hnone. induction s as [|c s IH]; intros j.
  - now rewrite Index_nil.
  - rewrite Index_cons.
    destruct (strings.HasPrefix (String c s) old) eqn:Hp.
    + now intros [= <-].
    + destruct (strings.Index s old) as [j'|] eqn:Hj; [|discriminate].
      intros [= <-]. cbn [take append]. rewrite Index_cons.
      destruct (strings.HasPrefix (String c (take j' s ++ rest)) old) eqn:Hq.
      * change (String c (take j' s ++ rest))
          with (take (S j') (String c s) ++ rest)%string in Hq.
        destruct (HasPrefix_app_cases _ _ _ Hq) as [H|(c0 & r & Hr & Hc)].
        -- apply HasPrefix_take in H. congruence.
        -- rewrite (Hrest _ _ Hr) in Hc. discriminate.
      * now rewrite (IH j' eq_refl).
Qed.

Lemma Index_none_new (new old rest : string) :
  old <> "" -> no_byte_of new old = true ->
  strings.Index rest old = None -> strings.Index (new ++ rest) old = None.
Proof.
  intros Hold Hnew Hrest. induction new as [|n new IH]; [exact Hrest|].
  cbn [no_byte_of] in Hnew. apply andb_true_iff in Hnew as [Hn Hnew].
  apply negb_true_iff in Hn.
  cbn [append]. rewrite Index_cons, (HasPrefix_first _ _ _ Hold Hn), (IH Hnew).
  reflexivity.
Qed.

Lemma replace_loop_no_old (old new : string) :
  old <> "" -> new <> "" -> no_byte_of new old = true ->
  forall fuel s, String.length s <= fuel ->
  strings.Index (strings.replace_loop fuel s old new) old = None.
Proof.
  intros Hold Hnew Hbytes.
  assert (Hlen : 1 <= String.length old) by (destruct old; [congruence | simpl; lia]).
  induction fuel as [|fuel IH]; intros s Hfuel.
  - destruct s; [|simpl in Hfuel; lia].
    rewrite replace_loop_absent; now apply Index_nil.
  - cbn [strings.replace_loop].
    destruct (strings.Index s old) as [j|] eqn:Hj; [|exact Hj].
    destruct (Index_found _ _ _ Hj) as [Hb _].
    apply Index_none_splice; [assumption | | | assumption].
    + destruct new as [|n new']; [congruence|].
      cbn [no_byte_of] in Hbytes. apply andb_true_iff in Hbytes as [Hn _].
      apply negb_true_iff in Hn. cbn [append]. now intros c r [= <- _].
    + apply Index_none_new; [assumption | assumption |].
      apply IH. rewrite length_drop. lia.
Qed.

(** When the replacement is not empty and shares no byte with [old],
    [ReplaceAll] leaves no instance of [old]. *)
Lemma ReplaceAll_no_old (s old new : string) :
  old <> "" -> new <> "" -> no_byte_of new old = true ->
  strings.Contains (strings.ReplaceAll s old new) old = false.
Proof.
  intros Hold Hnew Hbytes. unfold strings.Contains, strings.ReplaceAll.
  destruct (String.eqb old new) eqn:E.
  - apply String.eqb_eq in E. subst new.
    destruct old as [|o old']; [congruence|].
    cbn in Hbytes. rewrite Ascii.eqb_refl in Hbytes. discriminate.
  - destruct old as [|o old']; [congruence|].
    rewrite replace_loop_no_old; auto.
Qed.

Lemma Index_prefix (s old : string) :
  strings.HasPrefix s old = true -> strings.Index s old = Some 0.
Proof. intros H. destruct s; cbn [strings.Index]; now rewrite H. Qed.

(** ** The token of the run in the command of a tool *)

(** X1. When the identifier of the run is not empty and holds none of the
    bytes of the token [ANALYSISID], as the string of a UUID does, the
    command that [replaceCMDAnalysisID] returns holds no token any more. *)
Theorem replaceCMDAnalysisID_leaves_no_token (d : API) (cmd : string) :
  UUID_String (analysisID d) <> "" ->
  no_byte_of (UUID_String (analysisID d)) "ANALYSISID" = true ->
  strings.Contains (replaceCMDAnalysisID d cmd) "ANALYSISID" = false.
Proof.
  intros Hid Hbytes. unfold replaceCMDAnalysisID.
  apply ReplaceAll_no_old; [discriminate | assumption | assumption].
Qed.

Lemma replaceCMDAnalysisID_leaves_no_token_witness :
  UUID_String (analysisID (sample_api healthy_client)) <> "" /\
  no_byte_of (UUID_String (analysisID (sample_api healthy_client))) "ANALYSISID" = true /\
  strings.Contains
    (replaceCMDAnalysisID (sample_api healthy_client)
       "run --id ANALYSISID --out /tmp/ANALYSISID.json") "ANALYSISID" = false.
Proof.
  split; [discriminate|]. split; [reflexivity|].
  apply (replaceCMDAnalysisID_leaves_no_token (sample_api healthy_client));
    [discriminate | reflexivity].
Defined.

(** X2. [replaceCMDAnalysisID] leaves a command without the token
    [ANALYSISID] as it is; in a command with the token it writes the
    identifier of the run in place of the first token and goes on in the
    same way with what follows that token. *)
Theorem replaceCMDAnalysisID_each_token (d : API) (cmd : string) :
  (strings.Index cmd "ANALYSISID" = None -> replaceCMDAnalysisID d cmd = cmd) /\
  (forall j, strings.Index cmd "ANALYSISID" = Some j ->
     replaceCMDAnalysisID d cmd
     = (take j cmd ++ UUID_String (analysisID d)
        ++ replaceCMDAnalysisID d (drop (j + 10) cmd))%string).
Proof.
  unfold replaceCMDAnalysisID. split.
  - intros H. apply ReplaceAll_absent. unfold strings.Contains. now rewrite H.
  - intros j Hj. now rewrite (ReplaceAll_found _ _ _ j) at 1 by (discriminate || assumption).
Qed.

Lemma replaceCMDAnalysisID_each_token_witness :
  (strings.Index "semgrep --json" "ANALYSISID" = None /\
   replaceCMDAnalysisID (sample_api healthy_client) "semgrep --json" = "semgrep --json") /\
  (strings.Index "cat ANALYSISID.json" "ANALYSISID" = Some 4 /\
   replaceCMDAnalysisID (sample_api healthy_client) "cat ANALYSISID.json"
   = ("cat " ++ "3f2b8c1a-9d4e-4f6a-8b7c-0123456789ab"
      ++ replaceCMDAnalysisID (sample_api healthy_client) ".json")%string).
Proof.
  split.
  - split; [reflexivity|].
    exact (proj1 (replaceCMDAnalysisID_each_token (sample_api healthy_client)
                    "semgrep --json") eq_refl).
  - split; [reflexivity|].
    exact (proj2 (replaceCMDAnalysisID_each_token (sample_api healthy_client)
                    "cat ANALYSISID.json") 4 eq_refl).
Defined.

Section RegistryQualifier.

Context {W : World}.

(** X3. The image check treats a reference with the default registry in
    front as the reference without it: when [rest] holds no default registry
    followed by a slash, [removeRegistry] leaves [rest] as it is, takes the
    qualifier off the qualified reference, and the check of the qualified
    reference is the check of [rest], step for step. *)
Theorem image_check_ignores_leading_registry (d : API) (rest : string) (t : Trace) :
  strings.Contains rest (images_DefaultRegistry ++ "/") = false ->
  removeRegistry d rest = rest /\
  removeRegistry d ((images_DefaultRegistry ++ "/") ++ rest) = rest /\
  checkIfImageNotExists d ((images_DefaultRegistry ++ "/") ++ rest) t
  = checkIfImageNotExists d rest t.
Proof.
  intros Hrest.
  assert (Hq : (images_DefaultRegistry ++ "/")%string <> "")
    by (destruct images_DefaultRegistry; discriminate).
  assert (H1 : removeRegistry d rest = rest)
    by (now apply ReplaceAll_absent).
  assert (H2 : removeRegistry d ((images_DefaultRegistry ++ "/") ++ rest) = rest).
  { unfold removeRegistry.
    rewrite (ReplaceAll_found _ _ _ 0 Hq (Index_prefix _ _ (HasPrefix_app _ _))).
    cbn [take Nat.add append]. rewrite drop_app_exact. exact H1. }
  split; [exact H1|]. split; [exact H2|].
  rewrite !checkIfImageNotExists_run. cbv zeta. now rewrite H1, H2.
Qed.

End RegistryQualifier.

Lemma image_check_ignores_leading_registry_witness :
  strings.Contains "library/alpine:3.14"
    (images_DefaultRegistry (World := unix_world no_env) ++ "/") = false /\
  @checkIfImageNotExists (unix_world no_env) (sample_api healthy_client)
    "docker.io/library/alpine:3.14" []
  = @checkIfImageNotExists (unix_world no_env) (sample_api healthy_client)
      "library/alpine:3.14" [].
Proof.
  split; [reflexivity|].
  exact (proj2 (proj2 (@image_check_ignores_leading_registry (unix_world no_env)
                         (sample_api healthy_client) "library/alpine:3.14" []
                         eq_refl))).
Defined.

(** ** The pull of an image *)

Section Pull.

Context {W : World}.

(** What [downloadImage] does, whatever the engine answers. *)
Lemma downloadImage_cases (d : API) (image : string) (t : Trace) :
  let entry :=
    LogDebugWithLevel (MsgDebugDockerAPIPullNewImage messages)
      [("image", image); ("analysisId", UUID_String (analysisID d))] in
  let pull := Engine (CallImagePull image (setPullOptions d)) in
  downloadImage d image t =
  match ImagePull (dockerClient d) (t ++ [entry]) image (setPullOptions d) with
  | (_, Some e) =>
      (Done (Some e),
       t ++ [entry; pull; LogErrorWithLevel (MsgErrorDockerPullImage messages) (Some e)])
  | (reader, None) =>
      match io.failure reader with
      | Some e =>
          (Done (Some e),
           t ++ [entry; pull;
                 LogErrorWithLevel (MsgErrorDockerPullImage messages) (Some e);
                 LogDebugWithLevel (io.data reader) []])
      | None =>
          (Done None,
           t ++ [entry; pull;
                 LogDebugWithLevel (MsgDebugDockerAPIDownloadWithSuccess messages)
                   [("image", image); ("analysisId", UUID_String (analysisID d))]])
      end
  end.
Proof.
  unfold downloadImage, readPullReader, loggerAPIStatus, io.ReadAll, bind, emit, call, ret.
  cbn [fst snd].
  destruct (ImagePull _ _ _ _) as [reader [e|]]; cbn [fst snd].
  - now repeat rewrite <- app_assoc.
  - destruct (io.failure reader) as [e|]; cbn [fst snd]; now repeat rewrite <- app_assoc.
Qed.

(** What [PullImage] does, whatever the engine answers. *)
Lemma PullImage_cases (d : API) (image : string) (t : Trace) :
  let list := Engine (CallImageList (referenceFilter (removeRegistry d image))) in
  let pull := Engine (CallImagePull image (setPullOptions d)) in
  let failed :=
    LogError (fmt.Sprintf "%s -> %s" [MsgErrorFailedToPullImage messages; image]) in
  PullImage d image t =
  if DisableDocker (config d) then (Done None, t)
  else
    match ImageList (dockerClient d) (t ++ [MutexLock])
            (referenceFilter (removeRegistry d image)) with
    | (_, Some e) =>
        (Done (Some e),
         t ++ [MutexLock; list;
               LogErrorWithLevel (MsgErrorDockerListImages messages) (Some e);
               MutexUnlock; failed (Some e)])
    | (images, None) =>
        if negb (Nat.eqb (List.length images) 0) then
          (Done None, t ++ [MutexLock; list; MutexUnlock])
        else
        match ImagePull (dockerClient d) (pullPoint d image t) image
                (setPullOptions d) with
        | (_, Some e) =>
            (Done (Some e),
             pullPoint d image t
             ++ [pull; LogErrorWithLevel (MsgErrorDockerPullImage messages) (Some e);
                 failed (Some e)])
        | (reader, None) =>
            match io.failure reader with
            | Some e =>
                (Done (Some e),
                 pullPoint d image t
                 ++ [pull; LogErrorWithLevel (MsgErrorDockerPullImage messages) (Some e);
                     LogDebugWithLevel (io.data reader) []; failed (Some e)])
            | None =>
                (Done None,
                 pullPoint d image t
                 ++ [pull;
                     LogDebugWithLevel (MsgDebugDockerAPIDownloadWithSuccess messages)
                       [("image", image); ("analysisId", UUID_String (analysisID d))];
                     failed None])
            end
        end
    end.
Proof.
  cbv zeta. unfold PullImage.
  destruct (DisableDocker (config d)); [reflexivity|].
  unfold bind. rewrite checkIfImageNotExists_run. cbv zeta.
  destruct (ImageList _ _ _) as [images [e|]].
  - unfold emit, ret. cbn [fst snd]. now repeat rewrite <- app_assoc.
  - destruct images as [|i images]; cbn [List.length Nat.eqb negb]; [|reflexivity].
    unfold emit at 1. cbn [fst snd].
    rewrite downloadImage_cases. cbv zeta. unfold pullPoint.
    repeat rewrite <- app_assoc. cbn [app].
    destruct (ImagePull _ _ _ _) as [reader [e|]].
    + unfold emit, ret. cbn [fst snd]. now repeat rewrite <- app_assoc.
    + destruct (io.failure reader) as [e|];
        unfold emit, ret; cbn [fst snd]; now repeat rewrite <- app_assoc.
Qed.

(** X4. [PullImage] holds the mutex for the list of the images and for
    nothing else: of the calls of the engine it makes, the image list is the
    only one made while the mutex is held, so a pull is asked for after the
    mutex has been released; and the mutex is free when [PullImage] returns,
    also when the list fails. *)
Theorem PullImage_lock_discipline (d : API) (image : string) (t : Trace) :
  critical false (steps (PullImage d image) t)
  = (if DisableDocker (config d) then []
     else [CallImageList (referenceFilter (removeRegistry d image))]) /\
  held_after false (steps (PullImage d image) t) = false.
Proof.
  unfold steps. rewrite PullImage_cases. cbv zeta. unfold pullPoint.
  destruct (DisableDocker (config d)).
  - cbn [snd]. rewrite <- (app_nil_r t) at 2 4. rewrite skipn_length_app.
    split; reflexivity.
  - destruct (ImageList _ _ _) as [images [e|]].
    + steps_of_run. split; reflexivity.
    + destruct images as [|i images]; cbn [List.length Nat.eqb negb];
        [|steps_of_run; split; reflexivity].
      destruct (ImagePull _ _ _ _) as [reader [e|]].
      * steps_of_run. split; reflexivity.
      * destruct (io.failure reader) as [e|]; steps_of_run; split; reflexivity.
Qed.

(** X5. When the check lists no image, [PullImage] asks for the pull and
    returns what the download returns: the error of the engine when the pull
    is refused, the error that stopped the read when the pull is accepted
    and its stream breaks, and no error when the stream is read to its end.
    The calls of the engine are the list and the pull. *)
Theorem PullImage_returns_download_error (d : API) (image : string) (t : Trace)
  (reader : io.Reader) (err : option error) :
  DisableDocker (config d) = false ->
  ImageList (dockerClient d) (t ++ [MutexLock])
    (referenceFilter (removeRegistry d image)) = ([], None) ->
  ImagePull (dockerClient d) (pullPoint d image t) image (setPullOptions d)
  = (reader, err) ->
  result (PullImage d image) t
  = Done (match err with Some e => Some e | None => io.failure reader end) /\
  engine_calls (steps (PullImage d image) t)
  = [CallImageList (referenceFilter (removeRegistry d image));
     CallImagePull image (setPullOptions d)].
Proof.
  intros Hdis Hlist Hpull.
  unfold result, steps. rewrite PullImage_cases. cbv zeta.
  rewrite Hdis, Hlist. cbn [List.length Nat.eqb negb]. rewrite Hpull. unfold pullPoint.
  destruct err as [e|].
  - split; [reflexivity|]. now steps_of_run.
  - destruct (io.failure reader) as [e|]; (split; [reflexivity|]); now steps_of_run.
Qed.

End Pull.

Lemma PullImage_returns_download_error_witness :
  DisableDocker (config (sample_api pull_stream_error_client)) = false /\
  result (@PullImage (unix_world no_env) (sample_api pull_stream_error_client)
            "horuszup/horusec-bandit:v1.0.1") []
  = Done (Some (errors.New "connection reset")).
Proof.
  split; [reflexivity|].
  exact (proj1 (@PullImage_returns_download_error (unix_world no_env)
                  (sample_api pull_stream_error_client)
                  "horuszup/horusec-bandit:v1.0.1" []
                  {| io.data := "Pulling from";
                     io.failure := Some (errors.New "connection reset") |}
                  None eq_refl eq_refl eq_refl)).
Defined.

(** ** The life cycle of a container, whatever the engine answers *)

Lemma Sprintf_name (id fresh : string) :
  fmt.Sprintf "%s-%s" [id; fresh] = (id ++ "-" ++ fresh)%string.
Proof. cbn. now rewrite append_nil_r. Qed.

Lemma Sprintf_cd (dir cmd : string) :
  fmt.Sprintf "cd %s && %s" [dir; cmd] = ("cd " ++ dir ++ " && " ++ cmd)%string.
Proof. cbn. now rewrite append_nil_r. Qed.

Lemma Sprintf_token (value : string) :
  fmt.Sprintf "GITHUB_TOKEN=%s" [value] = ("GITHUB_TOKEN=" ++ value)%string.
Proof. cbn. now rewrite append_nil_r. Qed.

Section LifecycleCases.

Context {W : World}.

(** What [createContainer] does, whatever the engine answers. *)
Lemma createContainer_cases (d : API) (image cmd : string) (t : Trace) :
  createContainer d image cmd t =
  match getContainerAndHostConfig d image cmd with
  | None => (Panic, t)
  | Some (cfg, host) =>
      let name :=
        (UUID_String (analysisID d) ++ "-" ++ UUID_String (uuid_New t))%string in
      let create := Engine (CallContainerCreate cfg host name) in
      match ContainerCreate (dockerClient d) (t ++ [UUIDNew]) cfg host name with
      | (_, Some e) =>
          (Done ("", Some e),
           t ++ [UUIDNew; create;
                 LogErrorWithLevel (MsgErrorDockerCreateContainer messages) (Some e)])
      | (response, None) =>
          let start :=
            Engine (CallContainerStart (CreatedID response)
                      Build_ContainerStartOptions) in
          match ContainerStart (dockerClient d) (startPoint t cfg host name)
                  (CreatedID response) Build_ContainerStartOptions with
          | Some e =>
              (Done ("", Some e),
               t ++ [UUIDNew; create; start;
                     LogErrorWithLevel (MsgErrorDockerStartContainer messages)
                       (Some e)])
          | None =>
              (Done (CreatedID response, None),
               t ++ [UUIDNew; create; start;
                     LogDebugWithLevel (MsgDebugDockerAPIContainerCreated messages)
                       [("image", image);
                        ("containerId", CreatedID response);
                        ("analysisId", UUID_String (analysisID d))]])
          end
      end
  end.
Proof.
  unfold createContainer, getImageID, loggerAPIStatusWithContainerID, startPoint,
    bind, call, emit, lift, ret, panic.
  destruct (getContainerAndHostConfig d image cmd) as [[cfg host]|];
    cbn [fst snd]; [|reflexivity].
  rewrite Sprintf_name.
  destruct (ContainerCreate _ _ _ _ _) as [response [e|]]; cbn [fst snd].
  - now repeat rewrite <- app_assoc.
  - repeat rewrite <- app_assoc. cbn [app].
    destruct (ContainerStart _ _ _ _) as [e|]; cbn [fst snd];
      now repeat rewrite <- app_assoc.
Qed.

(** What [readContainer] does, whatever the engine answers. *)
Lemma readContainer_cases (d : API) (containerID : string) (t : Trace) :
  let wait := Engine (CallContainerWait containerID "") in
  let logs := Engine (CallContainerLogs containerID {| ShowStdout := true |}) in
  readContainer d containerID t =
  match ContainerWait (dockerClient d) t containerID "" with
  | None => (Blocked, t ++ [wait])
  | Some status =>
      match WaitError status with
      | Some waitError =>
          (Done ("", Some (errors.New
                             (waitErrorText containerID (Message waitError)
                                (strconv.int (StatusCode status))))),
           t ++ [wait])
      | None =>
          match ContainerLogs (dockerClient d) (t ++ [wait]) containerID
                  {| ShowStdout := true |} with
          | (_, Some e) => (Done ("", Some e), t ++ [wait; logs])
          | (reader, None) =>
              (Done match io.failure reader with
                    | Some e => ("", Some e)
                    | None => (io.data reader, None)
                    end,
               t ++ [wait; logs])
          end
      end
  end.
Proof.
  cbv zeta.
  unfold readContainer, readOutputAsString, io.ReadAll, bind, call, ret, block.
  cbn [fst snd].
  destruct (ContainerWait _ _ _ _) as [status|]; [|reflexivity].
  destruct (WaitError status) as [waitError|];
    [now rewrite Sprintf_wait_error|].
  cbn [fst snd].
  destruct (ContainerLogs _ _ _ _) as [reader [e|]];
    cbn [fst snd]; now repeat rewrite <- app_assoc.
Qed.

End LifecycleCases.

Lemma skipn_length_self {A : Type} (t : list A) : skipn (List.length t) t = [].
Proof. rewrite <- (app_nil_r t) at 2. apply skipn_length_app. Qed.

Section LifecycleOrder.

Context {W : World}.

(** The calls of an invocation are the first calls of one life cycle, of
    the container named after the run and identified by the answer of the
    engine to the creation; all five exactly when it succeeds. *)
Lemma invocation_shape (d : API) (data : AnalysisData) (t : Trace) :
  let image := GetCustomOrDefaultImage data in
  let cmd := replaceCMDAnalysisID d (CMD data) in
  let name := (UUID_String (analysisID d) ++ "-" ++ UUID_String (uuid_New t))%string in
  exists cfg host n,
    let created := ContainerCreate (dockerClient d) (t ++ [UUIDNew]) cfg host name in
    n <= 5 /\
    (IsInvalid data = false ->
     forall ch, getContainerAndHostConfig d image cmd = Some ch ->
                ch = (cfg, host) /\ 1 <= n) /\
    (1 <= n -> getContainerAndHostConfig d image cmd = Some (cfg, host)) /\
    (2 <= n -> snd created = None) /\
    engine_calls (steps (CreateLanguageAnalysisContainer d data) t)
    = firstn n (lifecycle cfg host name (CreatedID (fst created))) /\
    (n = 5 <->
     exists out, result (CreateLanguageAnalysisContainer d data) t = Done (out, None)) /\
    (IsInvalid data = true -> n = 0).
Proof.
  intros image cmd name.
  unfold result, steps, CreateLanguageAnalysisContainer.
  destruct (IsInvalid data).
  - exists (getContainerConfig d image cmd), {| Mounts := [] |}, 0.
    cbn [ret fst snd]. rewrite skipn_length_self.
    repeat split; try lia; try discriminate. intros [out H]. discriminate H.
  - fold image cmd.
    unfold logStatusAndExecuteCRDContainer, executeCRDContainer, bind.
    rewrite createContainer_cases.
    destruct (getContainerAndHostConfig d image cmd) as [[cfg host]|].
    + cbv zeta. fold name.
      destruct (ContainerCreate _ _ _ _ _) as [response [e|]] eqn:Hcreate.
      * exists cfg, host, 1. rewrite Hcreate.
        unfold loggerAPIStatus, emit, ret. steps_of_run.
        repeat split; try lia; try congruence.
        intros [out H]. discriminate H.
      * destruct (ContainerStart _ _ _ _) as [e|].
        -- exists cfg, host, 2. rewrite Hcreate.
           unfold loggerAPIStatus, emit, ret. steps_of_run.
           repeat split; try lia; try congruence.
           intros [out H]. discriminate H.
        -- unfold loggerAPIStatusWithContainerID, emit at 1 2. cbn [fst snd].
           rewrite readContainer_cases. cbv zeta.
           destruct (ContainerWait _ _ _ _) as [status|].
           ++ destruct (WaitError status) as [waitError|].
              ** exists cfg, host, 3. rewrite Hcreate.
                 unfold loggerAPIStatus, emit, ret. steps_of_run.
                 repeat split; try lia; try congruence.
                 intros [out H]. discriminate H.
              ** destruct (ContainerLogs _ _ _ _) as [reader [e|]].
                 --- exists cfg, host, 4. rewrite Hcreate.
                     unfold loggerAPIStatus, emit, ret. steps_of_run.
                     repeat split; try lia; try congruence.
                     intros [out H]. discriminate H.
                 --- destruct (io.failure reader) as [e|].
                     +++ exists cfg, host, 4. rewrite Hcreate.
                         unfold loggerAPIStatus, emit, ret. steps_of_run.
                         repeat split; try lia; try congruence.
                         intros [out H]. discriminate H.
                     +++ exists cfg, host, 5. rewrite Hcreate.
                         unfold loggerAPIStatus, removeContainer, bind, call, emit, ret.
                         steps_of_run.
                         repeat split; try lia; try congruence.
                         intros _. eexists. reflexivity.
           ++ exists cfg, host, 3. rewrite Hcreate.
              steps_of_run.
              repeat split; try lia; try congruence.
              intros [out H]. discriminate H.
    + exists (getContainerConfig d image cmd), {| Mounts := [] |}, 0.
      cbn [fst snd]. rewrite skipn_length_self.
      repeat split; try lia; try discriminate.
      intros [out H]. discriminate H.
Qed.

(** X6. Whatever the engine answers, the calls that an invocation makes
    are the first calls of one life cycle: the creation of a container, with
    the configuration of the service and under the identifier of the run, a
    dash and a fresh identifier, and then, only when the engine has answered
    the creation without an error, the start, the wait, the logs of the
    standard output and the forced removal, in this order, each of the
    container whose identifier the engine returned in its answer to that
    creation. All five are made exactly when the invocation succeeds, and
    none when the data is invalid. *)
Theorem lifecycle_order (d : API) (data : AnalysisData) (t : Trace) :
  let name := (UUID_String (analysisID d) ++ "-" ++ UUID_String (uuid_New t))%string in
  exists cfg hostCfg n,
    let created :=
      ContainerCreate (dockerClient d) (t ++ [UUIDNew]) cfg hostCfg name in
    n <= 5 /\
    engine_calls (steps (CreateLanguageAnalysisContainer d data) t)
    = firstn n (lifecycle cfg hostCfg name (CreatedID (fst created))) /\
    (1 <= n ->
     getContainerAndHostConfig d (GetCustomOrDefaultImage data)
       (replaceCMDAnalysisID d (CMD data)) = Some (cfg, hostCfg)) /\
    (2 <= n -> snd created = None) /\
    (n = 5 <->
     exists out, result (CreateLanguageAnalysisContainer d data) t = Done (out, None)) /\
    (IsInvalid data = true -> n = 0).
Proof.
  destruct (invocation_shape d data t)
    as (cfg & host & n & Hn & _ & Hcfg & Hcreated & Hcalls & Hiff & Hinv).
  exists cfg, host, n. repeat split; try assumption; apply Hiff.
Qed.

(** X7. The container of a tool. With valid data and a mount source, the
    first call of an invocation creates a container of the image of the
    data with a terminal, whose command is a shell that changes to the
    directory of the service and runs the command of the data with the
    token of the run replaced, whose environment is the variable
    [GITHUB_TOKEN] of the process, and whose only mount binds the mount
    source to that same directory, privately; its name is the identifier
    of the run, a dash and a fresh identifier. *)
Theorem created_container (d : API) (data : AnalysisData) (t : Trace)
  (source : string) :
  IsInvalid data = false ->
  getSourceFolder d = Some source ->
  hd_error (engine_calls (steps (CreateLanguageAnalysisContainer d data) t))
  = Some
      (CallContainerCreate
         {| Image := GetCustomOrDefaultImage data;
            Tty := true;
            Cmd := ["/bin/sh"; "-c";
                    ("cd " ++ pathDestinyInContainer d ++ " && "
                     ++ replaceCMDAnalysisID d (CMD data))%string];
            Env := [("GITHUB_TOKEN=" ++ os_Getenv "GITHUB_TOKEN")%string] |}
         {| Mounts :=
              [{| Type_ := "bind";
                  Source := source;
                  Target := pathDestinyInContainer d;
                  MountBindOptions := Some {| Propagation := "private" |} |}] |}
         (UUID_String (analysisID d) ++ "-" ++ UUID_String (uuid_New t))).
Proof.
  intros Hvalid Hsource.
  destruct (invocation_shape d data t)
    as (cfg & host & n & _ & Hcfg & _ & _ & Hcalls & _ & _).
  rewrite Hcalls.
  destruct (Hcfg Hvalid
              (getContainerConfig d (GetCustomOrDefaultImage data)
                 (replaceCMDAnalysisID d (CMD data)),
               {| Mounts :=
                    [{| Type_ := TypeBind;
                        Source := source;
                        Target := pathDestinyInContainer d;
                        MountBindOptions :=
                          Some {| Propagation := PropagationPrivate |} |}] |}))
    as [Heq Hn].
  { unfold getContainerAndHostConfig, getContainerHostConfig. now rewrite Hsource. }
  injection Heq as <- <-.
  destruct n as [|n]; [lia|]. cbn [firstn lifecycle hd_error].
  unfold getContainerConfig. now rewrite Sprintf_cd, Sprintf_token.
Qed.

(** X8. When the engine refuses the creation, the invocation returns the
    error of the engine with the empty output, and the creation is its only
    call: nothing is started, waited for or removed. *)
Theorem creation_failure_is_returned (d : API) (data : AnalysisData) (t : Trace)
  (cfg : ContainerConfig) (hostCfg : HostConfig)
  (response : ContainerCreateCreatedBody) (e : error) :
  let image := GetCustomOrDefaultImage data in
  let cmd := replaceCMDAnalysisID d (CMD data) in
  let name := (UUID_String (analysisID d) ++ "-" ++ UUID_String (uuid_New t))%string in
  IsInvalid data = false ->
  getContainerAndHostConfig d image cmd = Some (cfg, hostCfg) ->
  ContainerCreate (dockerClient d) (t ++ [UUIDNew]) cfg hostCfg name
  = (response, Some e) ->
  result (CreateLanguageAnalysisContainer d data) t = Done ("", Some e) /\
  engine_calls (steps (CreateLanguageAnalysisContainer d data) t)
  = [CallContainerCreate cfg hostCfg name].
Proof.
  intros image cmd name Hvalid Hcfg Hcreate.
  unfold result, steps, CreateLanguageAnalysisContainer. rewrite Hvalid.
  fold image cmd.
  unfold logStatusAndExecuteCRDContainer, executeCRDContainer, bind.
  rewrite createContainer_cases, Hcfg. cbv zeta. fold name. rewrite Hcreate.
  unfold loggerAPIStatus, emit, ret. cbn [fst snd].
  split; [reflexivity|]. now steps_of_run.
Qed.

(** X9. When the engine creates the container and fails to start it, the
    invocation returns the error of the start with the empty output; the
    creation and the start are its only calls, so the container that was
    created is not removed. *)
Theorem start_failure_is_returned (d : API) (data : AnalysisData) (t : Trace)
  (cfg : ContainerConfig) (hostCfg : HostConfig)
  (response : ContainerCreateCreatedBody) (e : error) :
  let image := GetCustomOrDefaultImage data in
  let cmd := replaceCMDAnalysisID d (CMD data) in
  let name := (UUID_String (analysisID d) ++ "-" ++ UUID_String (uuid_New t))%string in
  IsInvalid data = false ->
  getContainerAndHostConfig d image cmd = Some (cfg, hostCfg) ->
  ContainerCreate (dockerClient d) (t ++ [UUIDNew]) cfg hostCfg name
  = (response, None) ->
  ContainerStart (dockerClient d) (startPoint t cfg hostCfg name)
    (CreatedID response) Build_ContainerStartOptions = Some e ->
  result (CreateLanguageAnalysisContainer d data) t = Done ("", Some e) /\
  engine_calls (steps (CreateLanguageAnalysisContainer d data) t)
  = [CallContainerCreate cfg hostCfg name;
     CallContainerStart (CreatedID response) Build_ContainerStartOptions].
Proof.
  intros image cmd name Hvalid Hcfg Hcreate Hstart.
  unfold result, steps, CreateLanguageAnalysisContainer. rewrite Hvalid.
  fold image cmd.
  unfold logStatusAndExecuteCRDContainer, executeCRDContainer, bind.
  rewrite createContainer_cases, Hcfg. cbv zeta. fold name.
  rewrite Hcreate, Hstart.
  unfold loggerAPIStatus, emit, ret. cbn [fst snd].
  split; [reflexivity|]. now steps_of_run.
Qed.

(** X10. After a wait that reports no error, the exit status of the
    container plays no part. When the engine hands out the logs and they
    are read to their end, the invocation returns everything that was read
    and no error, and its calls go on with the wait, the logs of the
    standard output and the forced removal of the container. When the
    engine refuses the logs or the read breaks, it returns that error with
    the empty output, and the calls end with the logs. *)
Theorem output_after_clean_wait (d : API) (data : AnalysisData) (t : Trace)
  (containerID : string) (status : ContainerWaitOKBody)
  (reader : io.Reader) (err : option error) :
  let image := GetCustomOrDefaultImage data in
  let cmd := replaceCMDAnalysisID d (CMD data) in
  let wait := CallContainerWait containerID "" in
  let logs := CallContainerLogs containerID {| ShowStdout := true |} in
  let created := engine_calls (steps (createContainer d image cmd) t) in
  IsInvalid data = false ->
  result (createContainer d image cmd) t = Done (containerID, None) ->
  ContainerWait (dockerClient d) (waitPoint d image cmd t containerID) containerID ""
  = Some status ->
  WaitError status = None ->
  ContainerLogs (dockerClient d)
    (waitPoint d image cmd t containerID ++ [Engine wait]) containerID
    {| ShowStdout := true |} = (reader, err) ->
  match (match err with Some e => Some e | None => io.failure reader end) with
  | Some e =>
      result (CreateLanguageAnalysisContainer d data) t = Done ("", Some e) /\
      engine_calls (steps (CreateLanguageAnalysisContainer d data) t)
      = created ++ [wait; logs]
  | None =>
      result (CreateLanguageAnalysisContainer d data) t = Done (io.data reader, None) /\
      engine_calls (steps (CreateLanguageAnalysisContainer d data) t)
      = created ++ [wait; logs; forcedRemoval containerID]
  end.
Proof.
  intros image cmd wait logs created Hvalid Hcreate Hwait Herr Hlogs.
  pose proof (steps_spec _ t (monotone_createContainer d image cmd)) as Hsteps.
  unfold waitPoint in Hwait, Hlogs. unfold result in Hcreate.
  unfold created. clear created.
  unfold result, steps at 1 3, CreateLanguageAnalysisContainer. rewrite Hvalid.
  fold image cmd.
  unfold logStatusAndExecuteCRDContainer, executeCRDContainer,
    loggerAPIStatusWithContainerID, loggerAPIStatus, removeContainer,
    bind, emit, call, ret.
  destruct (createContainer d image cmd t) as [o t1].
  cbn [fst snd] in *. subst o. rewrite Hsteps in *.
  set (s1 := steps (createContainer d image cmd) t) in *.
  rewrite readContainer_cases. cbv zeta.
  rewrite Hwait, Herr. fold wait. rewrite Hlogs.
  destruct err as [e|].
  - cbn [fst snd]. split; [reflexivity|].
    repeat rewrite <- app_assoc. rewrite skipn_length_app.
    rewrite !engine_calls_app. reflexivity.
  - destruct (io.failure reader) as [e|]; cbn [fst snd].
    + split; [reflexivity|].
      repeat rewrite <- app_assoc. rewrite skipn_length_app.
      rewrite !engine_calls_app. reflexivity.
    + split; [reflexivity|].
      repeat rewrite <- app_assoc. rewrite skipn_length_app.
      rewrite !engine_calls_app. reflexivity.
Qed.

End LifecycleOrder.

Lemma created_container_witness :
  IsInvalid sample_data = false /\
  @getSourceFolder (unix_world no_env) (sample_api healthy_client)
  = Some "/home/dev/project/.horusec/3f2b8c1a-9d4e-4f6a-8b7c-0123456789ab" /\
  hd_error
    (engine_calls
       (steps (@CreateLanguageAnalysisContainer (unix_world no_env)
                 (sample_api healthy_client) sample_data) []))
  = Some
      (CallContainerCreate
         {| Image := "horuszup/horusec-bandit:v1.0.1";
            Tty := true;
            Cmd := ["/bin/sh"; "-c";
                    "cd /src && bandit -r . -f json > /tmp/3f2b8c1a-9d4e-4f6a-8b7c-0123456789ab.json"];
            Env := ["GITHUB_TOKEN="] |}
         {| Mounts :=
              [{| Type_ := "bind";
                  Source := "/home/dev/project/.horusec/3f2b8c1a-9d4e-4f6a-8b7c-0123456789ab";
                  Target := "/src";
                  MountBindOptions := Some {| Propagation := "private" |} |}] |}
         "3f2b8c1a-9d4e-4f6a-8b7c-0123456789ab-7d9f2c1e-5a3b-4e8d-9c60-0").
Proof.
  split; [reflexivity|]. split; [vm_compute; reflexivity|].
  apply (@created_container (unix_world no_env) (sample_api healthy_client)
           sample_data []
           "/home/dev/project/.horusec/3f2b8c1a-9d4e-4f6a-8b7c-0123456789ab");
    [reflexivity | vm_compute; reflexivity].
Defined.

Lemma creation_failure_is_returned_witness :
  IsInvalid sample_data = false /\
  result (@CreateLanguageAnalysisContainer (unix_world no_env)
            (sample_api create_error_client) sample_data) []
  = Done ("", Some (errors.New "No such image")) /\
  List.length
    (engine_calls
       (steps (@CreateLanguageAnalysisContainer (unix_world no_env)
                 (sample_api create_error_client) sample_data) [])) = 1.
Proof.
  split; [reflexivity|].
  destruct (@creation_failure_is_returned (unix_world no_env)
              (sample_api create_error_client) sample_data [] _ _
              {| CreatedID := "" |} (errors.New "No such image")
              eq_refl eq_refl eq_refl) as [Hres Hcalls].
  split; [exact Hres|]. rewrite Hcalls. reflexivity.
Defined.

Lemma start_failure_is_returned_witness :
  IsInvalid sample_data = false /\
  result (@CreateLanguageAnalysisContainer (unix_world no_env)
            (sample_api start_error_client) sample_data) []
  = Done ("", Some (errors.New "mount denied")) /\
  remove_calls
    (steps (@CreateLanguageAnalysisContainer (unix_world no_env)
              (sample_api start_error_client) sample_data) []) = [].
Proof.
  split; [reflexivity|].
  destruct (@start_failure_is_returned (unix_world no_env)
              (sample_api start_error_client) sample_data [] _ _
              {| CreatedID := "c1" |} (errors.New "mount denied")
              eq_refl eq_refl eq_refl eq_refl) as [Hres Hcalls].
  split; [exact Hres|]. unfold remove_calls. rewrite Hcalls. reflexivity.
Defined.

Lemma output_after_clean_wait_witness :
  IsInvalid sample_data = false /\
  result (@createContainer (unix_world no_env) (sample_api nonzero_exit_client)
            (GetCustomOrDefaultImage sample_data)
            (replaceCMDAnalysisID (sample_api nonzero_exit_client) (CMD sample_data))) []
  = Done ("c1", None) /\
  WaitError {| WaitError := None; StatusCode := 2 |} = None /\
  result (@CreateLanguageAnalysisContainer (unix_world no_env)
            (sample_api nonzero_exit_client) sample_data) []
  = Done ("{ results: 3 }", None).
Proof.
  split; [reflexivity|]. split; [vm_compute; reflexivity|]. split; [reflexivity|].
  exact (proj1 (@output_after_clean_wait (unix_world no_env)
                  (sample_api nonzero_exit_client) sample_data [] "c1"
                  {| WaitError := None; StatusCode := 2 |}
                  (reader_of "{ results: 3 }") None
                  eq_refl eq_refl eq_refl eq_refl eq_refl)).
Defined.

Section Scope.

Context {W : World}.

(** The first call of the cleanup lists the containers of the run. *)
Lemma DeleteContainersFromAPI_first_call (d : API) (t : Trace) :
  hd_error (engine_calls (steps (DeleteContainersFromAPI d) t))
  = Some (CallContainerList (runFilter d)).
Proof.
  unfold steps, DeleteContainersFromAPI, listContainersByAnalysisID, bind, call.
  cbn [fst snd]. fold (runFilter d).
  destruct (ContainerList _ _ _) as [containers [e|]].
  - unfold emit. now steps_of_run.
  - match goal with
    | |- context [removeEach d containers ?t1] =>
        destruct (removeEach_run d containers t1) as (l & Hrun & _); rewrite Hrun
    end.
    now steps_of_run.
Qed.

(** X11. The cleanup looks for what the invocations create. Every
    container that an invocation asks the engine to create has a name that
    starts with the identifier of the run and a dash, and so contains the
    value by which the cleanup of the same service filters the names of the
    containers it lists, stopped ones included. *)
Theorem created_name_matches_cleanup_filter (d : API) (data : AnalysisData)
  (t t' : Trace) (cfg : ContainerConfig) (hostCfg : HostConfig) (name : string) :
  In (CallContainerCreate cfg hostCfg name)
    (engine_calls (steps (CreateLanguageAnalysisContainer d data) t)) ->
  exists value,
    hd_error (engine_calls (steps (DeleteContainersFromAPI d) t'))
    = Some (CallContainerList {| All := true; ListFilters := [("name", value)] |}) /\
    strings.HasPrefix name (value ++ "-") = true /\
    strings.Contains name value = true.
Proof.
  intros Hin. exists (UUID_String (analysisID d)).
  split; [apply DeleteContainersFromAPI_first_call|].
  destruct (invocation_shape d data t)
    as (cfg0 & host0 & n & Hn & _ & _ & _ & Hcalls & _ & _).
  rewrite Hcalls in Hin.
  assert (Hname : name
                  = (UUID_String (analysisID d) ++ "-"
                     ++ UUID_String (uuid_New t))%string).
  { unfold lifecycle, forcedRemoval in Hin.
    do 6 (destruct n as [|n]; [cbn [firstn In] in Hin; intuition congruence|]).
    lia. }
  subst name. split.
  - rewrite <- append_assoc. apply HasPrefix_app.
  - apply (Contains_middle "").
Qed.

End Scope.

Lemma created_name_matches_cleanup_filter_witness :
  exists cfg hostCfg,
    In (CallContainerCreate cfg hostCfg
          "3f2b8c1a-9d4e-4f6a-8b7c-0123456789ab-7d9f2c1e-5a3b-4e8d-9c60-0")
      (engine_calls
         (steps (@CreateLanguageAnalysisContainer (unix_world no_env)
                   (sample_api healthy_client) sample_data) [])) /\
    exists value,
      hd_error
        (engine_calls
           (steps (@DeleteContainersFromAPI (unix_world no_env)
                     (sample_api healthy_client)) []))
      = Some (CallContainerList {| All := true; ListFilters := [("name", value)] |}) /\
      strings.Contains
        "3f2b8c1a-9d4e-4f6a-8b7c-0123456789ab-7d9f2c1e-5a3b-4e8d-9c60-0" value = true.
Proof.
  eexists _, _. split.
  - left. vm_compute. reflexivity.
  - match goal with
    | |- exists value, hd_error (engine_calls (steps ?m ?t')) = _ /\ _ =>
        destruct (@created_name_matches_cleanup_filter (unix_world no_env)
                    (sample_api healthy_client) sample_data [] t' _ _ _
                    (or_introl eq_refl)) as (value & Hlist & _ & Hname)
    end.
    exists value. split; [exact Hlist | exact Hname].
Defined.

(** ** The invocation on Unix *)

Section Unix.

Variable getenv : string -> string.

(** The rewrite of a path of two bytes or more does not panic. *)
Lemma getSourceFolderFromWindows_total (d : API) (c0 c1 : ascii) (rest : string) :
  getSourceFolderFromWindows d (String c0 (String c1 rest)) <> None.
Proof.
  unfold getSourceFolderFromWindows.
  cbn [slice Nat.leb String.length andb Nat.sub take drop].
  rewrite Split_byte.
  pose proof (split_byte_not_nil ":" (String c0 (String c1 rest))) as Hne.
  destruct (split_byte ":" (String c0 (String c1 rest))); [congruence | discriminate].
Qed.

(** X12. On Unix an invocation never panics. The identifier of a run is
    the string of a UUID: a name of two bytes or more without a separator.
    [filepath.Join] keeps it at the end of the per-run path, so the slice
    [path[1:2]] of [getSourceFolder] is within bounds, a mount source
    exists, and the invocation returns or waits for the engine, whatever the
    project path, the data and the answers of the engine are. *)
Theorem invocation_never_panics_on_unix (d : API) (data : AnalysisData) (t : Trace) :
  element_name (UUID_String (analysisID d)) = true ->
  2 <= String.length (UUID_String (analysisID d)) ->
  (exists source, @getSourceFolder (unix_world getenv) d = Some source) /\
  result (@CreateLanguageAnalysisContainer (unix_world getenv) d data) t <> Panic.
Proof.
  intros Hname Hlen.
  destruct (getSourceFolder_never_short_on_unix getenv d Hname Hlen) as [[c1 Hget] _].
  assert (Hsource : exists source,
             @getSourceFolder (unix_world getenv) d = Some source).
  { rewrite getSourceFolder_perRunPath, (slice_second _ _ Hget).
    destruct (String.eqb (String c1 "") ":"); [|eauto].
    destruct (get_second _ _ Hget) as (c0 & rest & Hp). rewrite Hp.
    pose proof (getSourceFolderFromWindows_total d c0 c1 rest) as Hw.
    destruct (getSourceFolderFromWindows d
                (String c0 (String c1 rest))); [eauto | congruence]. }
  split; [exact Hsource|]. destruct Hsource as [source Hsource].
  unfold result, CreateLanguageAnalysisContainer.
  destruct (IsInvalid data); [discriminate|].
  unfold logStatusAndExecuteCRDContainer, executeCRDContainer, bind.
  rewrite createContainer_cases.
  unfold getContainerAndHostConfig, getContainerHostConfig. rewrite Hsource.
  cbv zeta.
  destruct (ContainerCreate _ _ _ _ _) as [response [e|]]; [discriminate|].
  destruct (ContainerStart _ _ _ _) as [e|]; [discriminate|].
  unfold loggerAPIStatusWithContainerID, emit at 1. cbn [fst snd].
  rewrite readContainer_cases. cbv zeta.
  destruct (ContainerWait _ _ _ _) as [status|]; [|discriminate].
  destruct (WaitError status) as [waitError|]; [discriminate|].
  destruct (ContainerLogs _ _ _ _) as [reader [e|]]; [discriminate|].
  destruct (io.failure reader) as [e|]; discriminate.
Qed.

End Unix.

Lemma invocation_never_panics_on_unix_witness :
  element_name (UUID_String (analysisID (sample_api healthy_client))) = true /\
  2 <= String.length (UUID_String (analysisID (sample_api healthy_client))) /\
  result (@CreateLanguageAnalysisContainer (unix_world no_env)
            (sample_api healthy_client) sample_data) [] <> Panic.
Proof.
  split; [reflexivity|]. split; [simpl; lia|].
  apply (invocation_never_panics_on_unix no_env (sample_api healthy_client)
           sample_data []); [reflexivity | simpl; lia].
Defined.
